(** * LinkedIn profile scraper ([src/index.ts]): a shallow embedding

    The first part embeds the source file:
    - [JS]: the fragment of JavaScript strings the scraper relies on
      (UTF-16 code units, [split], [trim], [includes], [endsWith]);
    - one module per record interface of the source;
    - [Extract] and [Skills]: the in-page extraction callbacks (the
      date-range split, the endorsement count);
    - [Normalize]: the raw-to-clean mapping and the duration computation;
    - [Requests]: the blocked-hosts table and the request interceptor;
    - [Scroll]: the [autoScroll] timer loop;
    - [Lifecycle]: [setup], [createPage], [close], [checkIfLoggedIn] and
      [run] as programs of a state-and-exception monad over an explicit
      browser state, with an oracle deciding which driver calls throw;
    - [Construct]: the constructor and its checks of the options;
    - [Observe]: what the statements read off a state or a log;
    - [Samples] and [Fixtures]: concrete documents, worlds and states.

    The second part proves the properties, module by module, and runs
    the methods on the samples in [Scenarios] and [MoreScenarios].

    An [await] is sequencing: the code has one scraper and no two
    methods in flight. The one place where the order of the event loop
    shows is the promise built by [close]: its settling is modelled call
    by call, and when it is rejected before its executor has come to an
    end, the rest of the executor is kept in the state and runs on while
    the caller waits for its next driver call.

    A document is given by the address a page is on: what scrolling and
    clicking load into it is not modelled, and a driver call fails when
    the oracle says so, whatever the state of the browser. *)

From Stdlib Require Import ZArith NArith List String Ascii Bool Lia.
From stdpp Require Import base option list gmap.
Import ListNotations.

Local Open Scope N_scope.

(** ** JavaScript strings *)

Module JS.

(** A JavaScript string is a sequence of UTF-16 code units. *)
Definition jsstring : Type := list N.

(** An ASCII literal of the source, as code units. *)
Definition lit (s : string) : jsstring :=
  List.map N_of_ascii (list_ascii_of_string s).

(** The double quote, for the literals of the source that hold one. *)
Definition doubleQuote : string := String (ascii_of_nat 34) EmptyString.

(** U+2013, the separator of ['–'] in the date-range text. *)
Definition enDash : N := 8211.
Definition space : N := 32.
Definition newline : N := 10.

(** [WhiteSpace] and [LineTerminator] of ECMAScript, the code units
    that [String.prototype.trim] strips. *)
Definition isWhiteSpace (c : N) : bool :=
  (c =? 9) || (c =? 10) || (c =? 11) || (c =? 12) || (c =? 13) || (c =? 32)
  || (c =? 160) || (c =? 5760)
  || ((8192 <=? c) && (c <=? 8202))
  || (c =? 8232) || (c =? 8233) || (c =? 8239) || (c =? 8287)
  || (c =? 12288) || (c =? 65279).

Fixpoint trimStart (s : jsstring) : jsstring :=
  match s with
  | [] => []
  | c :: s' => if isWhiteSpace c then trimStart s' else s
  end.

Definition trimEnd (s : jsstring) : jsstring := rev (trimStart (rev s)).

Definition trim (s : jsstring) : jsstring := trimEnd (trimStart s).

(** [s.split(sep)] for a separator of one code unit: always at least one
    piece, [''.split(sep)] being [['']]. *)
Fixpoint split (sep : N) (s : jsstring) : list jsstring :=
  match s with
  | [] => [[]]
  | c :: s' =>
      if c =? sep then [] :: split sep s'
      else match split sep s' with
           | [] => [[c]]
           | w :: ws => (c :: w) :: ws
           end
  end.

(** Strict equality [===] of two strings. *)
Fixpoint eqb (s t : jsstring) : bool :=
  match s, t with
  | [], [] => true
  | a :: s', b :: t' => (a =? b) && eqb s' t'
  | _, _ => false
  end.

Fixpoint startsWith (s p : jsstring) {struct p} : bool :=
  match p, s with
  | [], _ => true
  | a :: p', b :: s' => (a =? b) && startsWith s' p'
  | _ :: _, [] => false
  end.

(** [s.includes(p)]: [p] occurs in [s] as a substring. *)
Fixpoint includes (s p : jsstring) : bool :=
  startsWith s p
  || match s with
     | [] => false
     | _ :: s' => includes s' p
     end.

Definition endsWith (s p : jsstring) : bool := startsWith (rev s) (rev p).

(** Truthiness of a string: every string but [''] is truthy. *)
Definition truthy (s : jsstring) : bool :=
  match s with [] => false | _ :: _ => true end.

(** [x || null] for a value that is a string, [null] or [undefined]. *)
Definition orNull (x : option jsstring) : option jsstring :=
  match x with
  | Some s => if truthy s then Some s else None
  | None => None
  end.

(** [A-Z] to [a-z], every other code unit unchanged: what
    [toLowerCase] does to a code unit below 128. *)
Definition lowerUnit (c : N) : N :=
  if (65 <=? c) && (c <=? 90) then c + 32 else c.

Definition isAscii (s : jsstring) : Prop := Forall (fun c => c < 128) s.

(** [String.prototype.toLowerCase] follows the Unicode case tables, which
    are not part of the program. The runtime is an interface: any
    lowering that agrees with [lowerUnit] on ASCII strings. *)
Class Runtime : Type := {
  toLowerCase : jsstring -> jsstring;
  toLowerCase_ascii :
    forall s, isAscii s -> toLowerCase s = List.map lowerUnit s
}.

(** The runtime restricted to the Basic Latin block. *)
#[export] Instance asciiRuntime : Runtime := {|
  toLowerCase := List.map lowerUnit;
  toLowerCase_ascii := fun s _ => eq_refl
|}.

End JS.

Import JS.

(** ** Records of the source

    One module per interface, so that the fields keep their names. *)

Module Location.
Record t : Type := {
  city : option jsstring;
  province : option jsstring;
  country : option jsstring
}.
End Location.

Module RawProfile.
Record t : Type := {
  fullName : option jsstring;
  title : option jsstring;
  location : option jsstring;
  photo : option jsstring;
  description : option jsstring;
  url : jsstring
}.
End RawProfile.

Module Profile.
Record t : Type := {
  fullName : option jsstring;
  title : option jsstring;
  location : option Location.t;
  photo : option jsstring;
  description : option jsstring;
  url : jsstring
}.
End Profile.

Module RawExperience.
Record t : Type := {
  title : option jsstring;
  company : option jsstring;
  employmentType : option jsstring;
  location : option jsstring;
  startDate : option jsstring;
  endDate : option jsstring;
  endDateIsPresent : bool;
  description : option jsstring
}.
End RawExperience.

(** A calendar date, as a day number. *)
Definition Date : Type := Z.

Module Experience.
Record t : Type := {
  title : option jsstring;
  company : option jsstring;
  employmentType : option jsstring;
  location : option Location.t;
  startDate : option Date;
  endDate : option Date;
  endDateIsPresent : bool;
  durationInDays : option Z;
  description : option jsstring
}.
End Experience.

Module RawEducation.
Record t : Type := {
  schoolName : option jsstring;
  degreeName : option jsstring;
  fieldOfStudy : option jsstring;
  startDate : option jsstring;
  endDate : option jsstring
}.
End RawEducation.

Module Education.
Record t : Type := {
  schoolName : option jsstring;
  degreeName : option jsstring;
  fieldOfStudy : option jsstring;
  startDate : option Date;
  endDate : option Date;
  durationInDays : option Z
}.
End Education.

Module RawVolunteerExperience.
Record t : Type := {
  title : option jsstring;
  company : option jsstring;
  startDate : option jsstring;
  endDate : option jsstring;
  endDateIsPresent : bool;
  description : option jsstring
}.
End RawVolunteerExperience.

Module VolunteerExperience.
Record t : Type := {
  title : option jsstring;
  company : option jsstring;
  startDate : option Date;
  endDate : option Date;
  endDateIsPresent : bool;
  durationInDays : option Z;
  description : option jsstring
}.
End VolunteerExperience.

(** A skill, as the skills query returns it: [NaN] is [None]. *)
Module Skill.
Record t : Type := {
  skillName : option jsstring;
  endorsementCount : option Z
}.
End Skill.

(** ** Extraction: the callbacks of [page.$$eval] *)

Module Extract.

(** What the selectors of one [#experience-section] entry find: the
    [textContent] of each queried element, [None] when the element is
    absent. [companyText] is the text of the company element once its
    [span] child has been removed. *)
Record ExperienceNode : Type := {
  titleText : option jsstring;
  employmentTypeText : option jsstring;
  companyText : option jsstring;
  descriptionText : option jsstring;
  dateRangeText : option jsstring;
  locationText : option jsstring
}.

(** One [#education-section] entry; [times] are the [time] elements
    under [.pv-entity__dates], in document order. *)
Record EducationNode : Type := {
  schoolNameText : option jsstring;
  degreeNameText : option jsstring;
  fieldOfStudyText : option jsstring;
  times : list jsstring
}.

Record VolunteerNode : Type := {
  vTitleText : option jsstring;
  vCompanyText : option jsstring;
  vDateRangeText : option jsstring;
  vDescriptionText : option jsstring
}.

Section DateRange.
Context `{Runtime}.

(** [dateRangeElement?.textContent || null] *)
Definition dateRange (text : option jsstring) : option jsstring := orNull text.

(** [dateRangeText?.split('–')[0] || null] *)
Definition startDatePart (dateRangeText : option jsstring) : option jsstring :=
  orNull (s ← dateRangeText; split enDash s !! 0%nat).

(** [startDatePart?.trim() || null] *)
Definition startDate (dateRangeText : option jsstring) : option jsstring :=
  orNull (trim <$> startDatePart dateRangeText).

(** [dateRangeText?.split('–')[1] || null] *)
Definition endDatePart (dateRangeText : option jsstring) : option jsstring :=
  orNull (s ← dateRangeText; split enDash s !! 1%nat).

(** [endDatePart?.trim().toLowerCase() === 'present' || false]: on a
    [null] part the chain yields [undefined], which is not ['present']. *)
Definition endDateIsPresent (dateRangeText : option jsstring) : bool :=
  match endDatePart dateRangeText with
  | Some part => eqb (toLowerCase (trim part)) (lit "present") || false
  | None => false || false
  end.

(** [(endDatePart && !endDateIsPresent) ? endDatePart.trim() : 'Present'] *)
Definition endDate (dateRangeText : option jsstring) : jsstring :=
  match endDatePart dateRangeText with
  | Some part =>
      if truthy part && negb (endDateIsPresent dateRangeText)
      then trim part
      else lit "Present"
  | None => lit "Present"
  end.

Definition experience (node : ExperienceNode) : RawExperience.t :=
  let dateRangeText := dateRange (dateRangeText node) in
  {| RawExperience.title := orNull (titleText node);
     RawExperience.company := orNull (companyText node);
     RawExperience.employmentType := orNull (employmentTypeText node);
     RawExperience.location := orNull (locationText node);
     RawExperience.startDate := startDate dateRangeText;
     RawExperience.endDate := Some (endDate dateRangeText);
     RawExperience.endDateIsPresent := endDateIsPresent dateRangeText;
     RawExperience.description := orNull (descriptionText node) |}.

Definition volunteerExperience (node : VolunteerNode)
  : RawVolunteerExperience.t :=
  let dateRangeText := dateRange (vDateRangeText node) in
  {| RawVolunteerExperience.title := orNull (vTitleText node);
     RawVolunteerExperience.company := orNull (vCompanyText node);
     RawVolunteerExperience.startDate := startDate dateRangeText;
     RawVolunteerExperience.endDate := Some (endDate dateRangeText);
     RawVolunteerExperience.endDateIsPresent := endDateIsPresent dateRangeText;
     RawVolunteerExperience.description := orNull (vDescriptionText node) |}.

End DateRange.

(** How the flag and the end date of a raw record stand to the text of
    its date range: the flag is set exactly by an end part that reads
    ["present"]; a set flag comes with the sentinel; a part that does not
    read ["present"] is kept, trimmed; and without an end part the flag is
    clear and the end date is the sentinel all the same. *)
Definition DateRangeSplit `{Runtime} (text : option jsstring)
  (flag : bool) (endDateField : option jsstring) : Prop :=
  let part := endDatePart (dateRange text) in
  (flag = true <->
   exists p, part = Some p /\ toLowerCase (trim p) = lit "present")
  /\ (flag = true -> endDateField = Some (lit "Present"))
  /\ (forall p, part = Some p -> flag = false ->
      endDateField = Some (trim p) /\ trim p <> lit "Present")
  /\ (part = None -> flag = false /\ endDateField = Some (lit "Present")).

(** [dateRangeElement[0]?.textContent || null], then [|| null] again. *)
Definition education (node : EducationNode) : RawEducation.t :=
  {| RawEducation.schoolName := orNull (schoolNameText node);
     RawEducation.degreeName := orNull (degreeNameText node);
     RawEducation.fieldOfStudy := orNull (fieldOfStudyText node);
     RawEducation.startDate := orNull (orNull (times node !! 0%nat));
     RawEducation.endDate := orNull (orNull (times node !! 1%nat)) |}.

End Extract.

(** ** Normalization: raw records to clean records *)

Module Normalize.

(** The helpers imported from [./utils], a module that is not among the
    sources: they are an interface of the development. [formatDate]
    parses a scraped date text to a calendar date, [None] standing for
    its falsy results. *)
Class Utils : Type := {
  getCleanText : option jsstring -> option jsstring;
  getLocationFromText : jsstring -> option Location.t;
  formatDate : option jsstring -> option Date;
  getHostname : jsstring -> jsstring
}.

(** Modelled from the spec: [getDurationInDays] of [./utils], whose code is
    missing. The whole days from [start] to [end], computed only when both
    bounds resolve to dates; an unresolved bound, or an end before the
    start, gives [null]. *)
Definition getDurationInDays (startDate endDate : option Date) : option Z :=
  match startDate, endDate with
  | Some s, Some e => if (e <? s)%Z then None else Some (e - s)%Z
  | _, _ => None
  end.

(** Truthiness of a formatted date. *)
Definition resolved (d : option Date) : bool :=
  match d with Some _ => true | None => false end.

Section WithUtils.
Context `{Utils}.

(** [now] is the value of [new Date()]. *)
Definition experience (now : Date) (rawExperience : RawExperience.t)
  : Experience.t :=
  let startDate := formatDate (RawExperience.startDate rawExperience) in
  let endDate := formatDate (RawExperience.endDate rawExperience) in
  let endDateIsPresent := RawExperience.endDateIsPresent rawExperience in
  let durationInDaysWithEndDate :=
    if resolved startDate && resolved endDate && negb endDateIsPresent
    then getDurationInDays startDate endDate else None in
  let durationInDaysForPresentDate :=
    if endDateIsPresent && resolved startDate
    then getDurationInDays startDate (Some now) else None in
  let durationInDays :=
    if endDateIsPresent then durationInDaysForPresentDate
    else durationInDaysWithEndDate in
  {| Experience.title := getCleanText (RawExperience.title rawExperience);
     Experience.company := getCleanText (RawExperience.company rawExperience);
     Experience.employmentType :=
       getCleanText (RawExperience.employmentType rawExperience);
     Experience.location :=
       match RawExperience.location rawExperience with
       | Some l => if truthy l then getLocationFromText l else None
       | None => None
       end;
     Experience.startDate := startDate;
     Experience.endDate := endDate;
     Experience.endDateIsPresent := endDateIsPresent;
     Experience.durationInDays := durationInDays;
     Experience.description :=
       getCleanText (RawExperience.description rawExperience) |}.

Definition education (rawEducation : RawEducation.t) : Education.t :=
  let startDate := formatDate (RawEducation.startDate rawEducation) in
  let endDate := formatDate (RawEducation.endDate rawEducation) in
  {| Education.schoolName := getCleanText (RawEducation.schoolName rawEducation);
     Education.degreeName := getCleanText (RawEducation.degreeName rawEducation);
     Education.fieldOfStudy :=
       getCleanText (RawEducation.fieldOfStudy rawEducation);
     Education.startDate := startDate;
     Education.endDate := endDate;
     Education.durationInDays := getDurationInDays startDate endDate |}.

Definition volunteerExperience
  (rawVolunteerExperience : RawVolunteerExperience.t)
  : VolunteerExperience.t :=
  let startDate :=
    formatDate (RawVolunteerExperience.startDate rawVolunteerExperience) in
  let endDate :=
    formatDate (RawVolunteerExperience.endDate rawVolunteerExperience) in
  {| VolunteerExperience.title :=
       getCleanText (RawVolunteerExperience.title rawVolunteerExperience);
     VolunteerExperience.company :=
       getCleanText (RawVolunteerExperience.company rawVolunteerExperience);
     VolunteerExperience.startDate := startDate;
     VolunteerExperience.endDate := endDate;
     VolunteerExperience.endDateIsPresent :=
       RawVolunteerExperience.endDateIsPresent rawVolunteerExperience;
     VolunteerExperience.durationInDays := getDurationInDays startDate endDate;
     VolunteerExperience.description :=
       getCleanText (RawVolunteerExperience.description rawVolunteerExperience)
  |}.

Definition userProfile (rawUserProfileData : RawProfile.t) : Profile.t :=
  {| Profile.fullName := getCleanText (RawProfile.fullName rawUserProfileData);
     Profile.title := getCleanText (RawProfile.title rawUserProfileData);
     Profile.location :=
       match RawProfile.location rawUserProfileData with
       | Some l => if truthy l then getLocationFromText l else None
       | None => None
       end;
     Profile.photo := RawProfile.photo rawUserProfileData;
     Profile.description :=
       getCleanText (RawProfile.description rawUserProfileData);
     Profile.url := RawProfile.url rawUserProfileData |}.

End WithUtils.

(** What a duration computed between two bounds must be: the difference
    of two resolved bounds in order, [None] for bounds out of order or
    unresolved, and never a negative number. *)
Definition DurationBetween (startBound endBound : option Date)
  (durationInDays : option Z) : Prop :=
  (forall s e, startBound = Some s -> endBound = Some e -> (s <= e)%Z ->
     durationInDays = Some (e - s)%Z)
  /\ (forall s e, startBound = Some s -> endBound = Some e -> (e < s)%Z ->
     durationInDays = None)
  /\ (startBound = None \/ endBound = None -> durationInDays = None)
  /\ (forall d, durationInDays = Some d -> (0 <= d)%Z).

End Normalize.

(** ** Request interception *)

Module Requests.

Import Normalize.

(** What the handler reads of an intercepted request. *)
Record Request : Type := {
  resourceType : jsstring;
  url : jsstring
}.

Inductive Verdict : Type := Abort | Continue.

(** Important: Do not block "stylesheet", makes the crawler not work for
    LinkedIn. *)
Definition blockedResources : list jsstring :=
  [lit "image"; lit "media"; lit "font"; lit "texttrack"; lit "object";
   lit "beacon"; lit "csp_report"; lit "imageset"].

Definition blockedResourcesByHost : list jsstring :=
  [lit "script"; lit "xhr"; lit "fetch"; lit "document"].

(** [Array.prototype.includes] on an array of strings. *)
Definition arrayIncludes (l : list jsstring) (x : jsstring) : bool :=
  existsb (eqb x) l.

(** The object built by [getBlockedHosts]: own properties only, every
    value a boolean. An assignment [o['__proto__'] = true] creates no
    property. *)
Definition assign (o : gmap jsstring bool) (k : jsstring) (v : bool)
  : gmap jsstring bool :=
  if eqb k (lit "__proto__") then o else <[k := v]> o.

(** [o[k] === true] *)
Definition isTrue (o : gmap jsstring bool) (k : jsstring) : bool :=
  match o !! k with
  | Some true => true
  | _ => false
  end.

Definition hardcodedHosts : list jsstring :=
  [lit "static.chartbeat.com"; lit "scdn.cxense.com"; lit "api.cxense.com";
   lit "www.googletagmanager.com"; lit "connect.facebook.net";
   lit "platform.twitter.com"; lit "tags.tiqcdn.com";
   lit "dev.visualwebsiteoptimizer.com"; lit "smartlock.google.com";
   lit "cdn.embedly.com"].

(** [blockedHostsList] is the text exported by [./blocked-hosts]. *)
Definition getBlockedHosts (blockedHostsList : jsstring)
  : gmap jsstring bool :=
  let blockedHostsArray := split newline blockedHostsList in
  let blockedHostsObject :=
    foldl (fun prev curr =>
             let frags := split space curr in
             match frags with
             | frag0 :: frag1 :: _ =>
                 if eqb frag0 (lit "0.0.0.0")
                 then assign prev (trim frag1) true
                 else prev
             | _ => prev
             end)
          ∅ blockedHostsArray in
  foldl (fun o k => <[k := true]> o) blockedHostsObject hardcodedHosts.

Section Handler.
Context `{Utils}.

(** The listener of [page.on('request', ...)]. *)
Definition onRequest (blockedHosts : gmap jsstring bool) (req : Request)
  : Verdict :=
  if arrayIncludes blockedResources (resourceType req) then Abort
  else
    let hostname := getHostname (url req) in
    if arrayIncludes blockedResourcesByHost (resourceType req)
       && truthy hostname && isTrue blockedHosts hostname
    then Abort
    else Continue.

End Handler.

End Requests.

(** ** Skills: the callback of the last [page.$$eval] *)

Module Skills.

(** One entry of the skills section: the [textContent] of the name
    element and of the endorsement-count element, [None] when the
    element is absent. *)
Record SkillNode : Type := {
  skillNameText : option jsstring;
  endorsementCountText : option jsstring
}.

(** The value of a code unit as a digit of the given radix. *)
Definition digitValue (radix : Z) (c : N) : option Z :=
  let v :=
    if (48 <=? c) && (c <=? 57) then Some (Z.of_N c - 48)%Z
    else if (97 <=? c) && (c <=? 122) then Some (Z.of_N c - 87)%Z
    else if (65 <=? c) && (c <=? 90) then Some (Z.of_N c - 55)%Z
    else None in
  match v with
  | Some d => if (d <? radix)%Z then Some d else None
  | None => None
  end.

(** The integer written by the longest prefix of digits, [None] when
    that prefix is empty. *)
Fixpoint digits (radix : Z) (s : jsstring) (read : option Z) : option Z :=
  match s with
  | [] => read
  | c :: s' =>
      match digitValue radix c with
      | Some d => digits radix s' (Some (radix * default 0%Z read + d)%Z)
      | None => read
      end
  end.

(** [parseInt(string)], with no radix given: leading white space, a
    sign, a [0x] prefix, then digits; [None] is [NaN]. The integer is
    kept exact, where JavaScript rounds to a double beyond 2^53. *)
Definition parseInt (string : jsstring) : option Z :=
  let text := trimStart string in
  let sign := match text with
              | c :: _ => if c =? 45 then (-1)%Z else 1%Z
              | [] => 1%Z
              end in
  let text := match text with
              | c :: rest => if (c =? 43) || (c =? 45) then rest else text
              | [] => text
              end in
  let '(radix, text) :=
    match text with
    | c0 :: c1 :: rest =>
        if (c0 =? 48) && ((c1 =? 120) || (c1 =? 88)) then (16%Z, rest)
        else (10%Z, text)
    | _ => (10%Z, text)
    end in
  match digits radix text None with
  | Some mathInt => Some (sign * mathInt)%Z
  | None => None
  end.

(** [skillName ? skillName.textContent?.trim() : null] and
    [endorsementCount ? parseInt(endorsementCount.textContent?.trim()
    || '0') : 0] *)
Definition skill (node : SkillNode) : Skill.t :=
  {| Skill.skillName := trim <$> skillNameText node;
     Skill.endorsementCount :=
       match endorsementCountText node with
       | Some text =>
           parseInt (if JS.truthy (trim text) then trim text else lit "0")
       | None => Some 0%Z
       end |}.

End Skills.

(** ** Scrolling to the bottom of the page *)

Module Scroll.

Local Open Scope Z_scope.

Definition distance : Z := 500.

(** What one run of the interval timer leaves behind: the number of
    ticks that fired and the accumulated [totalHeight]. *)
Record Stopped : Type := {
  ticks : nat;
  totalHeight : Z
}.

(** The callback of [setInterval], iterated. [scrollHeightAt n] is the
    value of [document.body.scrollHeight] read by tick [n] (the first
    tick is tick 0); [fired] ticks have fired so far. The interval is
    cleared by the tick that finds [totalHeight >= scrollHeight]; [fuel]
    bounds the ticks that are followed. *)
Fixpoint timer (scrollHeightAt : nat -> Z) (fuel fired : nat)
  (totalHeight : Z) : option Stopped :=
  match fuel with
  | O => None
  | S fuel' =>
      let scrollHeight := scrollHeightAt fired in
      let totalHeight := totalHeight + distance in
      if totalHeight >=? scrollHeight
      then Some {| ticks := S fired; totalHeight := totalHeight |}
      else timer scrollHeightAt fuel' (S fired) totalHeight
  end.

Definition autoScroll (scrollHeightAt : nat -> Z) (fuel : nat)
  : option Stopped :=
  timer scrollHeightAt fuel 0 0.

(** The test of tick [n]: the height accumulated by then has reached the
    scroll height read by that tick. *)
Definition reached (scrollHeightAt : nat -> Z) (n : nat) : Prop :=
  distance * Z.of_nat (S n) >= scrollHeightAt n.

End Scroll.

(** The profile header, as the selectors of the first [page.evaluate]
    find it. *)
Module Page.

Record ProfileNode : Type := {
  fullNameText : option jsstring;
  titleText : option jsstring;
  locationText : option jsstring;
  photoSrc : option jsstring;
  descriptionText : option jsstring
}.

(** [href] is [window.location.href]. *)
Definition profile (node : ProfileNode) (href : jsstring) : RawProfile.t :=
  {| RawProfile.fullName := orNull (fullNameText node);
     RawProfile.title := orNull (titleText node);
     RawProfile.location := orNull (locationText node);
     RawProfile.photo := orNull (photoSrc node);
     RawProfile.description := orNull (descriptionText node);
     RawProfile.url := href |}.

(** A rendered document, as far as the scraper queries it. *)
Record Document : Type := {
  has : string -> bool;
  count : string -> nat;
  top : ProfileNode;
  experienceNodes : list Extract.ExperienceNode;
  educationNodes : list Extract.EducationNode;
  volunteerNodes : list Extract.VolunteerNode;
  skillNodes : list Skills.SkillNode
}.

End Page.

(** ** The browser and the scraper instance *)

Module Lifecycle.

Import Normalize.

Definition PageId : Type := nat.

(** The handle returned by [puppeteer.launch]; [pid] is
    [browser.process().pid]. *)
Record Browser : Type := {
  pid : option nat
}.

Inductive error : Type :=
| Error (message : string)
| SessionExpired (message : string)
| TypeError (message : string)
| DriverError (code : nat)
| KillFailed (pid : nat).

(** The calls into puppeteer and tree-kill. *)
Inductive Call : Type :=
| launch
| newPage
| pages
| pageClose (page : PageId)
| createCDPSession (page : PageId)
| setBypassCSP (page : PageId)
| sessionSend (page : PageId) (method : string)
| setRequestInterception (page : PageId)
| setUserAgent (page : PageId)
| setViewport (page : PageId)
| setCookie (page : PageId)
| goto (page : PageId) (url : jsstring)
| evaluate (page : PageId) (what : string)
| query (page : PageId) (selector : string)
| click (page : PageId) (selector : string)
| waitFor (page : PageId)
| queryAll (page : PageId) (selector : string)
| clickHandle (page : PageId) (selector : string) (index : nat)
| evalAll (page : PageId) (selector : string)
| browserClose
| treeKill (pid : nat).

(** Everything outside the program. [fault n] is the code of the
    exception thrown by the [n]-th call into the driver, if that call
    fails ([treeKill] hands it to its callback); [landing url] is
    the address a navigation to [url] ends on; [content url] is the
    document shown there; [now] is the reading of [new Date()]. *)
Record World : Type := {
  fault : nat -> option nat;
  spawned : Browser;
  landing : jsstring -> jsstring;
  content : jsstring -> Page.Document;
  now : Date
}.

(** The scraper instance ([browser], [keepAlive]) together with the state
    of the browser it drives. [browser] is the private field
    [this.browser]; [live] tells whether the process behind it runs;
    [trace] lists the driver calls made so far with their success, the
    latest first, and [clock] counts them. [closing] is [Some f] while an
    executor of [close], its promise rejected already, still awaits its
    call of [browser.close()]; [f] is the fault the oracle has for that
    call. *)
Record State : Type := {
  browser : option Browser;
  keepAlive : bool;
  live : bool;
  openPages : list PageId;
  nextPage : PageId;
  urls : gmap PageId jsstring;
  clock : nat;
  trace : list (Call * bool);
  closing : option (option nat)
}.

(** A freshly constructed scraper: no browser, nothing running. *)
Definition constructed (keepAlive : bool) : State :=
  {| browser := None; keepAlive := keepAlive; live := false;
     openPages := []; nextPage := 0%nat; urls := ∅; clock := 0%nat;
     trace := []; closing := None |}.

Definition setBrowser (b : option Browser) (s : State) : State :=
  {| browser := b; keepAlive := keepAlive s; live := live s;
     openPages := openPages s; nextPage := nextPage s; urls := urls s;
     clock := clock s; trace := trace s; closing := closing s |}.

Definition setLive (l : bool) (s : State) : State :=
  {| browser := browser s; keepAlive := keepAlive s; live := l;
     openPages := openPages s; nextPage := nextPage s; urls := urls s;
     clock := clock s; trace := trace s; closing := closing s |}.

Definition setOpenPages (ps : list PageId) (s : State) : State :=
  {| browser := browser s; keepAlive := keepAlive s; live := live s;
     openPages := ps; nextPage := nextPage s; urls := urls s;
     clock := clock s; trace := trace s; closing := closing s |}.

Definition setNextPage (p : PageId) (s : State) : State :=
  {| browser := browser s; keepAlive := keepAlive s; live := live s;
     openPages := openPages s; nextPage := p; urls := urls s;
     clock := clock s; trace := trace s; closing := closing s |}.

Definition setUrls (u : gmap PageId jsstring) (s : State) : State :=
  {| browser := browser s; keepAlive := keepAlive s; live := live s;
     openPages := openPages s; nextPage := nextPage s; urls := u;
     clock := clock s; trace := trace s; closing := closing s |}.

Definition setClosing (f : option (option nat)) (s : State) : State :=
  {| browser := browser s; keepAlive := keepAlive s; live := live s;
     openPages := openPages s; nextPage := nextPage s; urls := urls s;
     clock := clock s; trace := trace s; closing := f |}.

Definition logged (c : Call) (ok : bool) (s : State) : State :=
  {| browser := browser s; keepAlive := keepAlive s; live := live s;
     openPages := openPages s; nextPage := nextPage s; urls := urls s;
     clock := S (clock s); trace := (c, ok) :: trace s;
     closing := closing s |}.

Definition closePage (p : PageId) (ps : list PageId) : list PageId :=
  List.filter (fun q => negb (Nat.eqb q p)) ps.

(** What a driver call that succeeds does to the browser. A launched
    browser shows one blank page; a closed or killed one shows none. *)
Definition effect (w : World) (c : Call) (s : State) : State :=
  match c with
  | launch =>
      setNextPage (S (nextPage s))
        (setOpenPages [nextPage s] (setLive true s))
  | newPage =>
      setNextPage (S (nextPage s))
        (setOpenPages (openPages s ++ [nextPage s]) s)
  | pageClose p => setOpenPages (closePage p (openPages s)) s
  | goto p url => setUrls (<[p := landing w url]> (urls s)) s
  | browserClose => setOpenPages [] (setLive false s)
  | treeKill _ => setLive false s
  | _ => s
  end.

(** *** The monad of asynchronous methods: state and exceptions *)

Inductive Outcome (A : Type) : Type :=
| Ok (a : A)
| Throw (e : error).
Arguments Ok {A} a.
Arguments Throw {A} e.

Definition M (A : Type) : Type := State -> Outcome A * State.

Definition ret {A} (a : A) : M A := fun s => (Ok a, s).

Definition throw {A} (e : error) : M A := fun s => (Throw e, s).

Definition bind {A B} (m : M A) (k : A -> M B) : M B :=
  fun s =>
    match m s with
    | (Ok a, s') => k a s'
    | (Throw e, s') => (Throw e, s')
    end.

(** [try { m } catch (err) { handler err }] *)
Definition tryCatch {A} (m : M A) (handler : error -> M A) : M A :=
  fun s =>
    match m s with
    | (Ok a, s') => (Ok a, s')
    | (Throw e, s') => handler e s'
    end.

Definition gets {A} (f : State -> A) : M A := fun s => (Ok (f s), s).

Definition modify (f : State -> State) : M unit := fun s => (Ok tt, f s).

Declare Scope async_scope.
Delimit Scope async_scope with async.
Bind Scope async_scope with M.
Notation "x <- m ;; k" := (bind m (fun x => k))
  (at level 100, m at next level, right associativity) : async_scope.
Notation "m ;; k" := (bind m (fun _ => k))
  (at level 100, right associativity) : async_scope.
Local Open Scope async_scope.

(** [for (const x of l) { body x }] *)
Fixpoint forEach {A} (l : list A) (body : A -> M unit) : M unit :=
  match l with
  | [] => ret tt
  | x :: l' => body x ;; forEach l' body
  end.

Section Methods.
Context `{Runtime} `{Utils} (w : World).

(** One driver call that nothing waits for: it is logged, and has its
    effect unless the oracle has it fail. *)
Definition direct (c : Call) : M unit :=
  fun s =>
    match fault w (clock s) with
    | Some code => (Throw (DriverError code), logged c false s)
    | None => (Ok tt, effect w c (logged c true s))
    end.

(** The rest of an executor of [close] that was left awaiting
    [this.browser.close()] with its promise rejected: when the call
    returns, [treeKill] is called if the process has a pid. Whatever the
    executor and the callback of [treeKill] then hand to [resolve] or
    [reject] is lost, the promise being settled. *)
Definition resume (s : State) : State :=
  match closing s with
  | Some None =>
      let s1 := effect w browserClose (setClosing None s) in
      match browser s1 with
      | Some b =>
          match pid b with
          | Some (S n) => snd (direct (treeKill (S n)) s1)
          | _ => s1
          end
      | None => s1
      end
  | Some (Some _) => setClosing None s
  | None => s
  end.

(** A driver call is made and awaited: it enters the log, and an
    executor left in the background has its turn while the caller
    waits. *)
Definition issued (c : Call) (ok : bool) (s : State) : State :=
  resume (logged c ok s).

(** [await] of one driver call: it throws when the oracle says so, and
    otherwise has its effect. Either way the call is logged. *)
Definition call (c : Call) : M unit :=
  fun s =>
    match fault w (clock s) with
    | Some code => (Throw (DriverError code), issued c false s)
    | None => (Ok tt, effect w c (issued c true s))
    end.

(** [browser.newPage()] *)
Definition openPage : M PageId :=
  page <- gets nextPage ;;
  call newPage ;;
  ret page.

(** [browser.pages()] *)
Definition listPages : M (list PageId) :=
  call pages ;;
  gets openPages.

(** [page.url()] *)
Definition pageUrl (page : PageId) : M jsstring :=
  gets (fun s => default (lit "about:blank") (urls s !! page)).

(** A promise settles on the first call of [resolve] or [reject]; the
    later calls do nothing. *)
Definition settle (r : Outcome unit) (promise : option (Outcome unit))
  : option (Outcome unit) :=
  match promise with
  | Some _ => promise
  | None => Some r
  end.

(** [if (page) { try { await page.close() } catch (err) { reject(err) } }] *)
Definition closeGivenPage (page : option PageId)
  : State -> option (Outcome unit) * State :=
  fun s =>
    match page with
    | Some p =>
        match call (pageClose p) s with
        | (Ok _, s') => (None, s')
        | (Throw err, s') => (settle (Throw err) None, s')
        end
    | None => (None, s)
    end.

(** [if (this.browser) { try { await this.browser.close(); ...
    treeKill(pid, 'SIGKILL', callback) } catch (err) { reject(err) } }],
    with the caller still waiting for the promise. Besides the promise
    and the state, the result carries the argument the callback of
    [treeKill] will receive, when [treeKill] was called; the call of
    [treeKill] itself is not awaited. *)
Definition closeBrowser (promise : option (Outcome unit))
  : State -> option (Outcome unit) * option (nat * Outcome unit) * State :=
  fun s =>
    match browser s with
    | Some b =>
        match call browserClose s with
        | (Ok _, s') =>
            match pid b with
            | Some (S n) =>
                let '(killed, s'') := direct (treeKill (S n)) s' in
                (promise, Some (S n, killed), s'')
            | _ => (promise, None, s')
            end
        | (Throw err, s') => (settle (Throw err) promise, None, s')
        end
    | None => (promise, None, s)
    end.

(** The same block entered with the promise rejected: the executor makes
    its call of [this.browser.close()] and stops at the [await], at
    which point the caller, whose promise is settled, is resumed. The
    call is in the log; what follows the [await] is left to [resume]. *)
Definition closeBrowserBehind (s : State) : State :=
  match browser s with
  | Some _ =>
      let f := fault w (clock s) in
      setClosing (Some f)
        (logged browserClose (match f with None => true | Some _ => false end)
           s)
  | None => s
  end.

(** The callback handed to [treeKill]: it runs on a later turn of the
    event loop, after the executor has returned. *)
Definition killCallback (callback : option (nat * Outcome unit))
  (promise : option (Outcome unit)) : option (Outcome unit) :=
  match callback with
  | Some (browserProcessPid, Throw _) =>
      settle (Throw (KillFailed browserProcessPid)) promise
  | Some (_, Ok _) => settle (Ok tt) promise
  | None => promise
  end.

(** [close(page?)]. The caller that awaits the promise is resumed once
    the promise is settled and the executor has stopped, at an [await]
    or at its end. When [page.close()] throws, the promise is rejected
    on the spot and the executor stops next at
    [await this.browser.close()]: the caller goes on from there. In every
    other case the executor runs to its end, [return resolve()], before
    the promise is settled or right after, and the callback of [treeKill]
    comes later. *)
Definition close (page : option PageId) : M unit :=
  fun s =>
    let '(promise, s1) := closeGivenPage page s in
    match promise with
    | Some rejection => (rejection, closeBrowserBehind s1)
    | None =>
        let '(promise, callback, s2) := closeBrowser promise s1 in
        let promise := settle (Ok tt) promise in
        let promise := killCallback callback promise in
        (default (Ok tt) promise, s2)
    end.

(** [createPage] *)
Definition configurePage : M PageId :=
  page <- openPage ;;
  allPages <- listPages ;;
  match allPages with
  | firstPage :: _ => call (pageClose firstPage)
  | [] => throw (TypeError "Cannot read property 'close' of undefined")
  end ;;
  call (createCDPSession page) ;;
  call (setBypassCSP page) ;;
  call (sessionSend page "Page.enable") ;;
  call (sessionSend page "Page.setWebLifecycleState") ;;
  call (setRequestInterception page) ;;
  call (setUserAgent page) ;;
  call (setViewport page) ;;
  call (setCookie page) ;;
  ret page.

Definition createPage : M PageId :=
  b <- gets browser ;;
  match b with
  | None => throw (Error "Browser not set.")
  | Some _ =>
      tryCatch configurePage (fun err => close None ;; throw err)
  end.

Definition loginUrl : jsstring := lit "https://www.linkedin.com/login".

Definition notLoggedIn : string :=
  "Bad news, we are not logged in! Your session seems to be expired. Use your browser to login again with your LinkedIn credentials and extract the "
  ++ doubleQuote ++ "li_at" ++ doubleQuote ++ " cookie value for the "
  ++ doubleQuote ++ "sessionCookieValue" ++ doubleQuote ++ " option.".

(** [checkIfLoggedIn] *)
Definition checkIfLoggedIn : M unit :=
  page <- createPage ;;
  call (goto page loginUrl) ;;
  url <- pageUrl page ;;
  let isLoggedIn := negb (endsWith url (lit "/login")) in
  call (pageClose page) ;;
  if isLoggedIn then ret tt else throw (SessionExpired notLoggedIn).

(** [setup] *)
Definition setup : M unit :=
  tryCatch
    (call launch ;;
     modify (setBrowser (Some (spawned w))) ;;
     checkIfLoggedIn)
    (fun err => close None ;; throw err).

(** The result of one run. *)
Record Output : Type := {
  userProfile : Profile.t;
  experiences : list Experience.t;
  education : list Education.t;
  volunteerExperiences : list VolunteerExperience.t;
  skills : list Skill.t
}.

(** The selectors are keys of [Page.has] and [Page.count]. *)
Definition expandButtonsSelectors : list string :=
  [".pv-profile-section.pv-about-section .lt-line-clamp__more";
   "#experience-section .pv-profile-section__see-more-inline.link";
   ".pv-profile-section.education-section button.pv-profile-section__see-more-inline";
   ".pv-skill-categories-section [data-control-name=" ++ doubleQuote
   ++ "skill_details" ++ doubleQuote ++ "]"]%string.

Definition seeMoreButtonsSelectors : list string :=
  [".pv-entity__description .lt-line-clamp__line.lt-line-clamp__line--last .lt-line-clamp__more[href="
   ++ doubleQuote ++ "#" ++ doubleQuote ++ "]";
   ".lt-line-clamp__more[href=" ++ doubleQuote ++ "#" ++ doubleQuote
   ++ "]:not(.lt-line-clamp__ellipsis--dummy)"]%string.

(** The document the page shows, at the address it is on. *)
Definition document (page : PageId) : M Page.Document :=
  url <- pageUrl page ;;
  ret (content w url).

(** [await page.$(selector) !== null] *)
Definition found (page : PageId) (selector : string) : M bool :=
  call (query page selector) ;;
  doc <- document page ;;
  ret (Page.has doc selector).

(** The first loop of [run]: one click per section button that exists;
    a failure is logged and skipped. *)
Definition expandSections (page : PageId) : M unit :=
  forEach expandButtonsSelectors (fun buttonSelector =>
    tryCatch
      (present <- found page buttonSelector ;;
       if present then call (click page buttonSelector) else ret tt)
      (fun _ => ret tt)).

(** The second loop: every match of [page.$$] is clicked; only the
    clicks are guarded. *)
Definition expandDescriptions (page : PageId) : M unit :=
  forEach seeMoreButtonsSelectors (fun seeMoreButtonSelector =>
    call (queryAll page seeMoreButtonSelector) ;;
    doc <- document page ;;
    forEach (seq 0 (Page.count doc seeMoreButtonSelector)) (fun button =>
      tryCatch
        (call (clickHandle page seeMoreButtonSelector button))
        (fun _ => ret tt))).

(** The five queries and the normalization of what they return. *)
Definition scrape (page : PageId) : M Output :=
  call (evaluate page "profile") ;;
  doc <- document page ;;
  href <- pageUrl page ;;
  let rawUserProfileData := Page.profile (Page.top doc) href in
  let userProfile := Normalize.userProfile rawUserProfileData in
  call (evalAll page "#experience-section ul > .ember-view") ;;
  doc <- document page ;;
  let rawExperiencesData :=
    List.map Extract.experience (Page.experienceNodes doc) in
  let experiences :=
    List.map (Normalize.experience (now w)) rawExperiencesData in
  call (evalAll page "#education-section ul > .ember-view") ;;
  doc <- document page ;;
  let rawEducationData :=
    List.map Extract.education (Page.educationNodes doc) in
  let education := List.map Normalize.education rawEducationData in
  call (evalAll page ".pv-profile-section.volunteering-section ul > li.ember-view") ;;
  doc <- document page ;;
  let rawVolunteerExperiences :=
    List.map Extract.volunteerExperience (Page.volunteerNodes doc) in
  let volunteerExperiences :=
    List.map Normalize.volunteerExperience rawVolunteerExperiences in
  call (evalAll page ".pv-skill-categories-section ol > .ember-view") ;;
  doc <- document page ;;
  let skills := List.map Skills.skill (Page.skillNodes doc) in
  ret {| userProfile := userProfile;
         experiences := experiences;
         education := education;
         volunteerExperiences := volunteerExperiences;
         skills := skills |}.

(** [if (!this.options.keepAlive) { await this.close(page) }
    else { await page.close() }] *)
Definition finish (page : PageId) : M unit :=
  keep <- gets keepAlive ;;
  if negb keep then close (Some page) else call (pageClose page).

(** From the navigation to the last query. The call
    [evaluate page "autoScroll"] settles when the timer of
    [Scroll.autoScroll] stops. *)
Definition visit (page : PageId) (profileUrl : jsstring) : M Output :=
  call (goto page profileUrl) ;;
  call (evaluate page "autoScroll") ;;
  expandSections page ;;
  call (waitFor page) ;;
  expandDescriptions page ;;
  scrape page.

(** The [try] block of [run]. *)
Definition pipeline (profileUrl : jsstring) : M Output :=
  page <- createPage ;;
  output <- visit page profileUrl ;;
  finish page ;;
  ret output.

Definition browserIsNotSet : error :=
  Error "Browser is not set. Please run the setup method first.".
Definition noProfileUrl : error := Error "No profileUrl given.".
Definition notLinkedIn : error :=
  Error "The given URL to scrape is not a linkedin.com url.".

(** [run] *)
Definition run (profileUrl : jsstring) : M Output :=
  b <- gets browser ;;
  match b with
  | None => throw browserIsNotSet
  | Some _ =>
      if negb (truthy profileUrl) then throw noProfileUrl
      else if negb (includes profileUrl (lit "linkedin.com/"))
      then throw notLinkedIn
      else tryCatch (pipeline profileUrl)
                    (fun err => close None ;; throw err)
  end.

End Methods.

(** *** Relations between the state before and after a method *)

(** A method keeps [R] when [R] relates the state it starts from to the
    state it leaves, however it ends. *)
Definition preserves {A} (R : State -> State -> Prop) (m : M A) : Prop :=
  forall s, R s (snd (m s)).

(** The fields of the instance, which only [setup] assigns. *)
Definition sameInstance (s s' : State) : Prop :=
  browser s' = browser s /\ keepAlive s' = keepAlive s.

(** The log only grows, and the clock with it. *)
Definition later (s s' : State) : Prop :=
  (exists t, trace s' = t ++ trace s) /\ (clock s <= clock s')%nat.

(** With no [close] left running in the background, none is left
    running afterwards and the browser process is as it was. *)
Definition sameProcess (s s' : State) : Prop :=
  closing s = None -> closing s' = None /\ live s' = live s.

(** An entry of the log that is a call of [treeKill]. *)
Definition isTreeKill (ev : Call * bool) : Prop :=
  match fst ev with treeKill _ => True | _ => False end.

(** A call that neither starts nor ends the browser process. *)
Definition pageLevel (c : Call) : Prop :=
  match c with
  | launch | browserClose | treeKill _ => False
  | _ => True
  end.

(** The first driver call a method makes from [s] is [c]: the log it
    leaves is the log of [s], then [c], then what followed. *)
Definition opensWith {A} (c : Call) (m : M A) (s : State) : Prop :=
  exists ok t, trace (snd (m s)) = t ++ (c, ok) :: trace s.

(** No driver call fails from the state [s] on. *)
Definition calmFrom (w : World) (s : State) : Prop :=
  forall n, (clock s <= n)%nat -> fault w n = None.

(** A method that returns whenever the driver does not fail. *)
Definition succeeds {A} (w : World) (m : M A) : Prop :=
  forall s, calmFrom w s -> exists a s', m s = (Ok a, s').

End Lifecycle.

(** ** The constructor *)

Module Construct.

Import Lifecycle.

(** The values a caller can put in the options object. Numbers are the
    integers and [NaN]; a fraction behaves in every test below as a
    non-zero integer does. *)
Inductive value : Type :=
| VUndefined
| VNull
| VBool (b : bool)
| VNumber (n : Z)
| VNaN
| VString (s : jsstring)
| VObject.

Definition typeof (v : value) : string :=
  match v with
  | VUndefined => "undefined"
  | VNull | VObject => "object"
  | VBool _ => "boolean"
  | VNumber _ | VNaN => "number"
  | VString _ => "string"
  end.

Definition truthy (v : value) : bool :=
  match v with
  | VUndefined | VNull | VNaN => false
  | VBool b => b
  | VNumber n => negb (n =? 0)%Z
  | VString s => JS.truthy s
  | VObject => true
  end.

(** [v !== undefined] *)
Definition defined (v : value) : bool :=
  match v with VUndefined => false | _ => true end.

(** An options object, by its own properties; reading a property it
    does not have gives [undefined]. *)
Definition get (o : gmap jsstring value) (k : string) : value :=
  default VUndefined (o !! lit k).

(** The initial value of the field [options]. *)
Definition defaults : gmap jsstring value :=
  <[lit "sessionCookieValue" := VString []]>
  (<[lit "keepAlive" := VBool false]>
  (<[lit "timeout" := VNumber 10000]>
  (<[lit "userAgent" := VString (lit
      "Mozilla/5.0 (Windows NT 10.0; Win64; x64) AppleWebKit/537.36 (KHTML, like Gecko) Chrome/69.0.3497.100 Safari/537.36")]>
  (<[lit "headless" := VBool true]> ∅)))).

(** The messages, the name of the option between double quotes. *)
Definition quoted (option : string) : string :=
  doubleQuote ++ option ++ doubleQuote.
Definition required : error :=
  Error ("Error during setup. Option " ++ quoted "sessionCookieValue"
         ++ " is required.").
Definition needsString (option : string) : error :=
  Error ("Error during setup. Option " ++ quoted option
         ++ " needs to be a string.").
Definition needsBoolean (option : string) : error :=
  Error ("Error during setup. Option " ++ quoted option
         ++ " needs to be a boolean.").
Definition needsNumber (option : string) : error :=
  Error ("Error during setup. Option " ++ quoted option
         ++ " needs to be a number.").

(** [typeof v !== t] *)
Definition isNot (t : string) (v : value) : bool :=
  negb (String.eqb (typeof v) t).

(** [constructor(userDefinedOptions)]: the five checks in their order,
    then [Object.assign(this.options, userDefinedOptions)], which copies
    every own property of the argument over the defaults. The result is
    the field [options] of the new instance. *)
Definition construct (userDefinedOptions : gmap jsstring value)
  : error + gmap jsstring value :=
  if negb (truthy (get userDefinedOptions "sessionCookieValue"))
  then inl required
  else if truthy (get userDefinedOptions "sessionCookieValue")
          && isNot "string" (get userDefinedOptions "sessionCookieValue")
  then inl (needsString "sessionCookieValue")
  else if truthy (get userDefinedOptions "userAgent")
          && isNot "string" (get userDefinedOptions "userAgent")
  then inl (needsString "userAgent")
  else if defined (get userDefinedOptions "keepAlive")
          && isNot "boolean" (get userDefinedOptions "keepAlive")
  then inl (needsBoolean "keepAlive")
  else if defined (get userDefinedOptions "timeout")
          && isNot "number" (get userDefinedOptions "timeout")
  then inl (needsNumber "timeout")
  else if defined (get userDefinedOptions "headless")
          && isNot "boolean" (get userDefinedOptions "headless")
  then inl (needsBoolean "headless")
  else inr (userDefinedOptions ∪ defaults).

(** The new instance: [browser] is [null], and [run] tests
    [!this.options.keepAlive]. *)
Definition instance (options : gmap jsstring value) : State :=
  constructed (truthy (get options "keepAlive")).

End Construct.

(** ** What a run leaves to observe *)

Module Observe.

Import Lifecycle.

(** A decimal digit, ['0'] to ['9']. *)
Definition isDigit (c : N) : bool := (48 <=? c) && (c <=? 57).

(** The number a string of decimal digits writes. *)
Definition decimal (ds : jsstring) : Z :=
  fold_left (fun n c => (10 * n + (Z.of_N c - 48))%Z) ds 0%Z.

(** The selectors handed to [page.$], in the order of the calls, in a
    log (which is kept latest first). *)
Definition selectorsQueried (t : list (Call * bool)) : list string :=
  flat_map (fun ev => match fst ev with
                      | query _ selector => [selector]
                      | _ => []
                      end) (rev t).

(** An entry of the log that is no call of [page.$]. *)
Definition notQuery (ev : Call * bool) : Prop :=
  match fst ev with query _ _ => False | _ => True end.

(** The pages are where they were. *)
Definition sameAddresses (s s' : State) : Prop := urls s' = urls s.

(** The address a page is on, as [page.url()] gives it. *)
Definition addressOf (page : PageId) (s : State) : jsstring :=
  default (lit "about:blank") (urls s !! page).

(** A call that is not a navigation. *)
Definition staysPut (c : Call) : Prop :=
  match c with goto _ _ => False | _ => True end.

(** The state after the given driver calls, made one after the other,
    have all succeeded. *)
Definition played (w : World) (calls : list Call) (s : State) : State :=
  fold_left (fun st c => effect w c (logged c true st)) calls s.

(** The page [pages()[0]] in a browser whose open pages are [ps]. *)
Definition firstOf (ps : list PageId) : option PageId := hd_error ps.

(** The driver calls of a [createPage] that returns [page], having
    closed [firstPage]. *)
Definition configureCalls (firstPage page : PageId) : list Call :=
  [newPage; pages; pageClose firstPage; createCDPSession page;
   setBypassCSP page; sessionSend page "Page.enable";
   sessionSend page "Page.setWebLifecycleState";
   setRequestInterception page; setUserAgent page; setViewport page;
   setCookie page].

(** The first [n] driver calls made from the state [s] do not fail. *)
Definition calmFor (w : World) (n : nat) (s : State) : Prop :=
  forall i, (i < n)%nat -> fault w (clock s + i) = None.

(** The driver calls of a [checkIfLoggedIn] that returns, once its page
    is there. *)
Definition verifyCalls (page : PageId) : list Call :=
  [goto page loginUrl; pageClose page].

(** The state a [setup] that returns leaves: the launch, the handle, the
    page of [createPage] (which closes the blank page of the launch),
    the navigation and the closing of the page. *)
Definition afterSetup (w : World) (s : State) : State :=
  let s1 := setBrowser (Some (spawned w)) (played w [launch] s) in
  played w (verifyCalls (nextPage s1))
    (played w (configureCalls (nextPage s) (nextPage s1)) s1).

Section Output.
Context `{Runtime} `{Normalize.Utils} (w : World).

(** What [run] reads off the document shown at the address [href]. *)
Definition outputOf (href : jsstring) : Output :=
  let doc := content w href in
  {| userProfile := Normalize.userProfile (Page.profile (Page.top doc) href);
     experiences :=
       List.map (Normalize.experience (now w))
         (List.map Extract.experience (Page.experienceNodes doc));
     education :=
       List.map Normalize.education
         (List.map Extract.education (Page.educationNodes doc));
     volunteerExperiences :=
       List.map Normalize.volunteerExperience
         (List.map Extract.volunteerExperience (Page.volunteerNodes doc));
     skills := List.map Skills.skill (Page.skillNodes doc) |}.

End Output.

End Observe.

(** ** Sample inputs *)

Module Samples.

Import Extract.

(** An experience entry whose date range is the single date
    ["Jan 2018"], with no en dash. *)
Definition singleDate : ExperienceNode :=
  {| titleText := Some (lit "Engineer");
     employmentTypeText := None;
     companyText := Some (lit "Acme");
     descriptionText := None;
     dateRangeText := Some (lit "Jan 2018");
     locationText := None |}.

(** A document of height 700 that grows as it is scrolled: each of the
    first three ticks reads 700 more than the one before, the later ones
    read 2200. *)
Definition growing (tick : nat) : Z :=
  if (tick <? 3)%nat then (700 * Z.of_nat (S tick))%Z else 2200%Z.

(** Helpers that leave the text as it is and resolve no date. *)
#[export] Instance plainUtils : Normalize.Utils := {|
  Normalize.getCleanText := fun text => text;
  Normalize.getLocationFromText := fun _ => None;
  Normalize.formatDate := fun _ => None;
  Normalize.getHostname := fun url => url
|}.

(** The host part of an address: what stands between ["//"] and the
    next slash, and the empty string when the address has no ["//"], as
    a [data:] address has none. *)
Fixpoint afterSlashes (url : jsstring) : option jsstring :=
  match url with
  | a :: url' =>
      match url' with
      | b :: rest =>
          if (a =? 47) && (b =? 47) then Some rest else afterSlashes url'
      | [] => None
      end
  | [] => None
  end.

Fixpoint upToSlash (s : jsstring) : jsstring :=
  match s with
  | c :: s' => if c =? 47 then [] else c :: upToSlash s'
  | [] => []
  end.

Definition hostOf (url : jsstring) : jsstring :=
  match afterSlashes url with
  | Some rest => upToSlash rest
  | None => []
  end.

(** Helpers that read the host of an address and the one date text
    ["Jan 2018"], whose first day is day 17532 of the epoch; no other
    text is a date to them. *)
Definition readingUtils : Normalize.Utils := {|
  Normalize.getCleanText := fun text => text;
  Normalize.getLocationFromText := fun _ => None;
  Normalize.formatDate := fun text =>
    match text with
    | Some t => if eqb t (lit "Jan 2018") then Some 17532%Z else None
    | None => None
    end;
  Normalize.getHostname := hostOf
|}.

(** A volunteering entry that began in January 2018 and goes on. *)
Definition volunteering : VolunteerNode :=
  {| vTitleText := Some (lit "Mentor");
     vCompanyText := Some (lit "Code Club");
     vDateRangeText := Some (lit "Jan 2018 " ++ [enDash] ++ lit " Present");
     vDescriptionText := None |}.

(** A list of blocked hosts with one line, its two columns set apart by
    two spaces. *)
Definition alignedHosts : jsstring := lit "0.0.0.0  ads.example".

(** The request for a script given inline, in a [data:] address. *)
Definition inlineScript : Requests.Request :=
  {| Requests.resourceType := lit "script";
     Requests.url := lit "data:text/javascript,void(0)" |}.

Definition feed : jsstring := lit "https://www.linkedin.com/feed/".

Definition profileUrl : jsstring := lit "https://www.linkedin.com/in/someone/".

(** A profile page with the one experience [singleDate], one skill with
    more than 99 endorsements, every section button present and one "see
    more" link per selector. *)
Definition profilePage : Page.Document :=
  {| Page.has := fun _ => true;
     Page.count := fun _ => 1%nat;
     Page.top :=
       {| Page.fullNameText := Some (lit "Some One");
          Page.titleText := None;
          Page.locationText := None;
          Page.photoSrc := None;
          Page.descriptionText := None |};
     Page.experienceNodes := [singleDate];
     Page.educationNodes := [];
     Page.volunteerNodes := [];
     Page.skillNodes :=
       [{| Skills.skillNameText := Some (lit " TypeScript ");
           Skills.endorsementCountText := Some (lit "99+") |}] |}.

(** The [n]-th driver call fails with code [code] for every [(n, code)]
    of [faults]; every other call succeeds. *)
Definition failingAt (faults : list (nat * nat)) (n : nat) : option nat :=
  snd <$> List.find (fun f => Nat.eqb (fst f) n) faults.

(** A world with a valid session: the login address redirects to the
    feed. The browser process has pid 4242. *)
Definition loggedIn (faults : list (nat * nat)) : Lifecycle.World :=
  {| Lifecycle.fault := failingAt faults;
     Lifecycle.spawned := {| Lifecycle.pid := Some 4242%nat |};
     Lifecycle.landing :=
       fun url => if eqb url Lifecycle.loginUrl then feed else url;
     Lifecycle.content := fun _ => profilePage;
     Lifecycle.now := 19000%Z |}.

(** A world with an expired session: the login address stays. *)
Definition loggedOut (faults : list (nat * nat)) : Lifecycle.World :=
  {| Lifecycle.fault := failingAt faults;
     Lifecycle.spawned := {| Lifecycle.pid := Some 4242%nat |};
     Lifecycle.landing := fun url => url;
     Lifecycle.content := fun _ => profilePage;
     Lifecycle.now := 19000%Z |}.

(** The scraper right after a successful [puppeteer.launch]: the handle
    is stored, the process runs and shows its blank page. *)
Definition launched (keepAlive : bool) : Lifecycle.State :=
  {| Lifecycle.browser := Some {| Lifecycle.pid := Some 4242%nat |};
     Lifecycle.keepAlive := keepAlive;
     Lifecycle.live := true;
     Lifecycle.openPages := [0%nat];
     Lifecycle.nextPage := 1%nat;
     Lifecycle.urls := ∅;
     Lifecycle.clock := 1%nat;
     Lifecycle.trace := [(Lifecycle.launch, true)];
     Lifecycle.closing := None |}.

(** The scraper after a successful [setup] on a fresh instance: fourteen
    driver calls were made, the handle is stored, the process runs, and
    the verification page, which ended on the feed, is closed again. *)
Definition ready (keepAlive : bool) : Lifecycle.State :=
  {| Lifecycle.browser := Some {| Lifecycle.pid := Some 4242%nat |};
     Lifecycle.keepAlive := keepAlive;
     Lifecycle.live := true;
     Lifecycle.openPages := [];
     Lifecycle.nextPage := 2%nat;
     Lifecycle.urls := <[1%nat := feed]> ∅;
     Lifecycle.clock := 14%nat;
     Lifecycle.trace :=
       [(Lifecycle.pageClose 1%nat, true);
        (Lifecycle.goto 1%nat Lifecycle.loginUrl, true);
        (Lifecycle.setCookie 1%nat, true); (Lifecycle.setViewport 1%nat, true);
        (Lifecycle.setUserAgent 1%nat, true);
        (Lifecycle.setRequestInterception 1%nat, true);
        (Lifecycle.sessionSend 1%nat "Page.setWebLifecycleState", true);
        (Lifecycle.sessionSend 1%nat "Page.enable", true);
        (Lifecycle.setBypassCSP 1%nat, true);
        (Lifecycle.createCDPSession 1%nat, true);
        (Lifecycle.pageClose 0%nat, true); (Lifecycle.pages, true);
        (Lifecycle.newPage, true); (Lifecycle.launch, true)];
     Lifecycle.closing := None |}.

End Samples.

(** ** More sample inputs *)

Module Fixtures.

(** The options of a caller who gives a cookie and asks for the session
    to be kept alive. *)
Definition keepAliveOptions : gmap jsstring Construct.value :=
  <[lit "sessionCookieValue" := Construct.VString (lit "AQEDAT")]>
  (<[lit "keepAlive" := Construct.VBool true]> ∅).

(** A list of three lines: a comment, a blocked host and a host that is
    not blocked. *)
Definition hostsList : jsstring :=
  lit "# trackers" ++ [newline] ++ lit "0.0.0.0 tracker.example"
  ++ [newline] ++ lit "127.0.0.1 localhost".

(** A document that grows by more than one step with every tick. *)
Definition endless (tick : nat) : Z := (600 * Z.of_nat (S tick))%Z.

End Fixtures.

(** * Properties *)

(** ** Strings *)

Module JSFacts.

Lemma eqb_eq (s t : jsstring) : eqb s t = true <-> s = t.
Proof.
  revert t; induction s as [|a s IH]; intros [|b t]; simpl; try easy.
  rewrite andb_true_iff, N.eqb_eq, IH.
  split; [intros [-> ->]; reflexivity | intros [= -> ->]; auto].
Qed.

Lemma eqb_refl (s : jsstring) : eqb s s = true.
Proof. apply eqb_eq; reflexivity. Qed.

Lemma eqb_neq (s t : jsstring) : eqb s t = false <-> s <> t.
Proof.
  rewrite <- eqb_eq. destruct (eqb s t); split; congruence.
Qed.

Lemma startsWith_prefix (s p : jsstring) :
  startsWith s p = true <-> exists r, s = p ++ r.
Proof.
  revert s; induction p as [|a p IH]; intros s; simpl.
  - split; [intros _; exists s; reflexivity | reflexivity].
  - destruct s as [|b s].
    + split; [discriminate | intros [r Hr]; discriminate].
    + rewrite andb_true_iff, N.eqb_eq, IH. split.
      * intros [-> [r ->]]; exists r; reflexivity.
      * intros [r [= -> ->]]; split; [reflexivity | exists r; reflexivity].
Qed.

(** [includes] decides the substring relation. *)
Lemma includes_substring (s p : jsstring) :
  includes s p = true <-> exists a b, s = a ++ p ++ b.
Proof.
  induction s as [|c s IH]; simpl.
  - rewrite orb_false_r, startsWith_prefix. split.
    + intros [r Hr]; exists [], r; exact Hr.
    + intros [a [b Hab]]. destruct a; [exists b; exact Hab | discriminate].
  - rewrite orb_true_iff, startsWith_prefix, IH. split.
    + intros [[r Hr] | [a [b Hab]]].
      * exists [], r; exact Hr.
      * exists (c :: a), b; simpl; rewrite Hab; reflexivity.
    + intros [[|c' a] [b Hab]].
      * left; exists b; exact Hab.
      * right; injection Hab as -> ->; exists a, b; reflexivity.
Qed.

Lemma endsWith_suffix (s p : jsstring) :
  endsWith s p = true <-> exists a, s = a ++ p.
Proof.
  unfold endsWith. rewrite startsWith_prefix. split.
  - intros [r Hr]. exists (rev r).
    rewrite <- (rev_involutive s), Hr, rev_app_distr, rev_involutive.
    reflexivity.
  - intros [a ->]. exists (rev a). apply rev_app_distr.
Qed.

Lemma orNull_Some (x : option jsstring) (s : jsstring) :
  orNull x = Some s <-> x = Some s /\ s <> [].
Proof.
  destruct x as [[|c t]|]; simpl; split;
    try discriminate; try (intros [? ?]; congruence).
  intros [= <-]; split; [reflexivity | discriminate].
Qed.

Lemma orNull_idem (x : option jsstring) : orNull (orNull x) = orNull x.
Proof. destruct x as [[|c t]|]; reflexivity. Qed.

(** A text without the separator splits into itself alone. *)
Lemma split_no_separator (sep : N) (s : jsstring) :
  ~ In sep s -> split sep s = [s].
Proof.
  induction s as [|c s IH]; simpl; intros Hn; [reflexivity|].
  destruct (N.eqb_spec c sep) as [->|_]; [tauto|].
  rewrite IH by tauto. reflexivity.
Qed.

Lemma split_nonempty (sep : N) (s : jsstring) : split sep s <> [].
Proof.
  destruct s as [|c s]; simpl; [discriminate|].
  destruct (c =? sep); [discriminate|].
  destruct (split sep s); discriminate.
Qed.

Lemma isAscii_lit (s : string) :
  forallb (fun c => c <? 128) (lit s) = true -> isAscii (lit s).
Proof.
  unfold isAscii. intros Hall.
  apply List.Forall_forall. intros c Hc.
  rewrite forallb_forall in Hall. apply N.ltb_lt, Hall, Hc.
Qed.

Lemma lower_Present `{Runtime} : toLowerCase (lit "Present") = lit "present".
Proof.
  rewrite toLowerCase_ascii; [reflexivity|].
  apply isAscii_lit; reflexivity.
Qed.

End JSFacts.

(** ** The date-range split *)

Module ExtractFacts.

Import JSFacts Extract.

Section WithRuntime.
Context `{Runtime}.

Lemma flag_present (text : option jsstring) :
  endDateIsPresent text = true <->
  exists p, endDatePart text = Some p /\ toLowerCase (trim p) = lit "present".
Proof.
  unfold endDateIsPresent.
  destruct (endDatePart text) as [p|]; simpl.
  - rewrite orb_false_r, eqb_eq. split.
    + intros Hp; exists p; auto.
    + intros [q [[= <-] Hq]]; exact Hq.
  - split; [discriminate | intros [p [Hp _]]; discriminate].
Qed.

Lemma endDate_of_flag (text : option jsstring) :
  endDateIsPresent text = true -> endDate text = lit "Present".
Proof.
  intros Hflag. unfold endDate.
  destruct (endDatePart text) as [p|]; [|reflexivity].
  rewrite Hflag, andb_false_r. reflexivity.
Qed.

Lemma endDate_of_part (text : option jsstring) (p : jsstring) :
  endDatePart text = Some p -> endDateIsPresent text = false ->
  endDate text = trim p /\ trim p <> lit "Present".
Proof.
  intros Hp Hflag. split.
  - unfold endDate. rewrite Hp, Hflag.
    apply orNull_Some in Hp as [_ Hne].
    destruct p; [congruence | reflexivity].
  - intros Heq. unfold endDateIsPresent in Hflag.
    rewrite Hp, Heq, lower_Present in Hflag. discriminate.
Qed.

Lemma endDate_without_part (text : option jsstring) :
  endDatePart text = None ->
  endDateIsPresent text = false /\ endDate text = lit "Present".
Proof.
  intros Hp. unfold endDateIsPresent, endDate. rewrite Hp. auto.
Qed.

Lemma split_fields (text : option jsstring) :
  DateRangeSplit text (endDateIsPresent (dateRange text))
                 (Some (endDate (dateRange text))).
Proof.
  unfold DateRangeSplit; cbv zeta.
  split; [apply flag_present|].
  split; [intros Hf; f_equal; apply endDate_of_flag, Hf|].
  split.
  - intros p Hp Hf. destruct (endDate_of_part _ _ Hp Hf) as [-> Hne]. auto.
  - intros Hp. destruct (endDate_without_part _ Hp) as [-> ->]. auto.
Qed.

(** A text without an en dash has no end part; nor has a missing text. *)
Lemma no_dash_no_part (s : jsstring) :
  ~ In enDash s -> endDatePart (dateRange (Some s)) = None.
Proof.
  intros Hn. unfold endDatePart, dateRange.
  destruct (orNull (Some s)) as [t|] eqn:Ht; [|reflexivity].
  apply orNull_Some in Ht as [[= <-] _]. simpl.
  rewrite split_no_separator by exact Hn. reflexivity.
Qed.

Lemma no_text_no_part : endDatePart (dateRange None) = None.
Proof. reflexivity. Qed.

(** C1, as amended. For every entry of the experience section and of the
    volunteering section, the raw record has [endDateIsPresent] set
    exactly when the trimmed, lowercased end part of the en-dash split is
    ["present"], and then [endDate] is the sentinel ["Present"]; when
    there is an end part that does not read ["present"], [endDate] is
    that part, trimmed, and differs from the sentinel; when there is no
    end part, the flag is clear and [endDate] is the sentinel
    nevertheless. *)
Theorem date_range_fields (node : ExperienceNode) (vnode : VolunteerNode) :
  DateRangeSplit (dateRangeText node)
    (RawExperience.endDateIsPresent (experience node))
    (RawExperience.endDate (experience node))
  /\ DateRangeSplit (vDateRangeText vnode)
       (RawVolunteerExperience.endDateIsPresent (volunteerExperience vnode))
       (RawVolunteerExperience.endDate (volunteerExperience vnode)).
Proof.
  split; apply split_fields.
Qed.

End WithRuntime.

(** C1, as stated, fails: the record extracted from a date range without
    an en dash has [endDateIsPresent = false] and yet carries the
    sentinel ["Present"] as its [endDate]. *)
Lemma single_date_is_present_unflagged :
  let raw := experience Samples.singleDate in
  ~ (RawExperience.endDateIsPresent raw = false ->
     RawExperience.endDate raw <> Some (lit "Present")).
Proof.
  cbv zeta. intros Hclaim. apply Hclaim; reflexivity.
Qed.

End ExtractFacts.

(** ** Durations *)

Module NormalizeFacts.

Import Normalize.

Lemma getDurationInDays_between (startBound endBound : option Date) :
  DurationBetween startBound endBound (getDurationInDays startBound endBound).
Proof.
  unfold DurationBetween, getDurationInDays.
  repeat split.
  - intros s e -> -> Hle.
    destruct (Z.ltb_spec e s); [lia | reflexivity].
  - intros s e -> -> Hlt.
    destruct (Z.ltb_spec e s); [reflexivity | lia].
  - intros [-> | ->]; [reflexivity | destruct startBound; reflexivity].
  - intros d. destruct startBound as [s|], endBound as [e|]; try discriminate.
    destruct (Z.ltb_spec e s); [discriminate | intros [= <-]; lia].
Qed.

Section WithUtils.
Context `{Utils}.

(** The duration of an experience, in one expression: the bound of an
    open-ended range is the clock. *)
Lemma experience_duration (now : Date) (raw : RawExperience.t) :
  Experience.durationInDays (experience now raw) =
  getDurationInDays
    (formatDate (RawExperience.startDate raw))
    (if RawExperience.endDateIsPresent raw then Some now
     else formatDate (RawExperience.endDate raw)).
Proof.
  unfold experience; simpl.
  destruct (RawExperience.endDateIsPresent raw); simpl.
  - destruct (formatDate (RawExperience.startDate raw)); reflexivity.
  - destruct (formatDate (RawExperience.startDate raw)) as [s|]; simpl;
      [|reflexivity].
    destruct (formatDate (RawExperience.endDate raw)); reflexivity.
Qed.


End WithUtils.


End NormalizeFacts.

(** ** Request interception *)

Module RequestsFacts.

Import JSFacts Normalize Requests.

Lemma arrayIncludes_In (l : list jsstring) (x : jsstring) :
  arrayIncludes l x = true <-> In x l.
Proof.
  unfold arrayIncludes. rewrite existsb_exists. split.
  - intros [y [Hy Heq]]. apply eqb_eq in Heq. subst; exact Hy.
  - intros Hx. exists x. split; [exact Hx | apply eqb_refl].
Qed.

Lemma isTrue_lookup (o : gmap jsstring bool) (k : jsstring) :
  isTrue o k = true <-> o !! k = Some true.
Proof.
  unfold isTrue. destruct (o !! k) as [[|]|]; split; congruence.
Qed.

Lemma truthy_nonempty (s : jsstring) : truthy s = true <-> s <> [].
Proof. destruct s; simpl; split; congruence. Qed.

(** Every host of the hardcoded overrides is in the table, whatever the
    list of [./blocked-hosts] holds. *)
Lemma inserted_true (ks : list jsstring) (o : gmap jsstring bool)
  (k : jsstring) :
  In k ks \/ o !! k = Some true ->
  foldl (fun o k => <[k := true]> o) o ks !! k = Some true.
Proof.
  revert o; induction ks as [|k' ks IH]; intros o; simpl.
  - intros [[] | Hk]; exact Hk.
  - intros [[-> | Hin] | Hk]; apply IH; auto.
    + right; apply lookup_insert_eq.
    + right. destruct (decide (k' = k)) as [->|Hne].
      * apply lookup_insert_eq.
      * rewrite lookup_insert_ne by exact Hne. exact Hk.
Qed.

Lemma hardcoded_blocked (blockedHostsList host : jsstring) :
  In host hardcodedHosts ->
  isTrue (getBlockedHosts blockedHostsList) host = true.
Proof.
  intros Hin. apply isTrue_lookup. unfold getBlockedHosts.
  apply inserted_true. left; exact Hin.
Qed.

Section Handler.
Context `{Utils}.

(** The two ways to an [Abort], in the terms of the handler. *)
Lemma onRequest_Abort (blockedHosts : gmap jsstring bool) (req : Request) :
  onRequest blockedHosts req = Abort <->
  In (resourceType req) blockedResources
  \/ (In (resourceType req) blockedResourcesByHost
      /\ getHostname (url req) <> []
      /\ blockedHosts !! getHostname (url req) = Some true).
Proof.
  unfold onRequest.
  rewrite <- !arrayIncludes_In, <- truthy_nonempty, <- isTrue_lookup.
  destruct (arrayIncludes blockedResources (resourceType req));
    [split; auto|].
  destruct (arrayIncludes blockedResourcesByHost (resourceType req));
    destruct (truthy (getHostname (url req)));
    destruct (isTrue blockedHosts (getHostname (url req))); simpl;
    split; auto; try discriminate;
    intros [? | (? & ? & ?)]; discriminate.
Qed.

(** C2, as amended. An intercepted request is aborted if and only if its
    resource type is one of image, media, font, texttrack, object,
    beacon, csp_report, imageset, or its resource type is one of script,
    xhr, fetch, document and its hostname is not empty and is mapped to
    [true] by the blocked-hosts table. A stylesheet is never aborted,
    and a request that is not aborted is continued. *)
Theorem request_verdict (blockedHosts : gmap jsstring bool) (req : Request) :
  let hostname := getHostname (url req) in
  (onRequest blockedHosts req = Abort <->
   In (resourceType req)
      [lit "image"; lit "media"; lit "font"; lit "texttrack"; lit "object";
       lit "beacon"; lit "csp_report"; lit "imageset"]
   \/ (In (resourceType req)
          [lit "script"; lit "xhr"; lit "fetch"; lit "document"]
       /\ hostname <> []
       /\ blockedHosts !! hostname = Some true))
  /\ (resourceType req = lit "stylesheet" ->
      onRequest blockedHosts req = Continue)
  /\ (onRequest blockedHosts req <> Abort ->
      onRequest blockedHosts req = Continue).
Proof.
  cbv zeta. split; [exact (onRequest_Abort blockedHosts req)|]. split.
  - intros Hrt. unfold onRequest. rewrite Hrt. reflexivity.
  - destruct (onRequest blockedHosts req); congruence.
Qed.

(** When the table does not map the empty name, the test that the
    hostname is non-empty decides nothing. *)
Lemma onRequest_Abort_table (blockedHosts : gmap jsstring bool)
  (req : Request) :
  blockedHosts !! [] <> Some true ->
  (onRequest blockedHosts req = Abort <->
   In (resourceType req) blockedResources
   \/ (In (resourceType req) blockedResourcesByHost
       /\ blockedHosts !! getHostname (url req) = Some true)).
Proof.
  intros Hempty. rewrite onRequest_Abort.
  split; (intros [Hb | Hh]; [left; exact Hb | right]).
  - destruct Hh as (Hrt & _ & Hl); auto.
  - destruct Hh as (Hrt & Hl). repeat split; auto.
    intros Heq. rewrite Heq in Hl. contradiction.
Qed.

End Handler.

(** C2, as stated, fails. A line of the list with two spaces after the
    address makes [getBlockedHosts] map the empty name to [true]; a
    script given inline has no host, so that its hostname, the empty
    string, maps to [true] in the table. The request is continued. *)
Lemma hostless_request_is_continued :
  let blockedHosts := getBlockedHosts Samples.alignedHosts in
  let req := Samples.inlineScript in
  let hostname := @getHostname Samples.readingUtils (url req) in
  ~ (@onRequest Samples.readingUtils blockedHosts req = Abort <->
     In (resourceType req)
        [lit "image"; lit "media"; lit "font"; lit "texttrack"; lit "object";
         lit "beacon"; lit "csp_report"; lit "imageset"]
     \/ (In (resourceType req)
            [lit "script"; lit "xhr"; lit "fetch"; lit "document"]
         /\ blockedHosts !! hostname = Some true)).
Proof.
  cbv zeta. intros [_ Hback].
  assert (Hverdict :
    @onRequest Samples.readingUtils (getBlockedHosts Samples.alignedHosts)
      Samples.inlineScript = Continue) by (vm_compute; reflexivity).
  rewrite Hverdict in Hback.
  assert (Habsurd : Continue = Abort -> False) by discriminate.
  apply Habsurd, Hback. right. split.
  - simpl. auto.
  - vm_compute. reflexivity.
Qed.

End RequestsFacts.

(** ** Scrolling *)

Module ScrollFacts.

Import Scroll.
Local Open Scope Z_scope.

Lemma reached_dec (h : nat -> Z) (n : nat) : {reached h n} + {~ reached h n}.
Proof. unfold reached. apply Z_ge_dec. Qed.

(** A property that holds somewhere holds at a least index. *)
Lemma least_tick (h : nat -> Z) (n : nat) :
  reached h n ->
  exists m, (m <= n)%nat /\ reached h m
            /\ forall k, (k < m)%nat -> ~ reached h k.
Proof.
  induction n as [n IH] using lt_wf_ind. intros Hn.
  destruct (List.Exists_dec (reached h) (seq 0 n) (reached_dec h))
    as [Hex | Hnone].
  - apply List.Exists_exists in Hex as [k [Hk Hrk]].
    apply in_seq in Hk.
    destruct (IH k ltac:(lia) Hrk) as [m (Hm & Hrm & Hleast)].
    exists m. repeat split; auto. lia.
  - exists n. repeat split; auto.
    intros k Hk Hrk. apply Hnone.
    apply List.Exists_exists. exists k. split; [|exact Hrk].
    apply in_seq. lia.
Qed.

(** The timer, followed from a tick at or before the first one that
    passes the test. *)
Lemma timer_stops (h : nat -> Z) (n : nat) :
  reached h n -> (forall k, (k < n)%nat -> ~ reached h k) ->
  forall fuel fired,
    (fired <= n)%nat -> (n - fired < fuel)%nat ->
    timer h fuel fired (distance * Z.of_nat fired) =
    Some {| ticks := S n; totalHeight := distance * Z.of_nat (S n) |}.
Proof.
  intros Hn Hleast fuel.
  induction fuel as [|fuel IH]; intros fired Hle Hfuel; [lia|].
  simpl.
  replace (distance * Z.of_nat fired + distance)
    with (distance * Z.of_nat (S fired)) by lia.
  destruct (Z.geb_spec (distance * Z.of_nat (S fired)) (h fired))
    as [Hge | Hlt].
  - assert (fired = n) as ->; [|reflexivity].
    destruct (Nat.eq_dec fired n) as [|Hne]; [assumption|].
    exfalso. apply (Hleast fired); [lia|]. unfold reached. lia.
  - assert (fired <> n).
    { intros ->. unfold reached in Hn. lia. }
    apply IH; lia.
Qed.

Lemma timer_running (h : nat -> Z) (n : nat) :
  (forall k, (k < n)%nat -> ~ reached h k) ->
  forall fuel fired,
    (fired + fuel <= n)%nat ->
    timer h fuel fired (distance * Z.of_nat fired) = None.
Proof.
  intros Hleast fuel.
  induction fuel as [|fuel IH]; intros fired Hle; [reflexivity|].
  simpl.
  replace (distance * Z.of_nat fired + distance)
    with (distance * Z.of_nat (S fired)) by lia.
  destruct (Z.geb_spec (distance * Z.of_nat (S fired)) (h fired))
    as [Hge | Hlt].
  - exfalso. apply (Hleast fired); [lia|]. unfold reached. lia.
  - apply IH. lia.
Qed.

(** C9. When the scroll heights read by the ticks are eventually
    bounded, the timer stops: there is a tick [n] (counting from 0) at
    which the accumulated distance, [500] per tick, has reached the
    scroll height read by that same tick, no earlier tick passed that
    test against its own reading, and given more than [n] ticks the loop
    ends after exactly [n + 1] of them, while it is still running
    before. *)
Theorem autoScroll_stops_at_first_reach (scrollHeightAt : nat -> Z) :
  (exists bound from, forall n, (from <= n)%nat -> scrollHeightAt n <= bound) ->
  exists n,
    500 * Z.of_nat (S n) >= scrollHeightAt n
    /\ (forall k, (k < n)%nat -> 500 * Z.of_nat (S k) < scrollHeightAt k)
    /\ (forall fuel, (n < fuel)%nat ->
        autoScroll scrollHeightAt fuel =
        Some {| ticks := S n; totalHeight := 500 * Z.of_nat (S n) |})
    /\ (forall fuel, (fuel <= n)%nat -> autoScroll scrollHeightAt fuel = None).
Proof.
  intros (bound & from & Hbound).
  assert (Hsome : reached scrollHeightAt (Nat.max from (Z.to_nat bound))).
  { unfold reached, distance.
    specialize (Hbound (Nat.max from (Z.to_nat bound)) ltac:(lia)). lia. }
  destruct (least_tick _ _ Hsome) as (n & _ & Hn & Hleast).
  exists n. split; [exact Hn|]. split.
  - intros k Hk. specialize (Hleast k Hk). unfold reached, distance in Hleast.
    lia.
  - split; intros fuel Hfuel; unfold autoScroll.
    + apply (timer_stops scrollHeightAt n Hn Hleast fuel 0%nat); lia.
    + apply (timer_running scrollHeightAt n Hleast fuel 0%nat); lia.
Qed.

(** The theorem at a document that grows while it is scrolled. *)
Lemma autoScroll_growing_document :
  exists n,
    500 * Z.of_nat (S n) >= Samples.growing n
    /\ (forall k, (k < n)%nat -> 500 * Z.of_nat (S k) < Samples.growing k)
    /\ (forall fuel, (n < fuel)%nat ->
        autoScroll Samples.growing fuel =
        Some {| ticks := S n; totalHeight := 500 * Z.of_nat (S n) |})
    /\ (forall fuel, (fuel <= n)%nat -> autoScroll Samples.growing fuel = None).
Proof.
  apply (autoScroll_stops_at_first_reach Samples.growing).
  exists 2200, 0%nat. intros n _. unfold Samples.growing.
  destruct (n <? 3)%nat eqn:Hn; [|lia].
  apply Nat.ltb_lt in Hn. lia.
Defined.

End ScrollFacts.

(** ** The lifecycle *)

Module LifecycleFacts.

Import JSFacts Normalize Lifecycle.
Local Open Scope async_scope.

(** *** The monad *)

Lemma bind_Ok_inv {A B} (m : M A) (k : A -> M B) s b s' :
  bind m k s = (Ok b, s') ->
  exists a s1, m s = (Ok a, s1) /\ k a s1 = (Ok b, s').
Proof.
  unfold bind. destruct (m s) as [[a|e] s1]; [eauto | discriminate].
Qed.

Lemma bind_Throw_inv {A B} (m : M A) (k : A -> M B) s e s' :
  bind m k s = (Throw e, s') ->
  m s = (Throw e, s')
  \/ exists a s1, m s = (Ok a, s1) /\ k a s1 = (Throw e, s').
Proof.
  unfold bind. destruct (m s) as [[a|e0] s1]; intros Hk.
  - right; eauto.
  - left. injection Hk as -> ->. reflexivity.
Qed.

Lemma bind_Ok {A B} (m : M A) (k : A -> M B) s a s1 :
  m s = (Ok a, s1) -> bind m k s = k a s1.
Proof. unfold bind. intros ->. reflexivity. Qed.

Lemma bind_Throw {A B} (m : M A) (k : A -> M B) s e s1 :
  m s = (Throw e, s1) -> bind m k s = (Throw e, s1).
Proof. unfold bind. intros ->. reflexivity. Qed.

Lemma tryCatch_Ok {A} (m : M A) (h : error -> M A) s a s1 :
  m s = (Ok a, s1) -> tryCatch m h s = (Ok a, s1).
Proof. unfold tryCatch. intros ->. reflexivity. Qed.

Lemma tryCatch_Throw {A} (m : M A) (h : error -> M A) s e s1 :
  m s = (Throw e, s1) -> tryCatch m h s = h e s1.
Proof. unfold tryCatch. intros ->. reflexivity. Qed.

(** *** Relations that every step keeps *)

Section Preserved.
Variable R : State -> State -> Prop.
Hypothesis R_refl : forall s, R s s.
Hypothesis R_trans : forall s1 s2 s3, R s1 s2 -> R s2 s3 -> R s1 s3.

Lemma preserves_ret {A} (a : A) : preserves R (ret a).
Proof. intros s; apply R_refl. Qed.

Lemma preserves_throw {A} (e : error) : preserves R (@throw A e).
Proof. intros s; apply R_refl. Qed.

Lemma preserves_gets {A} (f : State -> A) : preserves R (gets f).
Proof. intros s; apply R_refl. Qed.

Lemma preserves_bind {A B} (m : M A) (k : A -> M B) :
  preserves R m -> (forall a, preserves R (k a)) -> preserves R (bind m k).
Proof.
  intros Hm Hk s. unfold bind. specialize (Hm s).
  destruct (m s) as [[a|e] s1]; simpl in *; [|exact Hm].
  eapply R_trans; [exact Hm | apply Hk].
Qed.

Lemma preserves_tryCatch {A} (m : M A) (h : error -> M A) :
  preserves R m -> (forall e, preserves R (h e)) ->
  preserves R (tryCatch m h).
Proof.
  intros Hm Hh s. unfold tryCatch. specialize (Hm s).
  destruct (m s) as [[a|e] s1]; simpl in *; [exact Hm|].
  eapply R_trans; [exact Hm | apply Hh].
Qed.

Lemma preserves_forEach {A} (l : list A) (body : A -> M unit) :
  (forall x, preserves R (body x)) -> preserves R (forEach l body).
Proof.
  intros Hbody. induction l as [|x l IH]; simpl.
  - apply preserves_ret.
  - apply preserves_bind; [apply Hbody | intros _; exact IH].
Qed.

End Preserved.

Lemma sameInstance_refl s : sameInstance s s.
Proof. split; reflexivity. Qed.

Lemma sameInstance_trans s1 s2 s3 :
  sameInstance s1 s2 -> sameInstance s2 s3 -> sameInstance s1 s3.
Proof. unfold sameInstance. intros [-> ->] [-> ->]. auto. Qed.

Lemma later_refl s : later s s.
Proof. split; [exists []; reflexivity | lia]. Qed.

Lemma later_trans s1 s2 s3 : later s1 s2 -> later s2 s3 -> later s1 s3.
Proof.
  intros [[t1 H1] Hc1] [[t2 H2] Hc2]. split; [|lia].
  exists (t2 ++ t1). rewrite H2, H1, app_assoc. reflexivity.
Qed.

Lemma sameProcess_refl s : sameProcess s s.
Proof. intros Hq. auto. Qed.

Lemma sameProcess_trans s1 s2 s3 :
  sameProcess s1 s2 -> sameProcess s2 s3 -> sameProcess s1 s3.
Proof.
  intros H12 H23 Hq. destruct (H12 Hq) as [Hq2 Hl2].
  destruct (H23 Hq2) as [Hq3 Hl3]. split; congruence.
Qed.

Create HintDb lifecycle.

#[local] Hint Resolve sameInstance_refl sameInstance_trans later_refl
  later_trans sameProcess_refl sameProcess_trans : lifecycle.

Ltac relation_laws :=
  first [ exact sameInstance_refl | exact sameInstance_trans
        | exact later_refl | exact later_trans
        | exact sameProcess_refl | exact sameProcess_trans ].

(** Walks down a method, one construct at a time; the calls and the
    methods already dealt with are looked up in the hint base. *)
Ltac kept :=
  lazymatch goal with
  | |- forall _, _ => intro; kept
  | |- preserves _ (ret _) => apply preserves_ret; relation_laws
  | |- preserves _ (throw _) => apply preserves_throw; relation_laws
  | |- preserves _ (gets _) => apply preserves_gets; relation_laws
  | |- preserves _ (bind _ _) =>
      apply preserves_bind; [relation_laws | kept | kept]
  | |- preserves _ (tryCatch _ _) =>
      apply preserves_tryCatch; [relation_laws | kept | kept]
  | |- preserves _ (forEach _ _) =>
      apply preserves_forEach; [relation_laws | relation_laws | kept]
  | |- preserves _ (match ?x with _ => _ end) => destruct x; kept
  | |- preserves _ _ => solve [auto with lifecycle]
  end.

Section Methods.
Context `{Runtime} `{Utils} (w : World).

(** *** Driver calls *)

Lemma effect_instance (c : Call) s :
  browser (effect w c s) = browser s /\ keepAlive (effect w c s) = keepAlive s.
Proof. destruct c; simpl; auto. Qed.

Lemma effect_log (c : Call) s :
  trace (effect w c s) = trace s /\ clock (effect w c s) = clock s.
Proof. destruct c; simpl; auto. Qed.

Lemma effect_process (c : Call) s :
  pageLevel c -> live (effect w c s) = live s.
Proof. destruct c; simpl; tauto. Qed.

Lemma effect_closing (c : Call) s : closing (effect w c s) = closing s.
Proof. destruct c; reflexivity. Qed.

Lemma direct_sameInstance (c : Call) : preserves sameInstance (direct w c).
Proof.
  intros s. unfold direct, sameInstance.
  destruct (fault w (clock s)); simpl; [auto|].
  destruct (effect_instance c (logged c true s)) as [-> ->]. auto.
Qed.

Lemma direct_later (c : Call) : preserves later (direct w c).
Proof.
  intros s. unfold direct, later.
  destruct (fault w (clock s)); simpl.
  - split; [exists [(c, false)]; reflexivity | lia].
  - destruct (effect_log c (logged c true s)) as [-> ->]. simpl.
    split; [exists [(c, true)]; reflexivity | lia].
Qed.

Lemma direct_closing (c : Call) s :
  closing (snd (direct w c s)) = closing s.
Proof.
  unfold direct. destruct (fault w (clock s)); simpl; [reflexivity|].
  rewrite effect_closing. reflexivity.
Qed.

(** The log of one call of [treeKill]. *)
Lemma direct_treeKill_trace p s :
  exists ok, trace (snd (direct w (treeKill p) s)) = (treeKill p, ok) :: trace s.
Proof.
  unfold direct. destruct (fault w (clock s)); simpl; eauto.
Qed.

Lemma direct_treeKill_dead p s :
  live s = false -> live (snd (direct w (treeKill p) s)) = false.
Proof.
  unfold direct. destruct (fault w (clock s)); simpl; auto.
Qed.

Lemma direct_treeKill_pages p s :
  openPages (snd (direct w (treeKill p) s)) = openPages s.
Proof.
  unfold direct. destruct (fault w (clock s)); reflexivity.
Qed.

(** *** The executor left in the background *)

Lemma resume_quiet s : closing s = None -> resume w s = s.
Proof. unfold resume. intros ->. reflexivity. Qed.

Lemma issued_quiet c ok s :
  closing s = None -> issued w c ok s = logged c ok s.
Proof. intros Hq. unfold issued. apply resume_quiet. exact Hq. Qed.

Lemma resume_closing s : closing (resume w s) = None.
Proof.
  unfold resume. destruct (closing s) as [[code|]|] eqn:Hc; simpl; auto.
  destruct (browser s) as [b|]; simpl; [|reflexivity].
  destruct (pid b) as [[|n]|]; try reflexivity.
  rewrite direct_closing. reflexivity.
Qed.

Lemma resume_sameInstance s : sameInstance s (resume w s).
Proof.
  unfold resume.
  destruct (closing s) as [[code|]|]; simpl; try (split; reflexivity).
  destruct (browser s) as [b|]; simpl; [|split; reflexivity].
  destruct (pid b) as [[|n]|]; try (split; reflexivity).
  eapply sameInstance_trans; [|apply direct_sameInstance].
  split; reflexivity.
Qed.

(** What the executor in the background adds to the log: a call of
    [treeKill], or nothing. *)
Lemma resume_trace s :
  exists t, trace (resume w s) = t ++ trace s
            /\ Forall isTreeKill t
            /\ (clock s <= clock (resume w s))%nat.
Proof.
  assert (Hnone : forall s' : State,
            trace s' = trace s -> clock s' = clock s ->
            exists t, trace s' = t ++ trace s /\ Forall isTreeKill t
                      /\ (clock s <= clock s')%nat).
  { intros s' Ht Hc. exists []. rewrite Ht, Hc. auto. }
  unfold resume. destruct (closing s) as [[code|]|]; simpl;
    try (apply Hnone; reflexivity).
  destruct (browser s) as [b|]; simpl; [|apply Hnone; reflexivity].
  destruct (pid b) as [[|n]|]; try (apply Hnone; reflexivity).
  set (s1 := setOpenPages [] (setLive false (setClosing None s))).
  destruct (direct_treeKill_trace (S n) s1) as [ok Ht].
  exists [(treeKill (S n), ok)]. rewrite Ht. repeat split.
  - constructor; [exact I | constructor].
  - pose proof (direct_later (treeKill (S n)) s1) as [_ Hc]. exact Hc.
Qed.

Lemma resume_later s : later s (resume w s).
Proof.
  destruct (resume_trace s) as (t & Ht & _ & Hc). split; eauto.
Qed.

Lemma issued_trace c ok s :
  exists t, trace (issued w c ok s) = t ++ (c, ok) :: trace s
            /\ Forall isTreeKill t
            /\ (S (clock s) <= clock (issued w c ok s))%nat.
Proof.
  unfold issued. destruct (resume_trace (logged c ok s)) as (t & Ht & Hk & Hc).
  exists t. auto.
Qed.

(** *** Awaited calls *)

Lemma call_ok (c : Call) s :
  fault w (clock s) = None ->
  call w c s = (Ok tt, effect w c (issued w c true s)).
Proof. unfold call. intros ->. reflexivity. Qed.

Lemma call_fails (c : Call) s code :
  fault w (clock s) = Some code ->
  call w c s = (Throw (DriverError code), issued w c false s).
Proof. unfold call. intros ->. reflexivity. Qed.

Lemma call_Ok_inv (c : Call) s u s' :
  call w c s = (Ok u, s') ->
  fault w (clock s) = None /\ s' = effect w c (issued w c true s).
Proof.
  unfold call. destruct (fault w (clock s)); [discriminate|].
  intros [= _ <-]. auto.
Qed.

Lemma call_Throw_inv (c : Call) s e s' :
  call w c s = (Throw e, s') ->
  exists code, fault w (clock s) = Some code /\ e = DriverError code
               /\ s' = issued w c false s.
Proof.
  unfold call. destruct (fault w (clock s)) as [code|]; [|discriminate].
  intros [= <- <-]. eauto.
Qed.

(** Once a call has been awaited, nothing is left in the background. *)
Lemma call_closing (c : Call) s : closing (snd (call w c s)) = None.
Proof.
  unfold call, issued. destruct (fault w (clock s)); simpl.
  - apply resume_closing.
  - rewrite effect_closing. apply resume_closing.
Qed.

Lemma call_sameInstance (c : Call) : preserves sameInstance (call w c).
Proof.
  intros s. unfold call, issued.
  assert (Hi : sameInstance s (resume w (logged c true s))
               /\ sameInstance s (resume w (logged c false s))).
  { split; (eapply sameInstance_trans; [|apply resume_sameInstance]);
      split; reflexivity. }
  destruct Hi as [Hok Hfail].
  destruct (fault w (clock s)); simpl; [exact Hfail|].
  unfold sameInstance in *.
  destruct (effect_instance c (resume w (logged c true s))) as [-> ->].
  exact Hok.
Qed.

Lemma call_later (c : Call) : preserves later (call w c).
Proof.
  intros s. unfold call, later.
  destruct (fault w (clock s)); simpl.
  - destruct (issued_trace c false s) as (t & Ht & _ & Hc).
    split; [exists (t ++ [(c, false)]) | lia].
    rewrite Ht, <- app_assoc. reflexivity.
  - destruct (effect_log c (issued w c true s)) as [-> ->].
    destruct (issued_trace c true s) as (t & Ht & _ & Hc).
    split; [exists (t ++ [(c, true)]) | lia].
    rewrite Ht, <- app_assoc. reflexivity.
Qed.

Lemma call_sameProcess (c : Call) :
  pageLevel c -> preserves sameProcess (call w c).
Proof.
  intros Hc s Hq. split; [apply call_closing|].
  unfold call. destruct (fault w (clock s)); simpl;
    rewrite ?effect_process by exact Hc;
    rewrite issued_quiet by exact Hq; reflexivity.
Qed.

(** *** [close] *)

(** Nothing to close: no call is made and the promise resolves. *)
Lemma close_nothing s :
  browser s = None -> close w None s = (Ok tt, s).
Proof.
  intros Hb. unfold close, closeGivenPage, closeBrowser. rewrite Hb.
  reflexivity.
Qed.

(** [browser.close()] throws: the promise is rejected with that error. *)
Lemma close_rejected s b code :
  browser s = Some b -> fault w (clock s) = Some code ->
  close w None s = (Throw (DriverError code), issued w browserClose false s).
Proof.
  intros Hb Hf. unfold close, closeGivenPage, closeBrowser.
  rewrite Hb, (call_fails _ _ _ Hf). reflexivity.
Qed.

(** [browser.close()] returns: the promise resolves, whatever [treeKill]
    reports afterwards, and the process is gone. Between the call and
    the end of the executor the log takes calls of [treeKill] only: the
    one of this executor and, before it, the one of an executor that was
    left in the background. *)
Lemma close_resolved s b :
  browser s = Some b -> fault w (clock s) = None ->
  exists s' t,
    close w None s = (Ok tt, s')
    /\ trace s' = t ++ (browserClose, true) :: trace s
    /\ Forall isTreeKill t
    /\ (closing s = None -> t = [] \/ exists p ok, t = [(treeKill p, ok)])
    /\ live s' = false /\ openPages s' = [] /\ closing s' = None.
Proof.
  intros Hb Hf. unfold close, closeGivenPage, closeBrowser.
  rewrite Hb, (call_ok _ _ Hf).
  destruct (issued_trace browserClose true s) as (t0 & Ht0 & Hk0 & _).
  assert (Hq0 : closing s = None -> t0 = []).
  { intros Hq. rewrite (issued_quiet _ _ _ Hq) in Ht0. simpl in Ht0.
    apply (f_equal (@List.length _)) in Ht0. rewrite length_app in Ht0.
    simpl in Ht0. destruct t0; [reflexivity | simpl in Ht0; lia]. }
  set (s1 := effect w browserClose (issued w browserClose true s)).
  assert (Ht1 : trace s1 = t0 ++ (browserClose, true) :: trace s)
    by exact Ht0.
  assert (Hl1 : live s1 = false) by reflexivity.
  assert (Hp1 : openPages s1 = []) by reflexivity.
  assert (Hc1 : closing s1 = None).
  { subst s1. rewrite effect_closing. apply resume_closing. }
  clearbody s1.
  destruct (pid b) as [[|n]|].
  - exists s1, t0. simpl. repeat split; auto.
  - destruct (direct_treeKill_trace (S n) s1) as [ok Hk].
    pose proof (direct_treeKill_dead (S n) s1 Hl1) as Hl.
    pose proof (direct_treeKill_pages (S n) s1) as Hp.
    pose proof (direct_closing (treeKill (S n)) s1) as Hc.
    destruct (direct w (treeKill (S n)) s1) as [killed s2]. simpl in *.
    exists s2, ((treeKill (S n), ok) :: t0).
    split; [destruct killed; reflexivity|].
    rewrite Hk, Ht1. repeat split; try congruence.
    + constructor; [exact I | exact Hk0].
    + intros Hq. rewrite (Hq0 Hq). right; eauto.
  - exists s1, t0. simpl. repeat split; auto.
Qed.

(** A settled promise stays as it is. *)
Lemma closeBrowser_settled r s :
  fst (fst (closeBrowser w (Some r) s)) = Some r.
Proof.
  unfold closeBrowser.
  destruct (browser s) as [b|]; [|reflexivity].
  destruct (call w browserClose s) as [[u|e] s1]; [|reflexivity].
  destruct (pid b) as [[|n]|]; try reflexivity.
  destruct (direct w (treeKill (S n)) s1); reflexivity.
Qed.

Lemma killCallback_settled callback r :
  killCallback callback (Some r) = Some r.
Proof. destruct callback as [[p [u|e]]|]; reflexivity. Qed.

(** The callback of [treeKill] finds the promise settled: what it is
    given does not reach the caller. *)
Lemma killCallback_late callback promise :
  killCallback callback (settle (Ok tt) promise) = settle (Ok tt) promise.
Proof. destruct promise; [apply killCallback_settled|]. apply killCallback_settled. Qed.

(** When [page.close()] throws, the promise is rejected with that error,
    and the caller is resumed while the executor awaits its own call of
    [browser.close()]. *)
Lemma close_page_rejected s p code :
  fault w (clock s) = Some code ->
  close w (Some p) s =
  (Throw (DriverError code),
   closeBrowserBehind w (issued w (pageClose p) false s)).
Proof.
  intros Hf. unfold close, closeGivenPage.
  rewrite (call_fails _ _ _ Hf). reflexivity.
Qed.

(** When [page.close()] returns, the executor goes on as the one of
    [close()]. *)
Lemma close_page_closed s p :
  fault w (clock s) = None ->
  close w (Some p) s =
  close w None (effect w (pageClose p) (issued w (pageClose p) true s)).
Proof.
  intros Hf. unfold close, closeGivenPage.
  rewrite (call_ok _ _ Hf). reflexivity.
Qed.

(** The same cases when a page is handed over and the promise
    resolves. *)
Lemma close_page_resolved s b p s' :
  browser s = Some b -> closing s = None ->
  close w (Some p) s = (Ok tt, s') ->
  exists t,
    trace s' = t ++ (browserClose, true) :: (pageClose p, true) :: trace s
    /\ (t = [] \/ exists q ok, t = [(treeKill q, ok)])
    /\ live s' = false /\ openPages s' = [] /\ closing s' = None.
Proof.
  intros Hb Hq Hclose.
  destruct (fault w (clock s)) as [code|] eqn:Hf.
  { rewrite (close_page_rejected s p code Hf) in Hclose. discriminate. }
  rewrite (close_page_closed s p Hf), (issued_quiet _ _ _ Hq) in Hclose.
  set (s1 := effect w (pageClose p) (logged (pageClose p) true s)) in *.
  assert (Hb1 : browser s1 = Some b) by (subst s1; simpl; exact Hb).
  assert (Hq1 : closing s1 = None) by (subst s1; simpl; exact Hq).
  assert (Ht1 : trace s1 = (pageClose p, true) :: trace s) by reflexivity.
  destruct (fault w (clock s1)) as [code|] eqn:Hf1.
  - rewrite (close_rejected s1 b code Hb1 Hf1) in Hclose. discriminate.
  - destruct (close_resolved s1 b Hb1 Hf1)
      as (s2 & t & Hc & Ht & _ & Hshape & Hlive & Hpages & Hq2).
    rewrite Hc in Hclose. injection Hclose as <-.
    exists t. rewrite Ht, Ht1. repeat split; auto.
Qed.

Lemma closeGivenPage_keeps (R : State -> State -> Prop) page promise s s' :
  (forall s, R s s) -> (forall p, preserves R (call w (pageClose p))) ->
  closeGivenPage w page s = (promise, s') -> R s s'.
Proof.
  intros Hrefl Hcall. unfold closeGivenPage.
  destruct page as [p|]; [|intros [= _ <-]; apply Hrefl].
  specialize (Hcall p s).
  destruct (call w (pageClose p) s) as [[u|e] s1]; simpl in *;
    intros [= _ <-]; exact Hcall.
Qed.

Lemma closeBrowser_keeps (R : State -> State -> Prop) promise s r s' :
  (forall s, R s s) -> (forall s1 s2 s3, R s1 s2 -> R s2 s3 -> R s1 s3) ->
  preserves R (call w browserClose) ->
  (forall p, preserves R (direct w (treeKill p))) ->
  closeBrowser w promise s = (r, s') -> R s s'.
Proof.
  intros Hrefl Htrans Hclose Hkill. unfold closeBrowser.
  destruct (browser s) as [b|]; [|intros [= _ <-]; apply Hrefl].
  specialize (Hclose s).
  destruct (call w browserClose s) as [[u|e] s1]; simpl in *;
    [|intros [= _ <-]; exact Hclose].
  destruct (pid b) as [[|n]|]; try (intros [= _ <-]; exact Hclose).
  specialize (Hkill (S n) s1).
  destruct (direct w (treeKill (S n)) s1) as [killed s2]; simpl in *.
  intros [= _ <-]. eapply Htrans; eassumption.
Qed.

Lemma close_keeps (R : State -> State -> Prop) page :
  (forall s, R s s) -> (forall s1 s2 s3, R s1 s2 -> R s2 s3 -> R s1 s3) ->
  (forall c, preserves R (call w c)) ->
  (forall c, preserves R (direct w c)) ->
  (forall s, R s (closeBrowserBehind w s)) ->
  preserves R (close w page).
Proof.
  intros Hrefl Htrans Hcall Hdirect Hbehind s. unfold close.
  destruct (closeGivenPage w page s) as [promise s1] eqn:H1.
  pose proof (closeGivenPage_keeps R _ _ _ _ Hrefl
                (fun p => Hcall (pageClose p)) H1) as Hs1.
  destruct promise as [rejection|]; simpl.
  - eapply Htrans; [exact Hs1 | apply Hbehind].
  - destruct (closeBrowser w None s1) as [[promise' callback] s2] eqn:H2.
    simpl. eapply Htrans; [exact Hs1|].
    eapply closeBrowser_keeps; eauto.
Qed.

Lemma closeBrowserBehind_sameInstance s :
  sameInstance s (closeBrowserBehind w s).
Proof.
  unfold closeBrowserBehind. destruct (browser s) eqn:Hb; simpl;
    split; auto.
Qed.

Lemma closeBrowserBehind_later s : later s (closeBrowserBehind w s).
Proof.
  unfold closeBrowserBehind. destruct (browser s); simpl;
    [|apply later_refl].
  split; [eexists [_]; reflexivity | simpl; lia].
Qed.

Lemma close_sameInstance page : preserves sameInstance (close w page).
Proof.
  apply close_keeps;
    [exact sameInstance_refl | exact sameInstance_trans
    | exact call_sameInstance | exact direct_sameInstance
    | exact closeBrowserBehind_sameInstance].
Qed.

Lemma close_later page : preserves later (close w page).
Proof.
  apply close_keeps;
    [exact later_refl | exact later_trans | exact call_later
    | exact direct_later | exact closeBrowserBehind_later].
Qed.

(** *** What the methods keep *)

#[local] Hint Resolve call_sameInstance call_later close_sameInstance
  close_later : lifecycle.
#[local] Hint Extern 1 (preserves sameProcess (call _ _)) =>
  apply call_sameProcess; exact I : lifecycle.

Lemma configurePage_sameInstance : preserves sameInstance (configurePage w).
Proof. unfold configurePage, openPage, listPages. kept. Qed.

Lemma configurePage_later : preserves later (configurePage w).
Proof. unfold configurePage, openPage, listPages. kept. Qed.

Lemma configurePage_sameProcess : preserves sameProcess (configurePage w).
Proof. unfold configurePage, openPage, listPages. kept. Qed.

#[local] Hint Resolve configurePage_sameInstance configurePage_later
  configurePage_sameProcess : lifecycle.

(** A page that [browser.newPage()] handed over leaves nothing in the
    background: the call was awaited. *)
Lemma openPage_Ok_quiet s page s1 :
  openPage w s = (Ok page, s1) -> closing s1 = None.
Proof.
  unfold openPage. intros Ho.
  apply bind_Ok_inv in Ho as (p & s0 & Hg & Ho).
  unfold gets in Hg. injection Hg as <- <-.
  apply bind_Ok_inv in Ho as ([] & s2 & Hc & Ho).
  unfold ret in Ho. injection Ho as <- <-.
  pose proof (call_closing newPage s) as Hq. rewrite Hc in Hq. exact Hq.
Qed.

Lemma configurePage_Ok_quiet s page s1 :
  configurePage w s = (Ok page, s1) -> closing s1 = None.
Proof.
  unfold configurePage. intros Hc.
  apply bind_Ok_inv in Hc as (p & s0 & Ho & Hc).
  apply openPage_Ok_quiet in Ho.
  match type of Hc with
  | ?m s0 = _ =>
      assert (Hk : preserves sameProcess m) by (unfold listPages; kept);
      specialize (Hk s0); rewrite Hc in Hk; exact (proj1 (Hk Ho))
  end.
Qed.


Lemma createPage_sameInstance : preserves sameInstance (createPage w).
Proof. unfold createPage. kept. Qed.

Lemma createPage_later : preserves later (createPage w).
Proof. unfold createPage. kept. Qed.

#[local] Hint Resolve createPage_sameInstance createPage_later : lifecycle.

Lemma checkIfLoggedIn_sameInstance : preserves sameInstance (checkIfLoggedIn w).
Proof. unfold checkIfLoggedIn, pageUrl. kept. Qed.

Lemma checkIfLoggedIn_later : preserves later (checkIfLoggedIn w).
Proof. unfold checkIfLoggedIn, pageUrl. kept. Qed.

Lemma visit_sameInstance page url : preserves sameInstance (visit w page url).
Proof.
  unfold visit, expandSections, expandDescriptions, scrape, found, document,
    pageUrl.
  kept.
Qed.

Lemma visit_later page url : preserves later (visit w page url).
Proof.
  unfold visit, expandSections, expandDescriptions, scrape, found, document,
    pageUrl.
  kept.
Qed.

Lemma visit_sameProcess page url : preserves sameProcess (visit w page url).
Proof.
  unfold visit, expandSections, expandDescriptions, scrape, found, document,
    pageUrl.
  kept.
Qed.

Lemma finish_sameInstance page : preserves sameInstance (finish w page).
Proof. unfold finish. kept. Qed.

Lemma finish_later page : preserves later (finish w page).
Proof. unfold finish. kept. Qed.

#[local] Hint Resolve visit_sameInstance visit_later finish_sameInstance
  finish_later : lifecycle.

Lemma pipeline_sameInstance url : preserves sameInstance (pipeline w url).
Proof. unfold pipeline. kept. Qed.

Lemma pipeline_later url : preserves later (pipeline w url).
Proof. unfold pipeline. kept. Qed.

#[local] Hint Resolve pipeline_sameInstance pipeline_later : lifecycle.

Lemma run_sameInstance url : preserves sameInstance (run w url).
Proof. unfold run. kept. Qed.

Lemma run_later url : preserves later (run w url).
Proof. unfold run. kept. Qed.

(** *** The first call of a method *)

Lemma opensWith_call c s : opensWith c (call w c) s.
Proof.
  unfold opensWith, call.
  destruct (fault w (clock s)); simpl.
  - destruct (issued_trace c false s) as (t & Ht & _).
    exists false, t. exact Ht.
  - destruct (effect_log c (issued w c true s)) as [-> _].
    destruct (issued_trace c true s) as (t & Ht & _).
    exists true, t. exact Ht.
Qed.

Lemma opensWith_bind {A B} c (m : M A) (k : A -> M B) s :
  opensWith c m s -> (forall a, preserves later (k a)) ->
  opensWith c (bind m k) s.
Proof.
  intros (ok & t & Ht) Hk. unfold opensWith, bind.
  destruct (m s) as [[a|e] s1]; simpl in *; [|eauto].
  destruct (Hk a s1) as [[t' Ht'] _].
  exists ok, (t' ++ t). rewrite Ht', Ht, app_assoc. reflexivity.
Qed.

Lemma opensWith_tryCatch {A} c (m : M A) (h : error -> M A) s :
  opensWith c m s -> (forall e, preserves later (h e)) ->
  opensWith c (tryCatch m h) s.
Proof.
  intros (ok & t & Ht) Hh. unfold opensWith, tryCatch.
  destruct (m s) as [[a|e] s1]; simpl in *; [eauto|].
  destruct (Hh e s1) as [[t' Ht'] _].
  exists ok, (t' ++ t). rewrite Ht', Ht, app_assoc. reflexivity.
Qed.

Lemma configurePage_opens s : opensWith newPage (configurePage w) s.
Proof.
  unfold configurePage, openPage.
  apply opensWith_bind; [|unfold listPages; kept].
  apply (opensWith_bind newPage (call w newPage)); [|kept].
  apply opensWith_call.
Qed.

Lemma createPage_unfold s b :
  browser s = Some b ->
  createPage w s =
  tryCatch (configurePage w) (fun err => close w None ;; throw err) s.
Proof. intros Hb. unfold createPage, bind, gets. rewrite Hb. reflexivity. Qed.

Lemma pipeline_opens url s b :
  browser s = Some b -> opensWith newPage (pipeline w url) s.
Proof.
  intros Hb. unfold pipeline. apply opensWith_bind; [|kept].
  unfold opensWith. rewrite (createPage_unfold s b Hb).
  apply opensWith_tryCatch; [apply configurePage_opens | kept].
Qed.

Lemma run_unfold url s b :
  browser s = Some b -> url <> [] -> includes url (lit "linkedin.com/") = true ->
  run w url s =
  tryCatch (pipeline w url) (fun err => close w None ;; throw err) s.
Proof.
  intros Hb Hurl Hin. unfold run, bind at 1, gets. rewrite Hb.
  destruct url; [congruence|]. simpl truthy. simpl negb.
  rewrite Hin. reflexivity.
Qed.

Lemma run_opens url s b :
  browser s = Some b -> url <> [] -> includes url (lit "linkedin.com/") = true ->
  opensWith newPage (run w url) s.
Proof.
  intros Hb Hurl Hin. unfold opensWith.
  rewrite (run_unfold url s b Hb Hurl Hin).
  apply opensWith_tryCatch; [apply (pipeline_opens url s b Hb) | kept].
Qed.

(** A state is not left untouched by a method that made a call. *)
Lemma opensWith_changes {A} c (m : M A) s :
  opensWith c m s -> snd (m s) <> s.
Proof.
  intros (ok & t & Ht) Heq. rewrite Heq in Ht.
  apply (f_equal (@List.length _)) in Ht.
  rewrite length_app in Ht. simpl in Ht. lia.
Qed.

(** C5. [run] fails fast, before any driver call and so before any page
    is opened (the state, with its log of calls, is left as it was),
    exactly when the instance holds no browser handle, or the URL is
    empty, or the URL does not contain ["linkedin.com/"]. Without a
    handle the error is "Browser is not set". Otherwise the checks pass
    and [run] is its guarded pipeline, whose first act is to open a
    page. *)
Theorem run_fails_fast (profileUrl : jsstring) (s : State) :
  let unmet :=
    browser s = None \/ profileUrl = []
    \/ ~ (exists a b, profileUrl = a ++ lit "linkedin.com/" ++ b) in
  ((exists e, run w profileUrl s = (Throw e, s)) <-> unmet)
  /\ (browser s = None -> run w profileUrl s = (Throw browserIsNotSet, s))
  /\ (~ unmet ->
      run w profileUrl s =
      tryCatch (pipeline w profileUrl) (fun err => close w None ;; throw err) s
      /\ exists ok t,
           trace (snd (run w profileUrl s)) = t ++ (newPage, ok) :: trace s).
Proof.
  cbv zeta.
  assert (Hnone : browser s = None ->
                  run w profileUrl s = (Throw browserIsNotSet, s)).
  { intros Hb. unfold run, bind, gets. rewrite Hb. reflexivity. }
  assert (Hempty : forall b, browser s = Some b -> profileUrl = [] ->
                   run w profileUrl s = (Throw noProfileUrl, s)).
  { intros b Hb ->. unfold run, bind, gets. rewrite Hb. reflexivity. }
  assert (Hother : forall b, browser s = Some b -> profileUrl <> [] ->
                   includes profileUrl (lit "linkedin.com/") = false ->
                   run w profileUrl s = (Throw notLinkedIn, s)).
  { intros b Hb Hurl Hin. unfold run, bind, gets. rewrite Hb.
    destruct profileUrl; [congruence|]. simpl truthy. simpl negb.
    rewrite Hin. reflexivity. }
  assert (Hmet : ~ (browser s = None \/ profileUrl = []
                    \/ ~ (exists a b, profileUrl = a ++ lit "linkedin.com/" ++ b)) ->
                 exists b, browser s = Some b /\ profileUrl <> []
                           /\ includes profileUrl (lit "linkedin.com/") = true).
  { intros Hn. destruct (browser s) as [b|]; [|tauto].
    exists b. split; [reflexivity|]. split; [tauto|].
    destruct (includes profileUrl (lit "linkedin.com/")) eqn:Hin;
      [reflexivity|].
    exfalso. apply Hn. right; right. rewrite <- includes_substring.
    congruence. }
  split; [split|split].
  - intros [e Hrun].
    destruct (browser s) as [b|] eqn:Hb; [|auto].
    destruct profileUrl as [|c u] eqn:Hu; [auto|]. right; right.
    rewrite <- includes_substring.
    destruct (includes (c :: u) (lit "linkedin.com/")) eqn:Hin; [|congruence].
    exfalso.
    apply (opensWith_changes newPage (run w (c :: u)) s).
    + apply (run_opens (c :: u) s b); congruence.
    + rewrite Hrun. reflexivity.
  - intros [Hb | [Hu | Hin]].
    + eauto.
    + destruct (browser s) as [b|] eqn:Hb; eauto.
    + destruct (browser s) as [b|] eqn:Hb; [|eauto].
      destruct profileUrl as [|c u] eqn:Hu; [eauto|].
      exists notLinkedIn. apply (Hother b); [reflexivity | congruence |].
      rewrite <- includes_substring in Hin.
      destruct (includes (c :: u) (lit "linkedin.com/")); congruence.
  - exact Hnone.
  - intros Hn. destruct (Hmet Hn) as (b & Hb & Hu & Hin).
    split; [apply (run_unfold _ _ b); assumption|].
    apply (run_opens _ _ b); assumption.
Qed.

(** *** Methods that return when the driver does not fail *)

Lemma calmFrom_later s s' : later s s' -> calmFrom w s -> calmFrom w s'.
Proof. intros [_ Hc] Hcalm n Hn. apply Hcalm. lia. Qed.

Lemma succeeds_ret {A} (a : A) : succeeds w (ret a).
Proof. intros s _. exists a, s. reflexivity. Qed.

Lemma succeeds_gets {A} (f : State -> A) : succeeds w (gets f).
Proof. intros s _. exists (f s), s. reflexivity. Qed.

Lemma succeeds_call c : succeeds w (call w c).
Proof.
  intros s Hcalm. exists tt, (effect w c (issued w c true s)).
  apply call_ok, Hcalm. lia.
Qed.

Lemma succeeds_bind {A B} (m : M A) (k : A -> M B) :
  succeeds w m -> preserves later m -> (forall a, succeeds w (k a)) ->
  succeeds w (bind m k).
Proof.
  intros Hm Hlater Hk s Hcalm.
  destruct (Hm s Hcalm) as (a & s1 & Hms).
  rewrite (bind_Ok _ _ _ _ _ Hms). apply Hk.
  apply (calmFrom_later s); [|exact Hcalm].
  specialize (Hlater s). rewrite Hms in Hlater. exact Hlater.
Qed.

Lemma succeeds_tryCatch {A} (m : M A) (h : error -> M A) :
  succeeds w m -> succeeds w (tryCatch m h).
Proof.
  intros Hm s Hcalm. destruct (Hm s Hcalm) as (a & s1 & Hms).
  exists a, s1. apply tryCatch_Ok, Hms.
Qed.

Lemma succeeds_forEach {A} (l : list A) (body : A -> M unit) :
  (forall x, succeeds w (body x)) -> (forall x, preserves later (body x)) ->
  succeeds w (forEach l body).
Proof.
  intros Hbody Hlater. induction l as [|x l IH]; simpl.
  - apply succeeds_ret.
  - apply succeeds_bind; auto.
Qed.

End Methods.

(** The counterpart of [kept] for [succeeds]. *)
Ltac works :=
  lazymatch goal with
  | |- forall _, _ => intro; works
  | |- succeeds _ (ret _) => apply succeeds_ret
  | |- succeeds _ (gets _) => apply succeeds_gets
  | |- succeeds _ (call _ _) => apply succeeds_call
  | |- succeeds _ (bind _ _) => apply succeeds_bind; [works | kept | works]
  | |- succeeds _ (tryCatch _ _) => apply succeeds_tryCatch; works
  | |- succeeds _ (forEach _ _) => apply succeeds_forEach; [works | kept]
  | |- succeeds _ (match ?x with _ => _ end) => destruct x; works
  | |- succeeds _ _ => solve [auto with lifecycle]
  end.

Section Outcomes.
Context `{Runtime} `{Utils} (w : World).

#[local] Hint Resolve call_sameInstance call_later close_sameInstance
  close_later configurePage_sameInstance configurePage_later
  createPage_sameInstance createPage_later visit_sameInstance visit_later
  finish_sameInstance finish_later pipeline_sameInstance pipeline_later
  : lifecycle.

(** Without a failing call, [close] resolves. *)
Lemma close_succeeds page : succeeds w (close w page).
Proof.
  intros s Hcalm.
  assert (Hnone : forall s1, later s s1 ->
                  exists s', close w None s1 = (Ok tt, s')).
  { intros s1 Hl. destruct (browser s1) as [b|] eqn:Hb.
    - destruct (close_resolved w s1 b Hb) as (s' & t & Hc & _); [|eauto].
      apply (calmFrom_later w s s1 Hl Hcalm). lia.
    - rewrite (close_nothing w s1 Hb). eauto. }
  destruct page as [p|].
  - rewrite (close_page_closed w s p) by (apply Hcalm; lia).
    destruct (Hnone (effect w (pageClose p) (issued w (pageClose p) true s)))
      as [s' Hs'].
    + pose proof (call_later w (pageClose p) s) as Hl.
      rewrite call_ok in Hl by (apply Hcalm; lia). exact Hl.
    + exists tt, s'. exact Hs'.
  - destruct (Hnone s (later_refl s)) as [s' Hs']. exists tt, s'. exact Hs'.
Qed.

Lemma configurePage_succeeds : succeeds w (configurePage w).
Proof.
  intros s Hcalm. unfold configurePage.
  assert (Hf : fault w (clock s) = None) by (apply Hcalm; lia).
  set (s0 := issued w newPage true s).
  assert (Hopen : openPage w s = (Ok (nextPage s), effect w newPage s0)).
  { unfold openPage, bind, gets. rewrite (call_ok w _ _ Hf). reflexivity. }
  rewrite (bind_Ok _ _ _ _ _ Hopen).
  set (s1 := effect w newPage s0).
  assert (Hl1 : later s s1).
  { pose proof (call_later w newPage s) as Hl.
    rewrite (call_ok w _ _ Hf) in Hl. exact Hl. }
  assert (Hq1 : closing s1 = None).
  { pose proof (call_closing w newPage s) as Hq.
    rewrite (call_ok w _ _ Hf) in Hq. exact Hq. }
  assert (Hcalm1 : calmFrom w s1) by exact (calmFrom_later w s s1 Hl1 Hcalm).
  assert (Hpages1 : openPages s1 <> []).
  { subst s1. simpl. destruct (openPages s0); discriminate. }
  clearbody s1.
  assert (Hlist : listPages w s1 =
                  (Ok (openPages s1), effect w pages (logged pages true s1))).
  { unfold listPages, bind, gets. rewrite call_ok by (apply Hcalm1; lia).
    rewrite (issued_quiet w _ _ _ Hq1). reflexivity. }
  rewrite (bind_Ok _ _ _ _ _ Hlist).
  set (s2 := effect w pages (logged pages true s1)).
  assert (Hcalm2 : calmFrom w s2).
  { intros n Hn. apply Hcalm1. subst s2; simpl in Hn. lia. }
  destruct (openPages s1) as [|firstPage rest]; [congruence|].
  clearbody s2. revert s2 Hcalm2. generalize (nextPage s). clear.
  intros page s2 Hcalm2.
  assert (Hrest : succeeds w
    (call w (pageClose firstPage) ;;
     call w (createCDPSession page) ;;
     call w (setBypassCSP page) ;;
     call w (sessionSend page "Page.enable") ;;
     call w (sessionSend page "Page.setWebLifecycleState") ;;
     call w (setRequestInterception page) ;;
     call w (setUserAgent page) ;;
     call w (setViewport page) ;;
     call w (setCookie page) ;;
     ret page)) by works.
  exact (Hrest s2 Hcalm2).
Qed.

Lemma visit_succeeds page url : succeeds w (visit w page url).
Proof.
  unfold visit, expandSections, expandDescriptions, scrape, found, document,
    pageUrl.
  works.
Qed.

Lemma finish_succeeds page : succeeds w (finish w page).
Proof.
  unfold finish. apply succeeds_bind; [works | kept |].
  intros keep. destruct (negb keep); [apply close_succeeds | works].
Qed.

(** With a handle and a well-formed address, a run returns when no
    driver call fails. *)
Lemma run_succeeds url s b :
  browser s = Some b -> url <> [] -> includes url (lit "linkedin.com/") = true ->
  calmFrom w s -> exists out s', run w url s = (Ok out, s').
Proof.
  intros Hb Hurl Hin Hcalm.
  rewrite (run_unfold w url s b Hb Hurl Hin).
  destruct (configurePage_succeeds s Hcalm) as (page & s1 & Hpage).
  assert (Hcreate : createPage w s = (Ok page, s1)).
  { rewrite (createPage_unfold w s b Hb). apply tryCatch_Ok, Hpage. }
  assert (Hcalm1 : calmFrom w s1).
  { apply (calmFrom_later w s); [|exact Hcalm].
    pose proof (createPage_later w s) as Hl. rewrite Hcreate in Hl. exact Hl. }
  assert (Hrest : succeeds w
    (output <- visit w page url ;; finish w page ;; ret output)).
  { apply succeeds_bind; [apply visit_succeeds | kept |].
    intros out. apply succeeds_bind; [apply finish_succeeds | kept | works]. }
  destruct (Hrest s1 Hcalm1) as (out & s' & Hout).
  exists out, s'. apply tryCatch_Ok. unfold pipeline.
  rewrite (bind_Ok _ _ _ _ _ Hcreate). exact Hout.
Qed.

(** *** The guard [catch (err) { await this.close(); throw err }] *)

Lemma rethrow_not_Ok {A} err s (a : A) s' :
  (close w None ;; throw err) s <> (Ok a, s').
Proof.
  unfold bind. destruct (close w None s) as [[u|e] s1]; discriminate.
Qed.

Lemma guarded_Ok_inv {A} (m : M A) s a s' :
  tryCatch m (fun err => close w None ;; throw err) s = (Ok a, s') ->
  m s = (Ok a, s').
Proof.
  unfold tryCatch. destruct (m s) as [[a0|e] s1]; [auto|].
  intros Hh. exfalso. exact (rethrow_not_Ok _ _ _ _ Hh).
Qed.

Lemma guarded_Throw_inv {A} (m : M A) s e s' :
  tryCatch m (fun err => close w None ;; throw err) s = (Throw e, s') ->
  exists e0 s1, m s = (Throw e0, s1)
                /\ (close w None ;; @throw A e0) s1 = (Throw e, s').
Proof.
  unfold tryCatch. destruct (m s) as [[a0|e0] s1]; [discriminate|].
  intros Hh. eauto.
Qed.

(** What the guard raises, with a browser to tear down: the error it
    caught when [browser.close()] returns, the error of
    [browser.close()] when that call throws. *)
Lemma rethrow_cases {A} s1 b e0 e s' :
  browser s1 = Some b ->
  (close w None ;; @throw A e0) s1 = (Throw e, s') ->
  (fault w (clock s1) = None /\ e = e0
   /\ live s' = false /\ openPages s' = []
   /\ exists t, trace s' = t ++ (browserClose, true) :: trace s1
                /\ Forall isTreeKill t
                /\ (closing s1 = None ->
                    t = [] \/ exists p ok, t = [(treeKill p, ok)]))
  \/ (exists code, fault w (clock s1) = Some code /\ e = DriverError code
                   /\ s' = issued w browserClose false s1).
Proof.
  intros Hb. destruct (fault w (clock s1)) as [code|] eqn:Hf.
  - rewrite (bind_Throw _ _ _ _ _ (close_rejected w s1 b code Hb Hf)).
    intros [= <- <-]. right. eauto.
  - destruct (close_resolved w s1 b Hb Hf)
      as (s2 & t & Hc & Ht & Hk & Hshape & Hlive & Hpages & _).
    rewrite (bind_Ok _ _ _ _ _ Hc). unfold throw. intros [= <- <-].
    left. repeat split; eauto.
Qed.

(** *** Successful runs *)

Lemma createPage_Ok_inv s page s1 :
  createPage w s = (Ok page, s1) ->
  exists b, browser s = Some b /\ configurePage w s = (Ok page, s1).
Proof.
  destruct (browser s) as [b|] eqn:Hb.
  - rewrite (createPage_unfold w s b Hb). intros Hg.
    exists b. split; [reflexivity | apply guarded_Ok_inv, Hg].
  - unfold createPage, bind, gets. rewrite Hb. discriminate.
Qed.

Lemma createPage_Ok_quiet s page s1 :
  createPage w s = (Ok page, s1) -> closing s1 = None.
Proof.
  intros Hc. apply createPage_Ok_inv in Hc as (b & _ & Hc).
  exact (configurePage_Ok_quiet w s page s1 Hc).
Qed.

Lemma createPage_Ok_sameProcess s page s1 :
  createPage w s = (Ok page, s1) -> sameProcess s s1.
Proof.
  intros Hc. apply createPage_Ok_inv in Hc as (b & _ & Hc).
  pose proof (configurePage_sameProcess w s) as Hp.
  rewrite Hc in Hp. exact Hp.
Qed.

Lemma run_Ok_inv url s out s' :
  run w url s = (Ok out, s') ->
  exists page s1 s2,
    createPage w s = (Ok page, s1)
    /\ visit w page url s1 = (Ok out, s2)
    /\ finish w page s2 = (Ok tt, s').
Proof.
  unfold run, bind at 1, gets.
  destruct (browser s) as [b|]; [|discriminate].
  destruct (negb (truthy url)); [discriminate|].
  destruct (negb (includes url (lit "linkedin.com/"))); [discriminate|].
  intros Hg. apply guarded_Ok_inv in Hg. unfold pipeline in Hg.
  apply bind_Ok_inv in Hg as (page & s1 & Hcreate & Hg).
  apply bind_Ok_inv in Hg as (out' & s2 & Hvisit & Hg).
  apply bind_Ok_inv in Hg as ([] & s3 & Hfinish & Hg).
  unfold ret in Hg. injection Hg as -> ->.
  exists page, s1, s2. auto.
Qed.

Lemma closePage_closed page ps : ~ In page (closePage page ps).
Proof.
  unfold closePage. rewrite filter_In, Nat.eqb_refl. simpl.
  intros [_ Hf]. discriminate.
Qed.

(** A run that returns went through its three stages, none of which
    touched the instance; the first two left nothing in the background
    and, when nothing was there before, left the process alone. *)
Lemma run_Ok_stages url s out s' :
  run w url s = (Ok out, s') ->
  exists page s1 s2 b,
    createPage w s = (Ok page, s1)
    /\ visit w page url s1 = (Ok out, s2)
    /\ finish w page s2 = (Ok tt, s')
    /\ browser s = Some b /\ browser s2 = Some b
    /\ keepAlive s2 = keepAlive s /\ closing s2 = None
    /\ (closing s = None -> live s2 = live s).
Proof.
  intros Hrun.
  destruct (run_Ok_inv _ _ _ _ Hrun) as (page & s1 & s2 & Hc & Hv & Hf).
  pose proof (createPage_sameInstance w s) as [Hb1 Hk1].
  pose proof (visit_sameInstance w page url s1) as [Hb2 Hk2].
  pose proof (createPage_Ok_sameProcess _ _ _ Hc) as Hl1.
  pose proof (createPage_Ok_quiet _ _ _ Hc) as Hq1.
  pose proof (visit_sameProcess w page url s1) as Hl2.
  rewrite Hc in Hb1, Hk1. rewrite Hv in Hb2, Hk2, Hl2.
  simpl in *. destruct (Hl2 Hq1) as [Hq2 Hlive2].
  destruct (createPage_Ok_inv _ _ _ Hc) as (b & Hb & _).
  exists page, s1, s2, b. repeat split; auto; try congruence.
  intros Hq. destruct (Hl1 Hq) as [_ Hlive1]. congruence.
Qed.

(** The last stage when the session is not kept alive. *)
Lemma finish_tears_down page s2 b s' :
  keepAlive s2 = false -> browser s2 = Some b -> closing s2 = None ->
  finish w page s2 = (Ok tt, s') ->
  exists t,
    trace s' = t ++ (browserClose, true) :: (pageClose page, true) :: trace s2
    /\ (t = [] \/ exists q ok, t = [(treeKill q, ok)])
    /\ live s' = false /\ openPages s' = [] /\ closing s' = None.
Proof.
  intros Hkeep Hb Hq. unfold finish, bind, gets. rewrite Hkeep. simpl.
  apply (close_page_resolved w s2 b page s' Hb Hq).
Qed.


(** *** The handle after [close] *)

Lemma setup_Ok_browser s0 s1 :
  setup w s0 = (Ok tt, s1) -> browser s1 = Some (spawned w).
Proof.
  unfold setup. intros Hg. apply guarded_Ok_inv in Hg.
  apply bind_Ok_inv in Hg as ([] & sa & _ & Hg).
  apply bind_Ok_inv in Hg as ([] & sb & Hset & Hg).
  unfold modify in Hset. injection Hset as <-.
  pose proof (checkIfLoggedIn_sameInstance w (setBrowser (Some (spawned w)) sa))
    as [Hb _].
  rewrite Hg in Hb. exact Hb.
Qed.

Lemma close_Ok_dead page s b s' :
  browser s = Some b -> close w page s = (Ok tt, s') -> live s' = false.
Proof.
  assert (Hnone : forall s1, browser s1 = Some b ->
                  close w None s1 = (Ok tt, s') -> live s' = false).
  { intros s1 Hb Hc. destruct (fault w (clock s1)) as [code|] eqn:Hf.
    - rewrite (close_rejected w s1 b code Hb Hf) in Hc. discriminate.
    - destruct (close_resolved w s1 b Hb Hf)
        as (s2 & t & Hc' & _ & _ & _ & Hl & _).
      rewrite Hc' in Hc. injection Hc as <-. exact Hl. }
  intros Hb Hc. destruct page as [p|]; [|exact (Hnone s Hb Hc)].
  destruct (fault w (clock s)) as [code|] eqn:Hf.
  - rewrite (close_page_rejected w s p code Hf) in Hc. discriminate.
  - rewrite (close_page_closed w s p Hf) in Hc.
    apply Hnone in Hc; [exact Hc|].
    pose proof (call_sameInstance w (pageClose p) s) as [Hbs _].
    rewrite (call_ok w _ _ Hf) in Hbs. unfold snd in Hbs.
    rewrite Hbs. exact Hb.
Qed.

Lemma run_past_browser_check url s b :
  browser s = Some b -> run w url s <> (Throw browserIsNotSet, s).
Proof.
  intros Hb.
  destruct url as [|c u] eqn:Hu.
  { unfold run, bind, gets. rewrite Hb. simpl. discriminate. }
  destruct (includes (c :: u) (lit "linkedin.com/")) eqn:Hin.
  - intros Hrun.
    apply (opensWith_changes newPage (run w (c :: u)) s).
    + apply (run_opens w (c :: u) s b); congruence.
    + rewrite Hrun. reflexivity.
  - unfold run, bind, gets. rewrite Hb. simpl truthy. simpl negb.
    rewrite Hin. simpl. discriminate.
Qed.

(** C10. [close] leaves the browser handle of the instance as it finds
    it, for every state and argument. Hence, once [setup] has returned
    and [close] has been called, or a run with [keepAlive = false] has
    torn the browser down itself, the instance still holds the handle
    that [setup] stored, while the browser process is gone as soon as
    [close] resolved, and a further [run] does not fail at its "Browser
    is not set" check: given a well-formed address it goes on to ask the
    closed browser for a new page. *)
Theorem close_keeps_browser_handle :
  (forall page s, browser (snd (close w page s)) = browser s)
  /\ (forall s0 s1 page r s2,
       setup w s0 = (Ok tt, s1) -> close w page s1 = (r, s2) ->
       browser s2 = Some (spawned w) /\ (r = Ok tt -> live s2 = false)
       /\ (forall url, run w url s2 <> (Throw browserIsNotSet, s2))
       /\ (forall url,
             url <> [] -> includes url (lit "linkedin.com/") = true ->
             exists ok t,
               trace (snd (run w url s2)) = t ++ (newPage, ok) :: trace s2))
  /\ (forall s0 s1 url out s2,
       setup w s0 = (Ok tt, s1) -> keepAlive s1 = false ->
       run w url s1 = (Ok out, s2) ->
       browser s2 = Some (spawned w) /\ live s2 = false
       /\ (forall url', run w url' s2 <> (Throw browserIsNotSet, s2))
       /\ (forall url',
             url' <> [] -> includes url' (lit "linkedin.com/") = true ->
             exists ok t,
               trace (snd (run w url' s2)) = t ++ (newPage, ok) :: trace s2)).
Proof.
  split; [intros page s; apply (close_sameInstance w page s)|].
  split.
  - intros s0 s1 page r s2 Hsetup Hclose.
    pose proof (setup_Ok_browser _ _ Hsetup) as Hb1.
    assert (Hb2 : browser s2 = Some (spawned w)).
    { pose proof (close_sameInstance w page s1) as [Hb _].
      rewrite Hclose in Hb. simpl in Hb. congruence. }
    split; [exact Hb2|].
    split; [intros ->; exact (close_Ok_dead _ _ _ _ Hb1 Hclose)|].
    split; [intros url; exact (run_past_browser_check url _ _ Hb2)|].
    intros url Hu Hin. exact (run_opens w url s2 _ Hb2 Hu Hin).
  - intros s0 s1 url out s2 Hsetup Hkeep Hrun.
    pose proof (setup_Ok_browser _ _ Hsetup) as Hb1.
    assert (Hb2 : browser s2 = Some (spawned w)).
    { pose proof (run_sameInstance w url s1) as [Hb _].
      rewrite Hrun in Hb. simpl in Hb. congruence. }
    destruct (run_Ok_stages _ _ _ _ Hrun)
      as (page & sa & sb & b & _ & _ & Hf & _ & Hbb & Hkb & Hqb & _).
    rewrite <- Hkb in Hkeep.
    destruct (finish_tears_down page sb b s2 Hkeep Hbb Hqb Hf)
      as (t & _ & _ & Hlive & _).
    split; [exact Hb2|]. split; [exact Hlive|].
    split; [intros url'; exact (run_past_browser_check url' _ _ Hb2)|].
    intros url' Hu Hin. exact (run_opens w url' s2 _ Hb2 Hu Hin).
Qed.

(** [close] and the instance. With nothing set up and no page given,
    [close] makes no driver call, resolves and leaves the state as it
    is. In every state it leaves the fields of the instance alone, so a
    second [close] finds the instance as the first one left it. Called
    without a page, it rejects only with an error thrown by
    [browser.close()]. *)
Lemma close_idempotent_on_instance page s :
  (browser s = None -> close w None s = (Ok tt, s))
  /\ sameInstance s (snd (close w page s))
  /\ sameInstance (snd (close w page s))
                  (snd (close w page (snd (close w page s))))
  /\ (forall e, fst (close w None s) = Throw e ->
      exists code, fault w (clock s) = Some code /\ e = DriverError code
                   /\ snd (close w None s) = issued w browserClose false s).
Proof.
  split; [apply close_nothing|].
  split; [apply close_sameInstance|].
  split; [apply close_sameInstance|].
  intros e He. destruct (browser s) as [b|] eqn:Hb.
  - destruct (fault w (clock s)) as [code|] eqn:Hf.
    + rewrite (close_rejected w s b code Hb Hf) in *. simpl in He.
      injection He as <-. exists code. auto.
    + destruct (close_resolved w s b Hb Hf) as (s2 & t & Hc & _).
      rewrite Hc in He. discriminate.
  - rewrite (close_nothing w s Hb) in He. discriminate.
Qed.

(** *** Failing runs *)

(** Where the error of the [try] block of [run] comes from: from the
    guard of [createPage], when setting up the page failed, or from the
    navigation and the queries, or from the last stage. *)
Lemma pipeline_Throw_inv url s b e1 s1 :
  browser s = Some b ->
  pipeline w url s = (Throw e1, s1) ->
  (exists e0 s0,
     configurePage w s = (Throw e0, s0)
     /\ (close w None ;; @throw PageId e0) s0 = (Throw e1, s1))
  \/ (exists page sp,
        configurePage w s = (Ok page, sp)
        /\ (visit w page url sp = (Throw e1, s1)
            \/ exists out sv,
                 visit w page url sp = (Ok out, sv)
                 /\ finish w page sv = (Throw e1, s1))).
Proof.
  intros Hb Hp. unfold pipeline in Hp.
  apply bind_Throw_inv in Hp as [Hc | (page & sp & Hc & Hp)].
  - rewrite (createPage_unfold w s b Hb) in Hc.
    apply guarded_Throw_inv in Hc as (e0 & s0 & Hc & Hh).
    left. eauto.
  - apply createPage_Ok_inv in Hc as (_ & _ & Hc).
    right. exists page, sp. split; [exact Hc|].
    apply bind_Throw_inv in Hp as [Hv | (out & sv & Hv & Hp)]; [auto|].
    right. exists out, sv. split; [exact Hv|].
    apply bind_Throw_inv in Hp as [Hf | ([] & sf & Hf & Hp)]; [exact Hf|].
    discriminate.
Qed.

(** C3, as amended. When [run] raises after its precondition checks, its
    [try] block raised an error [e1] and the guard then called [close] on
    the whole browser before anything was raised to the caller:
    [browser.close()] is the call that follows the failure. If that call
    returns, the browser process is gone, no page is open, and the error
    raised is [e1], whatever [treeKill] reports; if that call throws, the
    error raised is the one of [browser.close()], in place of [e1]. The
    error [e1] is the error [e0] of the stage that failed, except when
    [createPage] failed and the [browser.close()] of its own guard threw:
    then [e1] is that teardown error. After the failed call the log
    takes the [browser.close()] of the guard and then calls of [treeKill]
    only. *)
Theorem run_failure_teardown url s b e s' :
  browser s = Some b -> url <> [] ->
  includes url (lit "linkedin.com/") = true ->
  run w url s = (Throw e, s') ->
  exists e1 s1,
    pipeline w url s = (Throw e1, s1)
    /\ ((exists e0 s0,
           configurePage w s = (Throw e0, s0)
           /\ ((fault w (clock s0) = None /\ e1 = e0)
               \/ (exists code, fault w (clock s0) = Some code
                                /\ e1 = DriverError code)))
        \/ (exists page sp,
              configurePage w s = (Ok page, sp)
              /\ (visit w page url sp = (Throw e1, s1)
                  \/ exists out sv,
                       visit w page url sp = (Ok out, sv)
                       /\ finish w page sv = (Throw e1, s1))))
    /\ ((fault w (clock s1) = None /\ e = e1
         /\ live s' = false /\ openPages s' = []
         /\ exists t, trace s' = t ++ (browserClose, true) :: trace s1
                      /\ Forall isTreeKill t
                      /\ (closing s1 = None ->
                          t = [] \/ exists p ok, t = [(treeKill p, ok)]))
        \/ (exists code, fault w (clock s1) = Some code
                         /\ e = DriverError code
                         /\ (exists t,
                               trace s' = t ++ (browserClose, false) :: trace s1
                               /\ Forall isTreeKill t)
                         /\ (closing s1 = None ->
                             s' = logged browserClose false s1))).
Proof.
  intros Hb Hu Hin Hrun.
  rewrite (run_unfold w url s b Hb Hu Hin) in Hrun.
  apply guarded_Throw_inv in Hrun as (e1 & s1 & Hp & Hh).
  exists e1, s1. split; [exact Hp|].
  assert (Hb1 : browser s1 = Some b).
  { pose proof (pipeline_sameInstance w url s) as [Hb1 _].
    rewrite Hp in Hb1. simpl in Hb1. congruence. }
  split.
  - destruct (pipeline_Throw_inv url s b e1 s1 Hb Hp)
      as [(e0 & s0 & Hc & Hg) | Hright]; [left | right; exact Hright].
    exists e0, s0. split; [exact Hc|].
    assert (Hb0 : browser s0 = Some b).
    { pose proof (configurePage_sameInstance w s) as [Hb0 _].
      rewrite Hc in Hb0. simpl in Hb0. congruence. }
    destruct (rethrow_cases s0 b e0 e1 s1 Hb0 Hg)
      as [(Hf & He & _) | (code & Hf & He & _)]; [left; auto | right; eauto].
  - destruct (rethrow_cases s1 b e1 e s' Hb1 Hh)
      as [Hleft | (code & Hf & -> & ->)]; [left; exact Hleft|].
    right. exists code. split; [exact Hf|]. split; [reflexivity|].
    split.
    + destruct (issued_trace w browserClose false s1) as (t & Ht & Hk & _).
      eauto.
    + intros Hq. apply issued_quiet. exact Hq.
Qed.

(** *** The session check *)

(** C4, as amended. Once the verification page exists: when the
    navigation to the login address completes, [page.close()] is the last
    driver call before [checkIfLoggedIn] returns or raises; if that call
    returns, the page is closed and the verdict depends on the final
    address alone, the method returning if the address does not end with
    ["/login"] and raising [SessionExpired] if it does; if
    [page.close()] throws, its error is raised. When the navigation
    itself throws, its error is raised at once and [page.close()] is not
    called: the failed navigation is the last driver call, the open pages
    are left as [createPage] left them, and a verification page that was
    open is left open. *)
Theorem checkIfLoggedIn_verdict s page s1 :
  createPage w s = (Ok page, s1) ->
  let r := checkIfLoggedIn w s in
  (fault w (clock s1) = None ->
   (exists ok,
      trace (snd r) =
      (pageClose page, ok) :: (goto page loginUrl, true) :: trace s1)
   /\ (fault w (S (clock s1)) = None ->
       fst r = (if endsWith (landing w loginUrl) (lit "/login")
                then Throw (SessionExpired notLoggedIn) else Ok tt)
       /\ ~ In page (openPages (snd r)))
   /\ (forall code, fault w (S (clock s1)) = Some code ->
       fst r = Throw (DriverError code)))
  /\ (forall code, fault w (clock s1) = Some code ->
      r = (Throw (DriverError code), logged (goto page loginUrl) false s1)
      /\ trace (snd r) = (goto page loginUrl, false) :: trace s1
      /\ openPages (snd r) = openPages s1
      /\ (In page (openPages s1) -> In page (openPages (snd r)))).
Proof.
  intros Hc. cbv zeta. unfold checkIfLoggedIn.
  pose proof (createPage_Ok_quiet _ _ _ Hc) as Hq1.
  rewrite (bind_Ok _ _ _ _ _ Hc).
  split; [intros Hgoto | intros code Hgoto].
  2: { rewrite (bind_Throw _ _ _ _ _
                  (call_fails w (goto page loginUrl) s1 code Hgoto)).
       rewrite (issued_quiet w _ _ _ Hq1). simpl. auto. }
  rewrite (bind_Ok _ _ _ _ _ (call_ok w (goto page loginUrl) s1 Hgoto)).
  rewrite (issued_quiet w _ _ _ Hq1).
  set (s2 := effect w (goto page loginUrl) (logged (goto page loginUrl) true s1)).
  assert (Hurl : pageUrl page s2 = (Ok (landing w loginUrl), s2)).
  { unfold pageUrl, gets. subst s2. simpl.
    rewrite lookup_insert_eq. reflexivity. }
  rewrite (bind_Ok _ _ _ _ _ Hurl).
  assert (Hclock : clock s2 = S (clock s1)) by reflexivity.
  assert (Htrace : trace s2 = (goto page loginUrl, true) :: trace s1)
    by reflexivity.
  assert (Hq2 : closing s2 = None) by exact Hq1.
  clearbody s2.
  destruct (fault w (S (clock s1))) as [code|] eqn:Hf.
  - rewrite <- Hclock in Hf.
    rewrite (bind_Throw _ _ _ _ _ (call_fails w (pageClose page) s2 code Hf)).
    rewrite (issued_quiet w _ _ _ Hq2).
    simpl. rewrite Htrace. split; [eauto|]. split; [discriminate|].
    intros code' [= <-]. reflexivity.
  - rewrite <- Hclock in Hf.
    rewrite (bind_Ok _ _ _ _ _ (call_ok w (pageClose page) s2 Hf)).
    rewrite (issued_quiet w _ _ _ Hq2).
    assert (Hshape :
      forall m : M unit,
        (exists e, m = throw e) \/ m = ret tt ->
        trace (snd (m (effect w (pageClose page)
                               (logged (pageClose page) true s2)))) =
        (pageClose page, true) :: (goto page loginUrl, true) :: trace s1
        /\ ~ In page (openPages
                        (snd (m (effect w (pageClose page)
                                        (logged (pageClose page) true s2)))))).
    { intros m [[e ->] | ->]; simpl; rewrite Htrace;
        (split; [reflexivity | apply closePage_closed]). }
    destruct (endsWith (landing w loginUrl) (lit "/login")); simpl negb;
      cbv iota.
    + destruct (Hshape (throw (SessionExpired notLoggedIn))) as [Ht Hp];
        [left; eauto|].
      split; [eauto|]. split; [|discriminate]. intros _. split; [reflexivity|].
      exact Hp.
    + destruct (Hshape (ret tt)) as [Ht Hp]; [right; reflexivity|].
      split; [eauto|]. split; [|discriminate]. intros _. split; [reflexivity|].
      exact Hp.
Qed.

End Outcomes.

End LifecycleFacts.

(** ** Runs of the methods, call by call *)

Module Executions.

Import JS JSFacts Normalize Lifecycle LifecycleFacts Observe.
Local Open Scope async_scope.

Lemma ret_Ok_inv {A} (a a' : A) (s s' : State) :
  ret a s = (Ok a', s') -> a = a' /\ s = s'.
Proof. unfold ret. intros [= -> ->]. auto. Qed.

Lemma Ok_inv {A} (a a' : A) (s s' : State) :
  (Ok a, s) = (Ok a', s') -> a = a' /\ s = s'.
Proof. intros [= -> ->]. auto. Qed.

Lemma gets_Ok_inv {A} (f : State -> A) (a : A) (s s' : State) :
  gets f s = (Ok a, s') -> f s = a /\ s = s'.
Proof. unfold gets. intros [= -> ->]. auto. Qed.

Section Methods.
Context `{Runtime} `{Utils} (w : World).

Lemma after_clock c s : clock (effect w c (logged c true s)) = S (clock s).
Proof. destruct (effect_log w c (logged c true s)) as [_ ->]. reflexivity. Qed.

Lemma after_closing c s : closing (effect w c (logged c true s)) = closing s.
Proof. rewrite effect_closing. reflexivity. Qed.

Lemma played_cons c calls s :
  played w (c :: calls) s = played w calls (effect w c (logged c true s)).
Proof. reflexivity. Qed.

Lemma played_clock calls s :
  clock (played w calls s) = (clock s + length calls)%nat.
Proof.
  revert s. induction calls as [|c calls IH]; intros s.
  - simpl. lia.
  - rewrite played_cons, IH, after_clock. simpl. lia.
Qed.

Lemma played_closing calls s : closing (played w calls s) = closing s.
Proof.
  revert s. induction calls as [|c calls IH]; intros s.
  - reflexivity.
  - rewrite played_cons, IH, after_closing. reflexivity.
Qed.

Lemma played_instance calls s : sameInstance s (played w calls s).
Proof.
  revert s. induction calls as [|c calls IH]; intros s.
  - apply sameInstance_refl.
  - rewrite played_cons. eapply sameInstance_trans; [|apply IH].
    destruct (effect_instance w c (logged c true s)) as [Hb Hk].
    split; [rewrite Hb | rewrite Hk]; reflexivity.
Qed.

Lemma played_trace calls s :
  trace (played w calls s) =
  rev (List.map (fun c => (c, true)) calls) ++ trace s.
Proof.
  revert s. induction calls as [|c calls IH]; intros s.
  - reflexivity.
  - rewrite played_cons, IH.
    destruct (effect_log w c (logged c true s)) as [-> _]. simpl.
    rewrite <- app_assoc. reflexivity.
Qed.

Lemma calmFor_at n s m :
  calmFor w n s -> (clock s <= m < clock s + n)%nat -> fault w m = None.
Proof.
  intros Hc Hm. replace m with (clock s + (m - clock s))%nat by lia.
  apply Hc. lia.
Qed.

Lemma calmFor_from n m s s' :
  calmFor w n s -> (clock s <= clock s')%nat ->
  (clock s' + m <= clock s + n)%nat -> calmFor w m s'.
Proof.
  intros Hc Hle Hm i Hi. apply (calmFor_at n s); [exact Hc | lia].
Qed.

Lemma calmFrom_calmFor n s : calmFrom w s -> calmFor w n s.
Proof. intros Hc i _. apply Hc. lia. Qed.

(** One awaited call that returns, with nothing in the background. *)
Lemma call_next {A} c (k : M A) s :
  closing s = None -> fault w (clock s) = None ->
  (call w c ;; k) s = k (effect w c (logged c true s)).
Proof.
  intros Hq Hf. rewrite (bind_Ok _ _ _ _ _ (call_ok w c s Hf)).
  rewrite (issued_quiet w _ _ _ Hq). reflexivity.
Qed.

Lemma call_next_inv {A} c (k : M A) s a s' :
  closing s = None -> (call w c ;; k) s = (Ok a, s') ->
  fault w (clock s) = None /\ k (effect w c (logged c true s)) = (Ok a, s').
Proof.
  intros Hq Hb. apply bind_Ok_inv in Hb as ([] & s1 & Hc & Hk).
  apply call_Ok_inv in Hc as [Hf ->].
  rewrite (issued_quiet w _ _ _ Hq) in Hk. auto.
Qed.

(** The call now awaited returns, by [Hcalm], from a state that [Hq]
    tells has nothing in the background. *)
Ltac next Hq Hcalm :=
  rewrite call_next;
  [ | rewrite ?after_closing; exact Hq
    | apply (calmFor_at _ _ _ Hcalm); rewrite ?after_clock; lia ].

(** The call awaited in [Hc] returned: [F] records it. *)
Ltac back Hq Hc F :=
  apply call_next_inv in Hc as [F Hc];
  [ rewrite ?after_clock in F | rewrite ?after_closing; exact Hq ].

(** *** [createPage] *)

Lemma configurePage_run s :
  closing s = None -> calmFor w 11 s ->
  exists firstPage,
    firstOf (openPages s ++ [nextPage s]) = Some firstPage
    /\ configurePage w s =
       (Ok (nextPage s),
        played w (configureCalls firstPage (nextPage s)) s).
Proof.
  intros Hq Hcalm.
  assert (Hf0 : fault w (clock s) = None)
    by (apply (calmFor_at _ _ _ Hcalm); lia).
  unfold configurePage.
  assert (Hopen : openPage w s =
                  (Ok (nextPage s), effect w newPage (logged newPage true s))).
  { unfold openPage, bind at 1, gets. rewrite call_next by assumption.
    reflexivity. }
  rewrite (bind_Ok _ _ _ _ _ Hopen).
  assert (Hlist : listPages w (effect w newPage (logged newPage true s)) =
                  (Ok (openPages s ++ [nextPage s]),
                   effect w pages
                     (logged pages true
                        (effect w newPage (logged newPage true s))))).
  { unfold listPages. next Hq Hcalm. reflexivity. }
  rewrite (bind_Ok _ _ _ _ _ Hlist).
  destruct (openPages s ++ [nextPage s]) as [|firstPage rest] eqn:Hpages.
  { destruct (openPages s); discriminate. }
  exists firstPage. split; [reflexivity|].
  do 9 next Hq Hcalm. reflexivity.
Qed.

Lemma configurePage_Ok_calm s page s1 :
  closing s = None -> configurePage w s = (Ok page, s1) -> calmFor w 11 s.
Proof.
  intros Hq Hc. unfold configurePage in Hc.
  apply bind_Ok_inv in Hc as (p & sa & Ho & Hc).
  unfold openPage in Ho.
  apply bind_Ok_inv in Ho as (p' & sb & Hg & Ho).
  apply gets_Ok_inv in Hg as [<- <-].
  back Hq Ho F0. apply ret_Ok_inv in Ho as [<- <-].
  apply bind_Ok_inv in Hc as (ps & sc & Hl & Hc).
  unfold listPages in Hl. back Hq Hl F1.
  apply gets_Ok_inv in Hl as [<- <-].
  destruct (openPages _) as [|firstPage rest] in Hc; [discriminate|].
  back Hq Hc F2. back Hq Hc F3. back Hq Hc F4. back Hq Hc F5.
  back Hq Hc F6. back Hq Hc F7. back Hq Hc F8. back Hq Hc F9.
  back Hq Hc F10.
  intros i Hi.
  do 11 (destruct i as [|i];
         [rewrite ?Nat.add_0_r, ?Nat.add_succ_r, ?Nat.add_0_r; assumption|]).
  lia.
Qed.

(** What a [createPage] that returns has done. *)
Lemma createPage_Ok_played s page s1 :
  closing s = None -> createPage w s = (Ok page, s1) ->
  calmFor w 11 s /\ page = nextPage s
  /\ exists firstPage,
       firstOf (openPages s ++ [page]) = Some firstPage
       /\ s1 = played w (configureCalls firstPage page) s.
Proof.
  intros Hq Hc. apply createPage_Ok_inv in Hc as (b & Hb & Hc).
  pose proof (configurePage_Ok_calm s page s1 Hq Hc) as Hcalm.
  destruct (configurePage_run s Hq Hcalm) as (firstPage & Hfirst & Hrun).
  rewrite Hrun in Hc. apply Ok_inv in Hc as [<- <-].
  split; [exact Hcalm|]. split; [reflexivity|]. eauto.
Qed.

Lemma createPage_run s b :
  browser s = Some b -> closing s = None -> calmFor w 11 s ->
  exists firstPage,
    firstOf (openPages s ++ [nextPage s]) = Some firstPage
    /\ createPage w s =
       (Ok (nextPage s),
        played w (configureCalls firstPage (nextPage s)) s).
Proof.
  intros Hb Hq Hcalm.
  destruct (configurePage_run s Hq Hcalm) as (firstPage & Hfirst & Hrun).
  exists firstPage. split; [exact Hfirst|].
  rewrite (createPage_unfold w s b Hb). apply tryCatch_Ok. exact Hrun.
Qed.

(** *** [checkIfLoggedIn] and [setup] *)

Lemma modify_next {A} f (k : M A) s : (modify f ;; k) s = k (f s).
Proof. reflexivity. Qed.

Lemma played_urls_goto page url s :
  urls (effect w (goto page url) (logged (goto page url) true s)) !! page
  = Some (landing w url).
Proof. simpl. apply lookup_insert_eq. Qed.

(** After the page is there: the navigation, the verdict on the address
    and the closing of the page. *)
Lemma verify_run page s :
  closing s = None -> calmFor w 2 s ->
  (call w (goto page loginUrl) ;;
   url <- pageUrl page ;;
   call w (pageClose page) ;;
   if negb (endsWith url (lit "/login"))
   then ret tt else throw (SessionExpired notLoggedIn)) s
  = (if endsWith (landing w loginUrl) (lit "/login")
     then Throw (SessionExpired notLoggedIn) else Ok tt,
     played w (verifyCalls page) s).
Proof.
  intros Hq Hcalm. next Hq Hcalm.
  unfold pageUrl, bind at 1, gets. rewrite played_urls_goto. simpl default.
  cbv zeta. next Hq Hcalm.
  destruct (endsWith (landing w loginUrl) (lit "/login")); reflexivity.
Qed.

Lemma verify_Ok_inv page s s' :
  closing s = None ->
  (call w (goto page loginUrl) ;;
   url <- pageUrl page ;;
   call w (pageClose page) ;;
   if negb (endsWith url (lit "/login"))
   then ret tt else throw (SessionExpired notLoggedIn)) s
  = (Ok tt, s') ->
  calmFor w 2 s /\ endsWith (landing w loginUrl) (lit "/login") = false.
Proof.
  intros Hq Hv. back Hq Hv F0.
  unfold pageUrl, bind at 1, gets in Hv. rewrite played_urls_goto in Hv.
  simpl default in Hv. back Hq Hv F1.
  split.
  - intros i Hi.
    do 2 (destruct i as [|i];
          [rewrite ?Nat.add_0_r, ?Nat.add_succ_r, ?Nat.add_0_r; assumption|]).
    lia.
  - destruct (endsWith (landing w loginUrl) (lit "/login"));
      [discriminate | reflexivity].
Qed.

Lemma setup_run s :
  closing s = None -> calmFor w 14 s ->
  endsWith (landing w loginUrl) (lit "/login") = false ->
  setup w s = (Ok tt, afterSetup w s).
Proof.
  intros Hq Hcalm Hin. unfold setup. apply tryCatch_Ok.
  next Hq Hcalm. rewrite modify_next.
  set (s1 := setBrowser (Some (spawned w))
               (effect w launch (logged launch true s))).
  assert (Hq1 : closing s1 = None) by exact Hq.
  assert (Hc1 : clock s1 = S (clock s)) by reflexivity.
  assert (Hcalm1 : calmFor w 11 s1)
    by (apply (calmFor_from 14 11 s s1 Hcalm); lia).
  destruct (createPage_run s1 (spawned w) eq_refl Hq1 Hcalm1)
    as (firstPage & Hfirst & Hcreate).
  assert (firstPage = nextPage s) as -> by (injection Hfirst as <-; reflexivity).
  unfold checkIfLoggedIn. rewrite (bind_Ok _ _ _ _ _ Hcreate). cbv beta zeta.
  set (s2 := played w (configureCalls (nextPage s) (nextPage s1)) s1).
  assert (Hq2 : closing s2 = None)
    by (subst s2; rewrite played_closing; exact Hq1).
  assert (Hc2 : clock s2 = (clock s + 12)%nat).
  { subst s2. rewrite played_clock, Hc1. simpl. lia. }
  assert (Hcalm2 : calmFor w 2 s2)
    by (apply (calmFor_from 14 2 s s2 Hcalm); lia).
  rewrite (verify_run (nextPage s1) s2 Hq2 Hcalm2), Hin. reflexivity.
Qed.

Lemma setup_Ok_inv s s' :
  closing s = None -> setup w s = (Ok tt, s') ->
  calmFor w 14 s /\ endsWith (landing w loginUrl) (lit "/login") = false.
Proof.
  intros Hq Hs. unfold setup in Hs. apply guarded_Ok_inv in Hs.
  back Hq Hs F0. rewrite modify_next in Hs.
  set (s1 := setBrowser (Some (spawned w))
               (effect w launch (logged launch true s))) in Hs.
  assert (Hq1 : closing s1 = None) by exact Hq.
  assert (Hc1 : clock s1 = S (clock s)) by reflexivity.
  unfold checkIfLoggedIn in Hs.
  apply bind_Ok_inv in Hs as (page & s2 & Hcreate & Hs).
  destruct (createPage_Ok_played s1 page s2 Hq1 Hcreate)
    as (Hcalm1 & -> & firstPage & _ & ->).
  cbv beta zeta in Hs.
  set (s2 := played w (configureCalls firstPage (nextPage s1)) s1) in Hs.
  assert (Hq2 : closing s2 = None)
    by (subst s2; rewrite played_closing; exact Hq1).
  assert (Hc2 : clock s2 = (clock s + 12)%nat).
  { subst s2. rewrite played_clock, Hc1. simpl. lia. }
  destruct (verify_Ok_inv _ s2 s' Hq2 Hs) as [Hcalm2 Hin].
  split; [|exact Hin].
  intros i Hi. destruct i as [|i]; [rewrite Nat.add_0_r; exact F0|].
  destruct (Nat.lt_ge_cases i 11) as [Hlt | Hge].
  - specialize (Hcalm1 i Hlt). rewrite Hc1 in Hcalm1.
    rewrite Nat.add_succ_r. exact Hcalm1.
  - specialize (Hcalm2 (i - 11)%nat ltac:(lia)). rewrite Hc2 in Hcalm2.
    replace (clock s + S i)%nat with (clock s + 12 + (i - 11))%nat by lia.
    exact Hcalm2.
Qed.

End Methods.

End Executions.

(** ** Scenarios *)

Module Scenarios.

Import Lifecycle LifecycleFacts.
Local Open Scope async_scope.

#[local] Existing Instance Samples.plainUtils.

(** The sample state [ready] is the state [setup] leaves on a fresh
    instance, in every world whose first fourteen driver calls return. *)
Lemma setup_is_reached (keepAlive : bool) (faults : list (nat * nat)) :
  Forall (fun f => (14 <= fst f)%nat) faults ->
  setup (Samples.loggedIn faults) (constructed keepAlive)
  = (Ok tt, Samples.ready keepAlive).
Proof.
  intros Hlate.
  assert (Hcalm : Observe.calmFor (Samples.loggedIn faults) 14
                    (constructed keepAlive)).
  { intros n Hn. simpl. unfold Samples.failingAt.
    induction Hlate as [|f faults Hf _ IH]; [reflexivity|].
    simpl. destruct (Nat.eqb_spec (fst f) n) as [Heq|_]; [lia|]. exact IH. }
  rewrite (Executions.setup_run (Samples.loggedIn faults)
             (constructed keepAlive) eq_refl Hcalm);
    [|vm_compute; reflexivity].
  destruct keepAlive; vm_compute; reflexivity.
Qed.

(** C3, as stated, fails. In a run made after [setup] the navigation
    fails with code 408 and [browser.close()] in the guard then fails
    with code 500: the pipeline raised the first error, and [run] raises
    the second. *)
Lemma teardown_failure_masks_error :
  let w := Samples.loggedIn [(25, 408); (26, 500)]%nat in
  let s := Samples.ready false in
  ~ (forall e0 s1,
       pipeline w Samples.profileUrl s = (Throw e0, s1) ->
       fst (run w Samples.profileUrl s) = Throw e0).
Proof.
  cbv zeta. intros Hclaim.
  specialize (Hclaim (DriverError 408)
    (snd (pipeline (Samples.loggedIn [(25, 408); (26, 500)]%nat)
            Samples.profileUrl (Samples.ready false)))).
  assert (Hrun :
    fst (run (Samples.loggedIn [(25, 408); (26, 500)]%nat)
           Samples.profileUrl (Samples.ready false))
    = Throw (DriverError 500)) by (vm_compute; reflexivity).
  rewrite Hrun in Hclaim.
  assert (Hneq : @Throw Output (DriverError 500) = Throw (DriverError 408)
                 -> False) by discriminate.
  apply Hneq, Hclaim. vm_compute. reflexivity.
Qed.

(** The amended C3 at a run, made after [setup], whose navigation fails
    while the teardown works. *)
Lemma run_failure_teardown_navigation :
  let w := Samples.loggedIn [(25, 408)]%nat in
  let s := Samples.ready false in
  let s' := snd (run w Samples.profileUrl s) in
  exists e1 s1,
    pipeline w Samples.profileUrl s = (Throw e1, s1)
    /\ ((exists e0 s0,
           configurePage w s = (Throw e0, s0)
           /\ ((fault w (clock s0) = None /\ e1 = e0)
               \/ (exists code, fault w (clock s0) = Some code
                                /\ e1 = DriverError code)))
        \/ (exists page sp,
              configurePage w s = (Ok page, sp)
              /\ (visit w page Samples.profileUrl sp = (Throw e1, s1)
                  \/ exists out sv,
                       visit w page Samples.profileUrl sp = (Ok out, sv)
                       /\ finish w page sv = (Throw e1, s1))))
    /\ ((fault w (clock s1) = None /\ DriverError 408 = e1
         /\ live s' = false /\ openPages s' = []
         /\ exists t, trace s' = t ++ (browserClose, true) :: trace s1
                      /\ Forall isTreeKill t
                      /\ (closing s1 = None ->
                          t = [] \/ exists p ok, t = [(treeKill p, ok)]))
        \/ (exists code, fault w (clock s1) = Some code
                         /\ DriverError 408 = DriverError code
                         /\ (exists t,
                               trace s' = t ++ (browserClose, false) :: trace s1
                               /\ Forall isTreeKill t)
                         /\ (closing s1 = None ->
                             s' = logged browserClose false s1))).
Proof.
  cbv zeta.
  apply (run_failure_teardown (Samples.loggedIn [(25, 408)]%nat)
           Samples.profileUrl (Samples.ready false)
           {| pid := Some 4242%nat |}).
  - reflexivity.
  - discriminate.
  - vm_compute. reflexivity.
  - vm_compute. reflexivity.
Defined.

(** When [page.close()] throws in the teardown of a run that is not kept
    alive, the promise of [close(page)] is rejected while its executor
    goes on to [browser.close()], and the guard of [run] starts its own
    [close()] before that call has returned: the log shows the failed
    [page.close()], two calls of [browser.close()] and then two calls of
    [treeKill]. The run raises the error of [page.close()] when the
    second [browser.close()] returns, and the error of that call when it
    throws. *)
Lemma page_close_failure_overlaps :
  let s := Samples.ready false in
  let r := run (Samples.loggedIn [(45, 7)]%nat) Samples.profileUrl s in
  let r' := run (Samples.loggedIn [(45, 7); (47, 500)]%nat)
              Samples.profileUrl s in
  fst r = Throw (DriverError 7)
  /\ firstn 5 (trace (snd r)) =
     [(treeKill 4242, true); (treeKill 4242, true); (browserClose, true);
      (browserClose, true); (pageClose 2%nat, false)]
  /\ fst r' = Throw (DriverError 500)
  /\ firstn 4 (trace (snd r')) =
     [(treeKill 4242, true); (browserClose, false); (browserClose, true);
      (pageClose 2%nat, false)].
Proof.
  cbv zeta. repeat split; vm_compute; reflexivity.
Qed.

(** C4, as stated, fails. The navigation to the login address fails with
    code 408: the verification page is page 1, [checkIfLoggedIn] raises
    the error of the navigation, the failed navigation is the last
    driver call it made, and page 1 is still open. *)
Lemma navigation_failure_leaves_page_open :
  let w := Samples.loggedIn [(12, 408)]%nat in
  let s := Samples.launched false in
  let r := checkIfLoggedIn w s in
  fst (createPage w s) = Ok 1%nat
  /\ fst r = Throw (DriverError 408)
  /\ (exists rest, trace (snd r) = (goto 1%nat loginUrl, false) :: rest)
  /\ ~ (~ In 1%nat (openPages (snd r))).
Proof.
  cbv zeta. split; [vm_compute; reflexivity|].
  split; [vm_compute; reflexivity|]. split.
  - eexists. vm_compute. reflexivity.
  - intros Hclosed. apply Hclosed. vm_compute. auto.
Qed.

(** The amended C4 at an expired session: the login address stays, and
    the page is closed before [SessionExpired] is raised. *)
Lemma checkIfLoggedIn_verdict_expired :
  let w := Samples.loggedOut [] in
  let s := Samples.launched false in
  let s1 := snd (createPage w s) in
  let r := checkIfLoggedIn w s in
  (fault w (clock s1) = None ->
   (exists ok,
      trace (snd r) =
      (pageClose 1%nat, ok) :: (goto 1%nat loginUrl, true) :: trace s1)
   /\ (fault w (S (clock s1)) = None ->
       fst r = (if JS.endsWith (landing w loginUrl) (lit "/login")
                then Throw (SessionExpired notLoggedIn) else Ok tt)
       /\ ~ In 1%nat (openPages (snd r)))
   /\ (forall code, fault w (S (clock s1)) = Some code ->
       fst r = Throw (DriverError code)))
  /\ (forall code, fault w (clock s1) = Some code ->
      r = (Throw (DriverError code), logged (goto 1%nat loginUrl) false s1)
      /\ trace (snd r) = (goto 1%nat loginUrl, false) :: trace s1
      /\ openPages (snd r) = openPages s1
      /\ (In 1%nat (openPages s1) -> In 1%nat (openPages (snd r)))).
Proof.
  cbv zeta.
  apply (checkIfLoggedIn_verdict (Samples.loggedOut [])
           (Samples.launched false) 1%nat).
  vm_compute. reflexivity.
Defined.



(** The sample state [launched] is the state a launch leaves. *)
Lemma launched_is_reached (keepAlive : bool) :
  snd ((call (Samples.loggedIn []) launch ;;
        modify (setBrowser (Some (spawned (Samples.loggedIn [])))))%async
         (constructed keepAlive))
  = Samples.launched keepAlive.
Proof. reflexivity. Qed.

(** C8 at its failing input: a running browser with pid 4242,
    [browser.close()] returns, and the callback of [treeKill] is handed
    an error. [close] resolves: the failure to kill the process is not
    reported. *)
Lemma kill_failure_is_not_reported :
  let w := Samples.loggedIn [(2, 1)]%nat in
  let r := close w None (Samples.launched false) in
  fst r = Ok tt
  /\ trace (snd r) =
     [(treeKill 4242, false); (browserClose, true); (launch, true)].
Proof.
  cbv zeta. split; vm_compute; reflexivity.
Qed.

End Scenarios.

(** ** The constructor *)

Module ConstructFacts.

Import Construct.

Lemma cookie_check (v : value) :
  negb (truthy v) = false /\ truthy v && isNot "string" v = false <->
  exists s, v = VString s /\ s <> [].
Proof.
  destruct v as [| |b|n| |s|]; simpl; split;
    try (intros [? ?]; discriminate);
    try (intros [s' [? ?]]; discriminate).
  - destruct b; intros [? ?]; discriminate.
  - destruct (n =? 0)%Z; intros [? ?]; discriminate.
  - intros [Hs _]. exists s. split; [reflexivity|].
    destruct s; [discriminate | discriminate].
  - intros [s' [[= <-] Hne]]. destruct s; [congruence | auto].
Qed.

Lemma string_check (v : value) :
  truthy v && isNot "string" v = false <->
  (truthy v = true -> exists s, v = VString s).
Proof.
  split.
  - intros Hc Ht. rewrite Ht in Hc. simpl in Hc.
    destruct v; try discriminate. eauto.
  - intros Hs. destruct (truthy v) eqn:Ht; [|reflexivity].
    destruct (Hs eq_refl) as [s ->]. reflexivity.
Qed.

Lemma boolean_check (v : value) :
  defined v && isNot "boolean" v = false <->
  v = VUndefined \/ exists b, v = VBool b.
Proof.
  destruct v as [| |b|n| |s|]; simpl; split; auto; try discriminate;
    try (intros [? | [b' ?]]; discriminate).
  intros _. eauto.
Qed.

Lemma number_check (v : value) :
  defined v && isNot "number" v = false <->
  v = VUndefined \/ v = VNaN \/ exists n, v = VNumber n.
Proof.
  destruct v as [| |b|n| |s|]; simpl; split; auto; try discriminate;
    try (intros [? | [? | [n' ?]]]; discriminate).
  intros _. eauto.
Qed.


Lemma construct_inr (u o : gmap jsstring value) :
  construct u = inr o ->
  o = u ∪ defaults
  /\ (exists s, get u "sessionCookieValue" = VString s /\ s <> [])
  /\ (get u "keepAlive" = VUndefined \/ exists b, get u "keepAlive" = VBool b).
Proof.
  rewrite <- cookie_check, <- boolean_check.
  unfold construct.
  destruct (negb (truthy (get u "sessionCookieValue"))); [discriminate|].
  destruct (truthy (get u "sessionCookieValue")
            && isNot "string" (get u "sessionCookieValue")); [discriminate|].
  destruct (truthy (get u "userAgent") && isNot "string" (get u "userAgent"));
    [discriminate|].
  destruct (defined (get u "keepAlive") && isNot "boolean" (get u "keepAlive"));
    [discriminate|].
  destruct (defined (get u "timeout") && isNot "number" (get u "timeout"));
    [discriminate|].
  destruct (defined (get u "headless") && isNot "boolean" (get u "headless"));
    [discriminate|].
  intros [= <-]. auto.
Qed.



End ConstructFacts.

(** ** The table of blocked hosts *)

Module BlockedHostsFacts.

Import JSFacts Normalize Requests RequestsFacts.

(** One line of the list, read as [getBlockedHosts] reads it. *)
Lemma assign_true (o : gmap jsstring bool) (k k' : jsstring) :
  assign o k true !! k' = Some true <->
  o !! k' = Some true \/ (k' = k /\ k <> lit "__proto__").
Proof.
  unfold assign. destruct (eqb k (lit "__proto__")) eqn:Hp.
  - apply eqb_eq in Hp. split; [auto | intros [? | [_ ?]]; [auto | congruence]].
  - apply eqb_neq in Hp. destruct (decide (k = k')) as [<- | Hne].
    + rewrite lookup_insert_eq. split; auto.
    + rewrite lookup_insert_ne by exact Hne. split; [auto|].
      intros [? | [? _]]; [auto | congruence].
Qed.

Lemma assign_values (o : gmap jsstring bool) (k : jsstring) :
  (forall k' v, o !! k' = Some v -> v = true) ->
  forall k' v, assign o k true !! k' = Some v -> v = true.
Proof.
  intros Ho k' v. unfold assign. destruct (eqb k (lit "__proto__")); [apply Ho|].
  destruct (decide (k = k')) as [<- | Hne].
  - rewrite lookup_insert_eq. congruence.
  - rewrite lookup_insert_ne by exact Hne. apply Ho.
Qed.

(** The host a line of the list names, when it names one. *)
Lemma lines_fold (lines : list jsstring) (o : gmap jsstring bool)
  (k : jsstring) :
  foldl (fun prev curr =>
           match split space curr with
           | frag0 :: frag1 :: _ =>
               if eqb frag0 (lit "0.0.0.0")
               then assign prev (trim frag1) true
               else prev
           | _ => prev
           end) o lines !! k = Some true <->
  o !! k = Some true
  \/ (k <> lit "__proto__"
      /\ exists line frag rest,
           In line lines
           /\ split space line = lit "0.0.0.0" :: frag :: rest
           /\ trim frag = k).
Proof.
  revert o. induction lines as [|line lines IH]; intros o; simpl.
  - split; [auto | intros [? | (_ & ? & ? & ? & [] & _)]; auto].
  - rewrite IH. clear IH.
    destruct (split space line) as [|frag0 [|frag1 rest]] eqn:Hs.
    + split; (intros [? | (Hk & l & f & r & Hin & Hl & Ht)]; [auto | right]);
        (split; [exact Hk|]); exists l, f, r; try tauto.
      destruct Hin as [<- | Hin]; [congruence | tauto].
    + split; (intros [? | (Hk & l & f & r & Hin & Hl & Ht)]; [auto | right]);
        (split; [exact Hk|]); exists l, f, r; try tauto.
      destruct Hin as [<- | Hin]; [congruence | tauto].
    + destruct (eqb frag0 (lit "0.0.0.0")) eqn:He.
      * apply eqb_eq in He. subst frag0. rewrite assign_true. split.
        -- intros [[? | [-> Hk]] | (Hk & l & f & r & Hin & Hl & Ht)].
           ++ auto.
           ++ right. split; [exact Hk|]. exists line, frag1, rest. auto.
           ++ right. split; [exact Hk|]. exists l, f, r. auto.
        -- intros [? | (Hk & l & f & r & [<- | Hin] & Hl & Ht)].
           ++ auto.
           ++ left. right. rewrite Hs in Hl. injection Hl as <- <-.
              subst k. auto.
           ++ right. split; [exact Hk|]. exists l, f, r. auto.
      * apply eqb_neq in He.
        split; (intros [? | (Hk & l & f & r & Hin & Hl & Ht)]; [auto | right]);
          (split; [exact Hk|]); exists l, f, r; try tauto.
        destruct Hin as [<- | Hin]; [|tauto].
        rewrite Hs in Hl. injection Hl as Hf _ _. destruct (He Hf).
Qed.

Lemma lines_fold_values (lines : list jsstring) (o : gmap jsstring bool) :
  (forall k v, o !! k = Some v -> v = true) ->
  forall k v,
    foldl (fun prev curr =>
             match split space curr with
             | frag0 :: frag1 :: _ =>
                 if eqb frag0 (lit "0.0.0.0")
                 then assign prev (trim frag1) true
                 else prev
             | _ => prev
             end) o lines !! k = Some v -> v = true.
Proof.
  revert o. induction lines as [|line lines IH]; intros o Ho; simpl;
    [exact Ho|].
  apply IH.
  destruct (split space line) as [|frag0 [|frag1 rest]]; try exact Ho.
  destruct (eqb frag0 (lit "0.0.0.0")); [|exact Ho].
  apply assign_values, Ho.
Qed.

Lemma inserted_true_iff (ks : list jsstring) (o : gmap jsstring bool)
  (k : jsstring) :
  foldl (fun o k => <[k := true]> o) o ks !! k = Some true <->
  In k ks \/ o !! k = Some true.
Proof.
  split; [|apply inserted_true].
  revert o. induction ks as [|k' ks IH]; intros o; simpl; [auto|].
  intros Hl. destruct (IH _ Hl) as [Hin | Ho]; [auto|].
  destruct (decide (k' = k)) as [-> | Hne]; [auto|].
  rewrite lookup_insert_ne in Ho by exact Hne. auto.
Qed.

Lemma inserted_values (ks : list jsstring) (o : gmap jsstring bool) :
  (forall k v, o !! k = Some v -> v = true) ->
  forall k v, foldl (fun o k => <[k := true]> o) o ks !! k = Some v -> v = true.
Proof.
  revert o. induction ks as [|k' ks IH]; intros o Ho; simpl; [exact Ho|].
  apply IH. intros k v. destruct (decide (k' = k)) as [-> | Hne].
  - rewrite lookup_insert_eq. congruence.
  - rewrite lookup_insert_ne by exact Hne. apply Ho.
Qed.

(** The hosts the table maps to [true]. *)
Lemma getBlockedHosts_lookup (blockedHostsList host : jsstring) :
  getBlockedHosts blockedHostsList !! host = Some true <->
  In host hardcodedHosts
  \/ (host <> lit "__proto__"
      /\ exists line frag rest,
           In line (split newline blockedHostsList)
           /\ split space line = lit "0.0.0.0" :: frag :: rest
           /\ trim frag = host).
Proof.
  unfold getBlockedHosts.
  rewrite inserted_true_iff, lines_fold, lookup_empty.
  split; [intros [? | [? | ?]] | intros [? | ?]]; auto; discriminate.
Qed.

(** The table of [getBlockedHosts], entry by entry. A name is in the
    table exactly when it is one of the ten hardcoded hosts, or some
    line of the list splits on spaces into ["0.0.0.0"], then a fragment
    whose trimmed text is the name, then anything, the name
    ["__proto__"] excepted; and every entry of the table is [true]. *)
Theorem getBlockedHosts_entries (blockedHostsList host : jsstring) :
  (getBlockedHosts blockedHostsList !! host = Some true <->
   In host hardcodedHosts
   \/ (host <> lit "__proto__"
       /\ exists line frag rest,
            In line (split newline blockedHostsList)
            /\ split space line = lit "0.0.0.0" :: frag :: rest
            /\ trim frag = host))
  /\ getBlockedHosts blockedHostsList !! host <> Some false.
Proof.
  split; [apply getBlockedHosts_lookup|].
  unfold getBlockedHosts. intros Hf.
  assert (false = true); [|discriminate].
  eapply inserted_values; [|exact Hf].
  apply lines_fold_values. intros k v. rewrite lookup_empty. discriminate.
Qed.

Section Handler.
Context `{Utils}.

(** The handler with the table of [getBlockedHosts]: a script, xhr,
    fetch or document request is aborted exactly when its hostname is
    not empty and is a hardcoded host or a host named by a line of the
    list. *)
Theorem listed_hosts_are_blocked (blockedHostsList : jsstring)
  (req : Request) :
  In (resourceType req) blockedResourcesByHost ->
  let host := getHostname (url req) in
  onRequest (getBlockedHosts blockedHostsList) req = Abort <->
  host <> []
  /\ (In host hardcodedHosts
      \/ (host <> lit "__proto__"
          /\ exists line frag rest,
               In line (split newline blockedHostsList)
               /\ split space line = lit "0.0.0.0" :: frag :: rest
               /\ trim frag = host)).
Proof.
  intros Hrt. cbv zeta.
  rewrite <- (getBlockedHosts_lookup blockedHostsList (getHostname (url req))).
  rewrite onRequest_Abort. split.
  - intros [Hb | (_ & Hne & Hl)]; [|auto].
    exfalso. revert Hrt Hb. unfold blockedResourcesByHost, blockedResources.
    simpl. intros [<- | [<- | [<- | [<- | []]]]] Hb;
      repeat (destruct Hb as [Hb | Hb]; [discriminate Hb|]); exact Hb.
  - intros [Hne Hl]. right. auto.
Qed.

End Handler.

(** [listed_hosts_are_blocked] at the request for a script of a listed
    host. *)
Lemma listed_hosts_are_blocked_script :
  let req := {| resourceType := lit "script";
                url := lit "https://tracker.example/t.js" |} in
  let host := @getHostname Samples.readingUtils (url req) in
  @onRequest Samples.readingUtils (getBlockedHosts Fixtures.hostsList) req
  = Abort <->
  host <> []
  /\ (In host hardcodedHosts
      \/ (host <> lit "__proto__"
          /\ exists line frag rest,
               In line (split newline Fixtures.hostsList)
               /\ split space line = lit "0.0.0.0" :: frag :: rest
               /\ trim frag = host)).
Proof.
  cbv zeta.
  apply (@listed_hosts_are_blocked Samples.readingUtils Fixtures.hostsList
           {| resourceType := lit "script";
              url := lit "https://tracker.example/t.js" |}).
  simpl. auto.
Defined.

End BlockedHostsFacts.

(** ** Scrolling: pages that do and do not end *)

Module ScrollMore.

Import Scroll ScrollFacts.
Local Open Scope Z_scope.

(** On a document that stays ahead of the scrolling, every tick reading
    a height above the distance accumulated by then, the timer is never
    cleared: however many ticks are followed, the loop has not stopped,
    and the promise of [autoScroll] stays pending. *)
Theorem autoScroll_never_stops (scrollHeightAt : nat -> Z) :
  (forall n, 500 * Z.of_nat (S n) < scrollHeightAt n) ->
  forall fuel, autoScroll scrollHeightAt fuel = None.
Proof.
  intros Hahead fuel. unfold autoScroll.
  apply (timer_running scrollHeightAt fuel); [|lia].
  intros k _. unfold reached, distance. specialize (Hahead k). lia.
Qed.

(** [autoScroll_never_stops] at a document that grows by 600 per tick:
    after a thousand ticks, as after any number, the loop still runs. *)
Lemma autoScroll_never_stops_endless :
  autoScroll Fixtures.endless 1000 = None.
Proof.
  apply (autoScroll_never_stops Fixtures.endless).
  intros n. unfold Fixtures.endless. lia.
Defined.

(** On a document of constant height the loop scrolls at least once,
    also when there is nothing to scroll, and stops after
    [max 1 (ceil (height / 500))] ticks: the accumulated distance is the
    least positive multiple of 500 that reaches the height. *)
Theorem autoScroll_static (height : Z) (fuel : nat) :
  let n := Z.to_nat ((height - 1) / 500) in
  ((n < fuel)%nat ->
   autoScroll (fun _ => height) fuel =
   Some {| ticks := S n; totalHeight := 500 * Z.of_nat (S n) |})
  /\ ((fuel <= n)%nat -> autoScroll (fun _ => height) fuel = None)
  /\ height <= 500 * Z.of_nat (S n)
  /\ (500 < height -> 500 * Z.of_nat (S n) < height + 500).
Proof.
  cbv zeta.
  set (n := Z.to_nat ((height - 1) / 500)).
  assert (Hn : height <= 500 * Z.of_nat (S n)
               /\ (500 < height -> 500 * Z.of_nat (S n) < height + 500)
               /\ ((0 < n)%nat -> 500 * Z.of_nat n < height)).
  { subst n.
    pose proof (Z.div_mod (height - 1) 500 ltac:(lia)) as Hdm.
    pose proof (Z.mod_pos_bound (height - 1) 500 ltac:(lia)) as Hmod.
    revert Hdm Hmod.
    generalize ((height - 1) / 500), ((height - 1) mod 500).
    intros q r Hdm Hmod. lia. }
  destruct Hn as (Hreach & Hover & Hbefore).
  assert (Hfirst : reached (fun _ => height) n).
  { unfold reached, distance. lia. }
  assert (Hleast : forall k, (k < n)%nat -> ~ reached (fun _ => height) k).
  { intros k Hk. unfold reached, distance.
    assert (500 * Z.of_nat (S k) <= 500 * Z.of_nat n) by lia. lia. }
  repeat split; auto.
  - intros Hfuel. unfold autoScroll.
    apply (timer_stops (fun _ => height) n Hfirst Hleast fuel 0%nat); lia.
  - intros Hfuel. unfold autoScroll.
    apply (timer_running (fun _ => height) n Hleast fuel 0%nat); lia.
Qed.

End ScrollMore.

(** ** Pages, sessions and overlapping teardowns *)

Module LifecycleMore.

Import JS JSFacts Normalize Lifecycle LifecycleFacts Observe Executions.
Local Open Scope async_scope.

Section Methods.
Context `{Runtime} `{Utils} (w : World).

Lemma closePage_self page : closePage page [page] = [].
Proof.
  unfold closePage. cbn [List.filter]. rewrite Nat.eqb_refl. reflexivity.
Qed.

Lemma closePage_launch_page n : closePage n [n; S n] = [S n].
Proof.
  assert (Hne : Nat.eqb (S n) n = false) by (apply Nat.eqb_neq; lia).
  unfold closePage. cbn [List.filter]. rewrite Nat.eqb_refl, Hne.
  reflexivity.
Qed.

Lemma configured_openPages firstPage page s :
  openPages (played w (configureCalls firstPage page) s) =
  closePage firstPage (openPages s ++ [nextPage s]).
Proof. reflexivity. Qed.


Lemma afterSetup_facts s :
  browser (afterSetup w s) = Some (spawned w)
  /\ keepAlive (afterSetup w s) = keepAlive s
  /\ live (afterSetup w s) = true
  /\ openPages (afterSetup w s) = []
  /\ closing (afterSetup w s) = closing s
  /\ clock (afterSetup w s) = (clock s + 14)%nat.
Proof.
  split; [reflexivity|]. split; [reflexivity|]. split; [reflexivity|].
  split; [|split].
  - change (openPages (afterSetup w s))
      with (closePage (S (nextPage s))
              (closePage (nextPage s) [nextPage s; S (nextPage s)])).
    rewrite closePage_launch_page. apply closePage_self.
  - unfold afterSetup. rewrite !played_closing. reflexivity.
  - unfold afterSetup. rewrite !played_clock. simpl. lia.
Qed.


(** The state [close(page)] leaves to its caller when [page.close()]
    throws. *)
Lemma close_page_rejected_state s b p code :
  browser s = Some b -> closing s = None ->
  fault w (clock s) = Some code ->
  close w (Some p) s =
  (Throw (DriverError code),
   setClosing (Some (fault w (S (clock s))))
     (logged browserClose
        (match fault w (S (clock s)) with None => true | Some _ => false end)
        (logged (pageClose p) false s))).
Proof.
  intros Hb Hq Hf. rewrite (close_page_rejected w s p code Hf).
  rewrite (issued_quiet w _ _ _ Hq). unfold closeBrowserBehind.
  simpl browser. rewrite Hb. reflexivity.
Qed.

(** What the executor left in the background adds to the log when it is
    resumed. *)
Lemma resume_closing_trace s b f :
  browser s = Some b -> closing s = Some f ->
  exists t,
    trace (resume w s) = t ++ trace s
    /\ ((f = None /\ exists n killed,
           pid b = Some (S n) /\ t = [(treeKill (S n), killed)])
        \/ ((f <> None \/ pid b = None \/ pid b = Some 0%nat) /\ t = [])).
Proof.
  intros Hb Hc. unfold resume. rewrite Hc.
  destruct f as [code|].
  { exists []. split; [reflexivity|]. right. split; [left; discriminate|].
    reflexivity. }
  simpl browser. rewrite Hb.
  destruct (pid b) as [[|n]|] eqn:Hpid.
  - exists []. split; [reflexivity|]. right. auto.
  - destruct (direct_treeKill_trace w (S n)
                (effect w browserClose (setClosing None s))) as [killed Ht].
    exists [(treeKill (S n), killed)]. split; [exact Ht|].
    left. split; [reflexivity|]. eauto.
  - exists []. split; [reflexivity|]. right. auto.
Qed.

(** [close(page)] when [page.close()] throws: the promise is rejected
    with that error, and the caller is resumed when the executor has made
    its call of [browser.close()] and awaits it: the call is in the log,
    the browser is not closed yet. The first call the caller then awaits
    enters the log before the [treeKill] of that executor, which is made
    if [browser.close()] returns and the process has a pid; after it
    nothing is left in the background. *)
Theorem close_rejects_before_browser_closes s b p code :
  browser s = Some b -> closing s = None ->
  fault w (clock s) = Some code ->
  let r := close w (Some p) s in
  fst r = Throw (DriverError code)
  /\ (exists ok,
        trace (snd r) = (browserClose, ok) :: (pageClose p, false) :: trace s
        /\ (ok = true <-> fault w (S (clock s)) = None))
  /\ live (snd r) = live s /\ openPages (snd r) = openPages s
  /\ closing (snd r) = Some (fault w (S (clock s)))
  /\ forall c,
       closing (snd (call w c (snd r))) = None
       /\ exists ok' t,
            trace (snd (call w c (snd r))) = t ++ (c, ok') :: trace (snd r)
            /\ ((fault w (S (clock s)) = None
                 /\ exists n killed,
                      pid b = Some (S n) /\ t = [(treeKill (S n), killed)])
                \/ ((fault w (S (clock s)) <> None
                     \/ pid b = None \/ pid b = Some 0%nat)
                    /\ t = [])).
Proof.
  intros Hb Hq Hf. cbv zeta.
  rewrite (close_page_rejected_state s b p code Hb Hq Hf).
  cbn [fst snd].
  set (ok := match fault w (S (clock s)) with None => true | Some _ => false end).
  set (s1 := setClosing (Some (fault w (S (clock s))))
               (logged browserClose ok (logged (pageClose p) false s))).
  split; [reflexivity|]. split.
  { exists ok. split; [reflexivity|]. subst ok.
    destruct (fault w (S (clock s))); split; congruence. }
  split; [reflexivity|]. split; [reflexivity|]. split; [reflexivity|].
  intros c. split; [apply call_closing|].
  assert (Hissued : forall ok',
            exists t, trace (issued w c ok' s1) = t ++ (c, ok') :: trace s1
              /\ ((fault w (S (clock s)) = None
                   /\ exists n killed,
                        pid b = Some (S n) /\ t = [(treeKill (S n), killed)])
                  \/ ((fault w (S (clock s)) <> None
                       \/ pid b = None \/ pid b = Some 0%nat)
                      /\ t = []))).
  { intros ok'. unfold issued.
    destruct (resume_closing_trace (logged c ok' s1) b
                (fault w (S (clock s))) Hb eq_refl) as (t & Ht & Hshape).
    exists t. split; [exact Ht | exact Hshape]. }
  unfold call. destruct (fault w (clock s1)) as [code'|]; cbn [snd].
  - destruct (Hissued false) as (t & Ht & Hshape). exists false, t.
    split; [exact Ht | exact Hshape].
  - destruct (Hissued true) as (t & Ht & Hshape). exists true, t.
    split; [|exact Hshape].
    destruct (effect_log w c (issued w c true s1)) as [-> _].
    exact Ht.
Qed.

End Methods.

End LifecycleMore.

(** ** The two loops of clicks *)

Module ExpandFacts.

Import JS JSFacts Normalize Lifecycle LifecycleFacts Observe Executions.
Local Open Scope async_scope.

Lemma selectorsQueried_app (t t0 : list (Call * bool)) :
  selectorsQueried (t ++ t0) = selectorsQueried t0 ++ selectorsQueried t.
Proof. unfold selectorsQueried. rewrite rev_app_distr, flat_map_app. reflexivity. Qed.

Lemma selectorsQueried_cons (ev : Call * bool) (t : list (Call * bool)) :
  selectorsQueried (ev :: t) = selectorsQueried t ++ selectorsQueried [ev].
Proof. apply (selectorsQueried_app [ev] t). Qed.

Lemma selectorsQueried_none (t : list (Call * bool)) :
  Forall notQuery t -> selectorsQueried t = [].
Proof.
  induction 1 as [|[c ok] t Hc _ IH]; [reflexivity|].
  rewrite selectorsQueried_cons, IH. destruct c; try reflexivity.
  destruct Hc.
Qed.

Lemma isTreeKill_notQuery (t : list (Call * bool)) :
  Forall isTreeKill t -> Forall notQuery t.
Proof.
  apply List.Forall_impl. intros [c ok]. unfold isTreeKill, notQuery. simpl.
  destruct c; tauto.
Qed.

Section Methods.
Context `{Runtime} `{Utils} (w : World).

(** A loop whose body swallows every error comes to its end. *)
Lemma forEach_guarded {A} (l : list A) (body : A -> M unit) s :
  exists s', forEach l (fun x => tryCatch (body x) (fun _ => ret tt)) s
             = (Ok tt, s').
Proof.
  revert s. induction l as [|x l IH]; intros s; simpl.
  - eexists. reflexivity.
  - unfold bind, tryCatch at 1.
    destruct (body x s) as [[[]|e] s1]; apply IH.
Qed.

(** What one awaited call adds to the log, whether it returns or
    throws. *)
Lemma call_trace c s :
  exists ok t,
    trace (snd (call w c s)) = t ++ (c, ok) :: trace s
    /\ Forall isTreeKill t
    /\ (fst (call w c s) = Ok tt <-> ok = true).
Proof.
  unfold call. destruct (fault w (clock s)) as [code|]; cbn [fst snd].
  - destruct (issued_trace w c false s) as (t & Ht & Hk & _).
    exists false, t. repeat split; auto; discriminate.
  - destruct (issued_trace w c true s) as (t & Ht & Hk & _).
    exists true, t. destruct (effect_log w c (issued w c true s)) as [-> _].
    repeat split; auto.
Qed.

(** One round of the first loop: the selector is looked up once, and
    clicked at most once; no error leaves the round. *)
Lemma section_round page selector s :
  exists s' ok t,
    tryCatch
      (present <- found w page selector ;;
       if present then call w (click page selector) else ret tt)
      (fun _ => ret tt) s = (Ok tt, s')
    /\ trace s' = t ++ (query page selector, ok) :: trace s
    /\ Forall notQuery t.
Proof.
  unfold tryCatch, found, document, pageUrl, bind, gets, ret.
  destruct (call_trace (query page selector) s) as (ok & t & Ht & Hk & _).
  apply isTreeKill_notQuery in Hk.
  destruct (call w (query page selector) s) as [[[]|e] s1]; cbn [snd] in Ht.
  - destruct (Page.has _ selector).
    + destruct (call_trace (click page selector) s1)
        as (ok' & t' & Ht' & Hk' & _).
      apply isTreeKill_notQuery in Hk'.
      assert (Hround :
                trace (snd (call w (click page selector) s1)) =
                (t' ++ (click page selector, ok') :: t)
                ++ (query page selector, ok) :: trace s).
      { rewrite Ht', Ht, <- app_assoc. reflexivity. }
      assert (Hquiet : Forall notQuery (t' ++ (click page selector, ok') :: t)).
      { apply Forall_app. split; [exact Hk'|].
        constructor; [exact I | exact Hk]. }
      destruct (call w (click page selector) s1) as [[[]|e] s2];
        cbn [snd] in Hround; eauto 6.
    + exists s1, ok, t. auto.
  - exists s1, ok, t. auto.
Qed.

Lemma sections_loop page selectors s :
  exists s',
    forEach selectors (fun buttonSelector =>
      tryCatch
        (present <- found w page buttonSelector ;;
         if present then call w (click page buttonSelector) else ret tt)
        (fun _ => ret tt)) s = (Ok tt, s')
    /\ selectorsQueried (trace s') = selectorsQueried (trace s) ++ selectors.
Proof.
  revert s. induction selectors as [|selector selectors IH]; intros s.
  - exists s. split; [reflexivity|]. rewrite app_nil_r. reflexivity.
  - destruct (section_round page selector s) as (s1 & ok & t & Hround & Ht & Hk).
    destruct (IH s1) as (s' & Hloop & Hq).
    exists s'. split.
    + cbn [forEach]. rewrite (bind_Ok _ _ _ _ _ Hround). exact Hloop.
    + rewrite Hq, Ht, selectorsQueried_app, selectorsQueried_cons.
      rewrite (selectorsQueried_none t Hk), app_nil_r, <- app_assoc.
      reflexivity.
Qed.

(** The first loop of [run] never throws, whatever the driver does: it
    looks up each of the four section buttons once, in the order of the
    list, going on after a lookup or a click that failed. *)
Theorem expandSections_never_throws page s :
  exists s',
    expandSections w page s = (Ok tt, s')
    /\ selectorsQueried (trace s') =
       selectorsQueried (trace s) ++ expandButtonsSelectors.
Proof. exact (sections_loop page expandButtonsSelectors s). Qed.

(** One round of the second loop: the clicks are guarded, the lookup is
    not. *)
Lemma description_round page selector s :
  let round :=
    call w (queryAll page selector) ;;
    doc <- document w page ;;
    forEach (seq 0 (Page.count doc selector)) (fun button =>
      tryCatch (call w (clickHandle page selector button))
               (fun _ => ret tt)) in
  (exists s', round s = (Ok tt, s'))
  \/ (exists code s' t,
        round s = (Throw (DriverError code), s')
        /\ trace s' = t ++ (queryAll page selector, false) :: trace s
        /\ Forall isTreeKill t).
Proof.
  cbv zeta.
  destruct (fault w (clock s)) as [code|] eqn:Hf.
  - right. rewrite (bind_Throw _ _ _ _ _ (call_fails w _ _ _ Hf)).
    destruct (issued_trace w (queryAll page selector) false s)
      as (t & Ht & Hk & _).
    exists code, (issued w (queryAll page selector) false s), t. auto.
  - left. rewrite (bind_Ok _ _ _ _ _ (call_ok w _ _ Hf)).
    unfold document, pageUrl, bind, gets, ret.
    apply forEach_guarded.
Qed.

Lemma descriptions_loop page selectors s :
  let loop :=
    forEach selectors (fun seeMoreButtonSelector =>
      call w (queryAll page seeMoreButtonSelector) ;;
      doc <- document w page ;;
      forEach (seq 0 (Page.count doc seeMoreButtonSelector)) (fun button =>
        tryCatch (call w (clickHandle page seeMoreButtonSelector button))
                 (fun _ => ret tt))) in
  (exists s', loop s = (Ok tt, s'))
  \/ (exists code s' selector t rest,
        loop s = (Throw (DriverError code), s')
        /\ In selector selectors
        /\ trace s' = t ++ (queryAll page selector, false) :: rest
        /\ Forall isTreeKill t).
Proof.
  cbv zeta. revert s.
  induction selectors as [|selector selectors IH]; intros s.
  - left. exists s. reflexivity.
  - cbn [forEach].
    destruct (description_round page selector s)
      as [[s1 Hround] | (code & s1 & t & Hround & Ht & Hk)].
    + rewrite (bind_Ok _ _ _ _ _ Hround).
      destruct (IH s1) as [Hok | (code & s' & sel & t & rest & Hl & Hin & Ht & Hk)];
        [left; exact Hok | right].
      exists code, s', sel, t, rest. simpl. auto.
    + right. rewrite (bind_Throw _ _ _ _ _ Hround).
      exists code, s1, selector, t, (trace s). simpl. auto.
Qed.

(** The second loop of [run] throws only when a lookup of [page.$$]
    throws, with the error of that lookup, which is then the last call
    awaited; a click that fails is passed over. *)
Theorem expandDescriptions_throws_on_lookup page s :
  let r := expandDescriptions w page s in
  (fst r = Ok tt \/ exists code, fst r = Throw (DriverError code))
  /\ (forall e, fst r = Throw e ->
      exists selector t rest,
        In selector seeMoreButtonsSelectors
        /\ trace (snd r) = t ++ (queryAll page selector, false) :: rest
        /\ Forall isTreeKill t).
Proof.
  cbv zeta. unfold expandDescriptions.
  destruct (descriptions_loop page seeMoreButtonsSelectors s)
    as [[s' Hl] | (code & s' & sel & t & rest & Hl & Hin & Ht & Hk)];
    cbv zeta in Hl; rewrite Hl; cbn [fst snd].
  - split; [left; reflexivity | discriminate].
  - split; [right; exists code; reflexivity|].
    intros e _. exists sel, t, rest. auto.
Qed.

End Methods.

End ExpandFacts.

(** ** What a run returns *)

Module OutputFacts.

Import JS JSFacts Normalize Lifecycle LifecycleFacts Observe Executions.
Local Open Scope async_scope.

Lemma sameAddresses_refl s : sameAddresses s s.
Proof. reflexivity. Qed.

Lemma sameAddresses_trans s1 s2 s3 :
  sameAddresses s1 s2 -> sameAddresses s2 s3 -> sameAddresses s1 s3.
Proof. unfold sameAddresses. congruence. Qed.

Ltac relation_laws ::=
  first [ exact sameInstance_refl | exact sameInstance_trans
        | exact later_refl | exact later_trans
        | exact sameProcess_refl | exact sameProcess_trans
        | exact sameAddresses_refl | exact sameAddresses_trans ].

Section Methods.
Context `{Runtime} `{Utils} (w : World).

Lemma effect_urls c s : staysPut c -> urls (effect w c s) = urls s.
Proof. destruct c; simpl; tauto. Qed.

Lemma direct_urls p s : urls (snd (direct w (treeKill p) s)) = urls s.
Proof. unfold direct. destruct (fault w (clock s)); reflexivity. Qed.

Lemma resume_urls s : urls (resume w s) = urls s.
Proof.
  unfold resume. destruct (closing s) as [[code|]|]; try reflexivity.
  simpl browser. destruct (browser s) as [b|]; [|reflexivity].
  destruct (pid b) as [[|n]|]; try reflexivity.
  rewrite direct_urls. reflexivity.
Qed.

Lemma call_sameAddresses c :
  staysPut c -> preserves sameAddresses (call w c).
Proof.
  intros Hc s. unfold sameAddresses, call, issued.
  destruct (fault w (clock s)); cbn [snd];
    rewrite ?effect_urls by exact Hc; rewrite resume_urls; reflexivity.
Qed.

#[local] Hint Extern 1 (preserves sameAddresses (call _ _)) =>
  apply call_sameAddresses; exact I : lifecycle.

Lemma expandSections_sameAddresses page :
  preserves sameAddresses (expandSections w page).
Proof. unfold expandSections, found, document, pageUrl. kept. Qed.

Lemma expandDescriptions_sameAddresses page :
  preserves sameAddresses (expandDescriptions w page).
Proof. unfold expandDescriptions, document, pageUrl. kept. Qed.

Lemma call_then {A} c (k : M A) s a s' :
  staysPut c -> (call w c ;; k) s = (Ok a, s') ->
  exists s1, urls s1 = urls s /\ k s1 = (Ok a, s').
Proof.
  intros Hc Hb. apply bind_Ok_inv in Hb as ([] & s1 & Hcall & Hk).
  exists s1. split; [|exact Hk].
  pose proof (call_sameAddresses c Hc s) as Hu. rewrite Hcall in Hu.
  exact Hu.
Qed.

Lemma keeps_then {A} (m : M unit) (k : M A) s a s' :
  preserves sameAddresses m -> (m ;; k) s = (Ok a, s') ->
  exists s1, urls s1 = urls s /\ k s1 = (Ok a, s').
Proof.
  intros Hm Hb. apply bind_Ok_inv in Hb as ([] & s1 & Hms & Hk).
  exists s1. split; [|exact Hk].
  specialize (Hm s). rewrite Hms in Hm. exact Hm.
Qed.

Lemma document_then {A} page (k : Page.Document -> M A) s :
  (doc <- document w page ;; k doc) s = k (content w (addressOf page s)) s.
Proof. reflexivity. Qed.

Lemma pageUrl_then {A} page (k : jsstring -> M A) s :
  (href <- pageUrl page ;; k href) s = k (addressOf page s) s.
Proof. reflexivity. Qed.

Lemma addressOf_same page s s1 :
  urls s1 = urls s -> addressOf page s1 = addressOf page s.
Proof. unfold addressOf. intros ->. reflexivity. Qed.

(** The five queries read one document, the one shown at the address
    the page is on. *)
Lemma scrape_Ok page s out s' :
  scrape w page s = (Ok out, s') -> out = outputOf w (addressOf page s).
Proof.
  unfold scrape. intros Hs.
  apply call_then in Hs as (s1 & Hu1 & Hs); [|exact I].
  rewrite document_then, pageUrl_then in Hs. cbv zeta in Hs.
  apply call_then in Hs as (s2 & Hu2 & Hs); [|exact I].
  rewrite document_then in Hs. cbv zeta in Hs.
  apply call_then in Hs as (s3 & Hu3 & Hs); [|exact I].
  rewrite document_then in Hs. cbv zeta in Hs.
  apply call_then in Hs as (s4 & Hu4 & Hs); [|exact I].
  rewrite document_then in Hs. cbv zeta in Hs.
  apply call_then in Hs as (s5 & Hu5 & Hs); [|exact I].
  rewrite document_then in Hs. cbv zeta in Hs.
  apply ret_Ok_inv in Hs as [<- _].
  assert (H1 : addressOf page s1 = addressOf page s)
    by (apply addressOf_same; congruence).
  assert (H2 : addressOf page s2 = addressOf page s)
    by (apply addressOf_same; congruence).
  assert (H3 : addressOf page s3 = addressOf page s)
    by (apply addressOf_same; congruence).
  assert (H4 : addressOf page s4 = addressOf page s)
    by (apply addressOf_same; congruence).
  assert (H5 : addressOf page s5 = addressOf page s)
    by (apply addressOf_same; congruence).
  rewrite H1, H2, H3, H4, H5. reflexivity.
Qed.

Lemma visit_Ok page url s out s' :
  visit w page url s = (Ok out, s') -> out = outputOf w (landing w url).
Proof.
  unfold visit. intros Hv.
  apply bind_Ok_inv in Hv as ([] & s1 & Hgoto & Hv).
  apply call_Ok_inv in Hgoto as [_ ->].
  set (s1 := effect w (goto page url) (issued w (goto page url) true s)) in Hv.
  assert (Ha1 : addressOf page s1 = landing w url).
  { unfold addressOf. subst s1. simpl. rewrite lookup_insert_eq. reflexivity. }
  clearbody s1.
  apply call_then in Hv as (s2 & Hu2 & Hv); [|exact I].
  apply keeps_then in Hv as (s3 & Hu3 & Hv);
    [|apply expandSections_sameAddresses].
  apply call_then in Hv as (s4 & Hu4 & Hv); [|exact I].
  apply keeps_then in Hv as (s5 & Hu5 & Hv);
    [|apply expandDescriptions_sameAddresses].
  apply scrape_Ok in Hv. rewrite Hv, <- Ha1.
  f_equal. apply addressOf_same. congruence.
Qed.


End Methods.

End OutputFacts.

(** ** The skills callback *)

Module SkillsFacts.

Import Skills Observe.

Lemma digitValue_digit c :
  isDigit c = true -> digitValue 10 c = Some (Z.of_N c - 48)%Z.
Proof.
  unfold isDigit, digitValue. intros Hd. rewrite Hd.
  apply andb_true_iff in Hd as [Hl Hu].
  apply N.leb_le in Hl, Hu.
  destruct (Z.ltb_spec (Z.of_N c - 48) 10); [reflexivity | lia].
Qed.

Lemma digitValue_other c : isDigit c = false -> digitValue 10 c = None.
Proof.
  unfold isDigit, digitValue. intros ->.
  destruct ((97 <=? c) && (c <=? 122)) eqn:Hlow.
  - apply andb_true_iff in Hlow as [Hl Hu]. apply N.leb_le in Hl, Hu.
    destruct (Z.ltb_spec (Z.of_N c - 87) 10); [lia | reflexivity].
  - destruct ((65 <=? c) && (c <=? 90)) eqn:Hup; [|reflexivity].
    apply andb_true_iff in Hup as [Hl Hu]. apply N.leb_le in Hl, Hu.
    destruct (Z.ltb_spec (Z.of_N c - 55) 10); [lia | reflexivity].
Qed.

Lemma digit_not_space c : isDigit c = true -> isWhiteSpace c = false.
Proof.
  unfold isDigit. intros Hd. apply andb_true_iff in Hd as [Hl Hu].
  apply N.leb_le in Hl, Hu. unfold isWhiteSpace.
  repeat match goal with
         | |- context [?a =? ?b] =>
             destruct (N.eqb_spec a b); [lia|]
         | |- context [?a <=? ?b] =>
             destruct (N.leb_spec a b); [try lia|]
         end; reflexivity.
Qed.

(** The digits are read up to the first code unit that is none. *)
Lemma digits_prefix (ds rest : jsstring) (n : Z) :
  forallb isDigit ds = true ->
  (forall c rest', rest = c :: rest' -> isDigit c = false) ->
  digits 10 (ds ++ rest) (Some n) =
  Some (fold_left (fun n c => (10 * n + (Z.of_N c - 48))%Z) ds n).
Proof.
  revert n. induction ds as [|d ds IH]; intros n Hds Hrest.
  - simpl. destruct rest as [|c rest']; [reflexivity|].
    simpl. rewrite (digitValue_other c (Hrest c rest' eq_refl)). reflexivity.
  - simpl in Hds. apply andb_true_iff in Hds as [Hd Hds].
    simpl. rewrite (digitValue_digit d Hd). simpl.
    apply IH; assumption.
Qed.

Lemma decimal_nonneg_from (ds : jsstring) (n : Z) :
  forallb isDigit ds = true -> (0 <= n)%Z ->
  (0 <= fold_left (fun n c => (10 * n + (Z.of_N c - 48))%Z) ds n)%Z.
Proof.
  revert n. induction ds as [|d ds IH]; intros n Hds Hn; [exact Hn|].
  simpl in Hds. apply andb_true_iff in Hds as [Hd Hds].
  simpl. apply IH; [exact Hds|].
  unfold isDigit in Hd. apply andb_true_iff in Hd as [Hl Hu].
  apply N.leb_le in Hl, Hu. lia.
Qed.

(** What [trim] leaves does not begin with white space. *)
Lemma trimStart_head (s : jsstring) c rest :
  trimStart s = c :: rest -> isWhiteSpace c = false.
Proof.
  induction s as [|a s IH]; simpl; [discriminate|].
  destruct (isWhiteSpace a) eqn:Ha; [exact IH|].
  intros [= <- _]. exact Ha.
Qed.

Lemma trimStart_snoc (l : jsstring) c :
  isWhiteSpace c = false -> trimStart (l ++ [c]) = trimStart l ++ [c].
Proof.
  intros Hc. induction l as [|a l IH]; simpl.
  - rewrite Hc. reflexivity.
  - destruct (isWhiteSpace a); [exact IH | reflexivity].
Qed.

Lemma trim_head (s : jsstring) c rest :
  trim s = c :: rest -> isWhiteSpace c = false.
Proof.
  unfold trim, trimEnd.
  destruct (trimStart s) as [|a t] eqn:Ht; [discriminate|].
  pose proof (trimStart_head s a t Ht) as Ha.
  simpl rev. rewrite (trimStart_snoc (rev t) a Ha), rev_app_distr.
  simpl. intros [= <- _]. exact Ha.
Qed.

Lemma trimStart_trim (s : jsstring) : trimStart (trim s) = trim s.
Proof.
  destruct (trim s) as [|c rest] eqn:Ht; [reflexivity|].
  simpl. rewrite (trim_head s c rest Ht). reflexivity.
Qed.

(** [parseInt] on a text that begins with decimal digits and goes on
    with something else. *)
Lemma parseInt_leading_digits (ds rest : jsstring) :
  ds <> [] -> forallb isDigit ds = true ->
  (forall c rest', rest = c :: rest' ->
                   isDigit c = false /\ c <> 120 /\ c <> 88) ->
  parseInt (ds ++ rest) = Some (decimal ds).
Proof.
  intros Hne Hds Hrest.
  destruct ds as [|d ds]; [congruence|]. clear Hne.
  pose proof Hds as Hall.
  simpl in Hds. apply andb_true_iff in Hds as [Hd Hds].
  assert (Hrest' : forall c rest', rest = c :: rest' -> isDigit c = false).
  { intros c rest' E. apply (Hrest c rest' E). }
  assert (Hrange : 48 <= d <= 57).
  { unfold isDigit in Hd. apply andb_true_iff in Hd as [Hl Hu].
    apply N.leb_le in Hl, Hu. lia. }
  unfold parseInt. cbn [app trimStart].
  rewrite (digit_not_space d Hd).
  destruct (N.eqb_spec d 45) as [|_]; [lia|].
  destruct (N.eqb_spec d 43) as [|_]; [lia|].
  cbn [orb].
  assert (Hdigits : digits 10 (d :: ds ++ rest) None = Some (decimal (d :: ds))).
  { cbn [digits]. rewrite (digitValue_digit d Hd). cbn [default].
    rewrite (digits_prefix ds rest _ Hds Hrest'). reflexivity. }
  destruct (ds ++ rest) as [|c1 tail] eqn:Happ.
  - rewrite Hdigits. f_equal. lia.
  - assert (Hc1 : ((c1 =? 120) || (c1 =? 88)) = false).
    { destruct ds as [|d1 ds'].
      - simpl in Happ. destruct (Hrest c1 tail Happ) as (_ & H1 & H2).
        apply orb_false_iff. split; apply N.eqb_neq; assumption.
      - simpl in Happ. injection Happ as <- _.
        simpl in Hds. apply andb_true_iff in Hds as [Hd1 _].
        unfold isDigit in Hd1. apply andb_true_iff in Hd1 as [Hl Hu].
        apply N.leb_le in Hl, Hu.
        apply orb_false_iff. split; apply N.eqb_neq; lia. }
    rewrite Hc1, andb_false_r, Hdigits. f_equal. lia.
Qed.

(** [parseInt] on a text that begins with neither white space, a sign
    nor a digit is [NaN]. *)
Lemma parseInt_no_digit (c : N) (rest : jsstring) :
  isWhiteSpace c = false -> isDigit c = false -> c <> 43 -> c <> 45 ->
  parseInt (c :: rest) = None.
Proof.
  intros Hs Hd Hplus Hminus. unfold parseInt. cbn [trimStart]. rewrite Hs.
  destruct (N.eqb_spec c 45) as [|_]; [congruence|].
  destruct (N.eqb_spec c 43) as [|_]; [congruence|].
  cbn [orb].
  assert (H48 : (c =? 48) = false).
  { apply N.eqb_neq. intros ->. discriminate Hd. }
  destruct rest as [|c1 rest]; cbn [digits];
    rewrite ?H48, ?andb_false_l; cbn [digits];
    rewrite (digitValue_other c Hd); reflexivity.
Qed.


(** A skill without a count element has 0 endorsements, and the name of
    a skill is the trimmed text of its name element. *)
Lemma skill_without_count (node : SkillNode) :
  (endorsementCountText node = None ->
   Skill.endorsementCount (skill node) = Some 0%Z)
  /\ Skill.skillName (skill node) = trim <$> skillNameText node.
Proof. split; [intros Hn; unfold skill; simpl; rewrite Hn|]; reflexivity. Qed.


End SkillsFacts.

(** ** The further properties on the samples *)

Module MoreScenarios.

Import JS Lifecycle LifecycleFacts Observe.
Local Open Scope async_scope.

#[local] Existing Instance Samples.plainUtils.



(** [close_rejects_before_browser_closes] after [setup], when the page
    handed to [close] cannot be closed (code 7). *)
Lemma close_rejects_before_browser_closes_after_setup :
  let w := Samples.loggedIn [(14, 7)]%nat in
  let s := Samples.ready false in
  let b := {| pid := Some 4242%nat |} in
  let r := close w (Some 1%nat) s in
  fst r = Throw (DriverError 7)
  /\ (exists ok,
        trace (snd r) =
        (browserClose, ok) :: (pageClose 1%nat, false) :: trace s
        /\ (ok = true <-> fault w (S (clock s)) = None))
  /\ live (snd r) = live s /\ openPages (snd r) = openPages s
  /\ closing (snd r) = Some (fault w (S (clock s)))
  /\ forall c,
       closing (snd (call w c (snd r))) = None
       /\ exists ok' t,
            trace (snd (call w c (snd r))) = t ++ (c, ok') :: trace (snd r)
            /\ ((fault w (S (clock s)) = None
                 /\ exists n killed,
                      pid b = Some (S n) /\ t = [(treeKill (S n), killed)])
                \/ ((fault w (S (clock s)) <> None
                     \/ pid b = None \/ pid b = Some 0%nat)
                    /\ t = [])).
Proof.
  cbv zeta.
  apply (LifecycleMore.close_rejects_before_browser_closes
           (Samples.loggedIn [(14, 7)]%nat) (Samples.ready false)
           {| pid := Some 4242%nat |} 1%nat 7%nat);
    reflexivity.
Defined.


End MoreScenarios.
